(** * meow_server: VM lifecycle and session orchestration

    A shallow embedding of [src/pve.js] (task polling, guest IP lookup, the
    client of the control plane), of [src/app.js] (remote script execution,
    login, and the student session handlers start / verify / next) and of
    the chunking of [src/rag.js], with the properties of the specification
    stated and proved over it.

    Conventions.
    - A rejected promise or a thrown [Error] is [Throw]; a resolved one is
      [Return].  A handler's outer [try { ... } catch] turns [Throw msg]
      into the 500 response carrying [msg].
    - Everything outside the process (hypervisor REST calls, SSH, the wall
      clock, [process.env]) is an oracle: a field of a world record whose
      value the theorems quantify over.
    - A string is held as the UTF-8 encoding of the JavaScript string,
      which is taken to be well formed (no lone surrogate); JavaScript
      source literals are kept verbatim.  [Js.length] counts UTF-16 code
      units, as [.length] does. *)

From Stdlib Require Import ZArith String Ascii Lia.
From stdpp Require Import gmap strings list pretty.

Open Scope string_scope.
Open Scope list_scope.

(** ** Outcomes of fallible calls *)

Inductive Outcome (E A : Type) : Type :=
| Return (a : A)
| Throw (e : E).
Arguments Return {E A} a.
Arguments Throw {E A} e.

(** ** JavaScript string and value helpers *)

Module Js.

(** The newline character of the template literals. *)
Definition LF : ascii := ascii_of_nat 10.
Definition nl : string := String LF "".

(** Truthiness of a possibly [null]/[undefined] string: [null], [undefined]
    and [''] are falsy. *)
Definition truthy (s : option string) : bool :=
  match s with
  | Some (String _ _) => true
  | _ => false
  end.

(** [s || d] for strings. *)
Definition or_else (s : option string) (d : string) : string :=
  match s with
  | Some (String c r) => String c r
  | _ => d
  end.

(** [s.startsWith(p)] *)
Definition startsWith (p s : string) : bool := String.prefix p s.

(** [s.includes(p)] *)
Fixpoint includes (p s : string) : bool :=
  String.prefix p s ||
  match s with
  | EmptyString => false
  | String _ s' => includes p s'
  end.

Fixpoint skip (n : nat) (s : string) : string :=
  match n, s with
  | S n', String _ s' => skip n' s'
  | _, _ => s
  end.

(** [s.replace(p, r)] with a string pattern: the first occurrence only.
    The replacement strings used by the program hold no [$]. *)
Fixpoint replace (p r s : string) : string :=
  if String.prefix p s then r +:+ skip (String.length p) s
  else match s with
       | EmptyString => EmptyString
       | String c s' => String c (replace p r s')
       end.

(** A string given by its bytes. *)
Definition bytes (l : list nat) : string :=
  string_of_list_ascii (map ascii_of_nat l).

(** What [String.prototype.trim] strips: the white space and the line
    terminators of ECMAScript, each in its UTF-8 encoding.  TAB, LF, VT,
    FF, CR, SPACE; U+00A0; U+1680; U+2000 to U+200A; U+2028, U+2029;
    U+202F; U+205F; U+3000; U+FEFF. *)
Definition white_space : list string :=
  map bytes
    [ [9]; [10]; [11]; [12]; [13]; [32];
      [194; 160];
      [225; 154; 128];
      [226; 128; 128]; [226; 128; 129]; [226; 128; 130]; [226; 128; 131];
      [226; 128; 132]; [226; 128; 133]; [226; 128; 134]; [226; 128; 135];
      [226; 128; 136]; [226; 128; 137]; [226; 128; 138];
      [226; 128; 168]; [226; 128; 169];
      [226; 128; 175];
      [226; 129; 159];
      [227; 128; 128];
      [239; 187; 191] ].

(** The string without the first of [seqs] it starts with, if any. *)
Fixpoint strip_one (seqs : list string) (s : string) : option string :=
  match seqs with
  | [] => None
  | p :: seqs' =>
      if String.prefix p s then Some (skip (String.length p) s)
      else strip_one seqs' s
  end.

(** [s] without its leading run of members of [seqs]; [fuel] bounds the
    number of members stripped. *)
Fixpoint strip (seqs : list string) (fuel : nat) (s : string) : string :=
  match fuel with
  | O => s
  | S fuel' =>
      match strip_one seqs s with
      | Some s' => strip seqs fuel' s'
      | None => s
      end
  end.

(** [s.trimStart()] *)
Definition trimStart (s : string) : string :=
  strip white_space (String.length s) s.

(** [s.trimEnd()]: the encodings are looked for back to front. *)
Definition trimEnd (s : string) : string :=
  String.rev
    (strip (map String.rev white_space) (String.length s) (String.rev s)).

(** [s.trim()] *)
Definition trim (s : string) : string := trimEnd (trimStart s).

(** [s.length]: the number of UTF-16 code units.  A character of one to
    three bytes is one unit, one of four bytes is two (a surrogate pair);
    the count is taken at the first byte of each character. *)
Definition units (c : ascii) : nat :=
  let n := nat_of_ascii c in
  if (n <? 128)%nat then 1
  else if (n <? 192)%nat then 0
  else if (n <? 240)%nat then 1
  else 2.

Fixpoint length (s : string) : nat :=
  match s with
  | EmptyString => 0
  | String c s' => units c + length s'
  end.

(** Template-literal rendering of a number. *)
Definition show (n : N) : string := pretty n.

(** Template-literal rendering of a possibly undefined string. *)
Definition show_opt (s : option string) : string :=
  match s with
  | Some x => x
  | None => "undefined"
  end.

(** [Array.prototype.findIndex]: the index of the first element that
    satisfies [f], or [-1]. *)
Fixpoint findIndex {A : Type} (f : A -> bool) (l : list A) : Z :=
  match l with
  | [] => (-1)%Z
  | x :: l' =>
      if f x then 0%Z
      else let i := findIndex f l' in
           if (i <? 0)%Z then (-1)%Z else (i + 1)%Z
  end.

(** [l[i]] for an integer index: [undefined] out of range. *)
Definition at_index {A : Type} (l : list A) (i : Z) : option A :=
  if (i <? 0)%Z then None else l !! Z.to_nat i.

End Js.

(** ** src/pve.js *)

Module Pve.

(** The ways a polling call fails.  The source throws plain [Error]
    objects that differ only in their message, and reading a member of a
    reply that holds no [data] raises a [TypeError]; [message] renders
    each. *)
Inductive PveError : Type :=
| TaskFailed (exitstatus : option string)
| TaskTimeout
| ApiError (msg : string)
| TypeError (msg : string).

Definition message (e : PveError) : string :=
  match e with
  | TaskFailed x => "任務失敗: " +:+ Js.show_opt x
  | TaskTimeout => "任務超時"
  | ApiError msg => "PVE API 錯誤: " +:+ msg
  | TypeError msg => msg
  end.

(** [status.data] of the task-status endpoint.  [status] is only ever
    compared with ['stopped']: a reply without that member reads as any
    other string. *)
Record TaskStatus : Type := mkTaskStatus {
  status : string;
  exitstatus : option string;
}.

(** A reply of which [status.data.status] cannot be read: its body is
    [null], or its [data] is missing or [null].  Reading it raises a
    [TypeError], with the message [unreadable_message] gives. *)
Inductive Unreadable : Type :=
| NullBody
| NoData
| NullData.

Definition unreadable_message (u : Unreadable) : string :=
  match u with
  | NullBody => "Cannot read properties of null (reading 'data')"
  | NoData => "Cannot read properties of undefined (reading 'status')"
  | NullData => "Cannot read properties of null (reading 'status')"
  end.

(** What a status request is answered with. *)
Inductive Reply : Type :=
| Status (st : TaskStatus)
| NoStatus (u : Unreadable).

(** What becomes of the [k]-th status request.  It is answered after so
    many milliseconds: with a reply ([Return]) or with a failure
    ([Throw], carrying the upstream message).  Or it is never answered:
    the request is sent without a timeout of its own. *)
Inductive Answer : Type :=
| Answered (reply : Outcome string Reply) (after : N)
| Unanswered.

(** The control plane and the timers as seen by one [waitForTask] call.
    [overrun k] is how many milliseconds after its 2000 the timer of the
    [k]-th sleep fires.  Time passes while a request is out and while a
    timer runs; the steps in between take none. *)
Record ControlPlane : Type := mkControlPlane {
  request : nat -> Answer;
  overrun : nat -> N;
}.

Definition default_timeout : Z := 300000.
Definition poll_interval : Z := 2000.

(** How long the [k]-th request takes, when it is answered. *)
Definition took (c : ControlPlane) (k : nat) : N :=
  match request c k with
  | Answered _ after => after
  | Unanswered => 0%N
  end.

(** One turn of the [while] loop: the call settles, or it sleeps until
    the next loop test, or it stays pending at a request that is never
    answered. *)
Inductive Turn : Type :=
| Settle (r : Outcome PveError bool) (t : Z)
| Sleep (next : Z)
| Pend.

(** The turn that starts with the loop test at time [now] and makes the
    [k]-th status request. *)
Definition turn (c : ControlPlane) (startTime timeout : Z) (k : nat)
    (now : Z) : Turn :=
  if (now - startTime <? timeout)%Z then
    match request c k with
    | Unanswered => Pend
    | Answered reply after =>
        let now' := (now + Z.of_N after)%Z in
        match reply with
        | Throw msg => Settle (Throw (ApiError msg)) now'
        | Return (NoStatus u) =>
            Settle (Throw (TypeError (unreadable_message u))) now'
        | Return (Status st) =>
            if String.eqb (status st) "stopped" then
              if bool_decide (exitstatus st = Some "OK")
              then Settle (Return true) now'
              else Settle (Throw (TaskFailed (exitstatus st))) now'
            else Sleep (now' + poll_interval + Z.of_N (overrun c k))%Z
        end
    end
  else Settle (Throw TaskTimeout) now.

(** The [while] loop of [waitForTask].  [now] is [Date.now()] at the loop
    test, [k] counts the status requests made so far.  The result carries
    the time at which the call settles; [None] is a call that has not
    settled: the fuel is spent, or a request is never answered. *)
Fixpoint waitForTask_loop (c : ControlPlane) (startTime timeout : Z)
    (fuel k : nat) (now : Z) : option (Outcome PveError bool * Z) :=
  match fuel with
  | O => None
  | S fuel' =>
      match turn c startTime timeout k now with
      | Settle r t => Some (r, t)
      | Sleep next => waitForTask_loop c startTime timeout fuel' (S k) next
      | Pend => None
      end
  end.

Definition waitForTask (c : ControlPlane) (timeout : Z) (fuel : nat)
    (startTime : Z) : option (Outcome PveError bool * Z) :=
  waitForTask_loop c startTime timeout fuel 0 startTime.

(** Loop iterations that always suffice for a call that settles: the
    clock advances by at least [poll_interval] per iteration. *)
Definition enough_fuel (timeout : Z) : nat :=
  Z.to_nat (timeout / poll_interval) + 2.

(** The time of the [k]-th loop test when every earlier request found the
    task still running. *)
Fixpoint test_time (c : ControlPlane) (startTime : Z) (k : nat) : Z :=
  match k with
  | O => startTime
  | S k' =>
      (test_time c startTime k' + Z.of_N (took c k') + poll_interval
       + Z.of_N (overrun c k'))%Z
  end.

(** Up to the [k]-th loop test every request was made within the budget
    and was answered with a task not yet stopped. *)
Definition still_running (c : ControlPlane) (startTime timeout : Z) (k : nat)
    : Prop :=
  forall j, j < k ->
    (test_time c startTime j - startTime < timeout)%Z /\
    exists st after,
      request c j = Answered (Return (Status st)) after /\
      status st <> "stopped".

(** How the [k]-th iteration, reached at its test time, settles the call:
    with which result and at what time. *)
Inductive settles_at (c : ControlPlane) (startTime timeout : Z) (k : nat)
    : Outcome PveError bool -> Z -> Prop :=
| settle_ok st after :
    (test_time c startTime k - startTime < timeout)%Z ->
    request c k = Answered (Return (Status st)) after ->
    status st = "stopped" -> exitstatus st = Some "OK" ->
    settles_at c startTime timeout k (Return true)
      (test_time c startTime k + Z.of_N after)%Z
| settle_failed st after :
    (test_time c startTime k - startTime < timeout)%Z ->
    request c k = Answered (Return (Status st)) after ->
    status st = "stopped" -> exitstatus st <> Some "OK" ->
    settles_at c startTime timeout k (Throw (TaskFailed (exitstatus st)))
      (test_time c startTime k + Z.of_N after)%Z
| settle_api msg after :
    (test_time c startTime k - startTime < timeout)%Z ->
    request c k = Answered (Throw msg) after ->
    settles_at c startTime timeout k (Throw (ApiError msg))
      (test_time c startTime k + Z.of_N after)%Z
| settle_no_data u after :
    (test_time c startTime k - startTime < timeout)%Z ->
    request c k = Answered (Return (NoStatus u)) after ->
    settles_at c startTime timeout k
      (Throw (TypeError (unreadable_message u)))
      (test_time c startTime k + Z.of_N after)%Z
| settle_timeout :
    (timeout <= test_time c startTime k - startTime)%Z ->
    settles_at c startTime timeout k (Throw TaskTimeout)
      (test_time c startTime k).

(** The call stays pending at the [k]-th request. *)
Definition pending_at (c : ControlPlane) (startTime timeout : Z) (k : nat)
    : Prop :=
  (test_time c startTime k - startTime < timeout)%Z /\
  request c k = Unanswered.

(** A control plane that answers every status request, with the task's
    status or with a failure, and timers that fire on time: what the
    [k]-th request answers and how many milliseconds it takes. *)
Record TaskWorld : Type := mkTaskWorld {
  poll : nat -> Outcome string TaskStatus;
  latency : nat -> N;
}.

Definition answering (w : TaskWorld) : ControlPlane :=
  mkControlPlane
    (fun k =>
       Answered (match poll w k with
                 | Return st => Return (Status st)
                 | Throw msg => Throw msg
                 end) (latency w k))
    (fun _ => 0%N).

(** Sample control planes: a task that never stops, each status request
    taking 1 ms; a task that has stopped with OK, the answer taking 400 s;
    a task found stopped with OK by the third request, answers immediate;
    a task whose second status request is never answered; one whose
    status reply holds no data. *)
Definition never_stops : TaskWorld :=
  mkTaskWorld (fun _ => Return (mkTaskStatus "running" None)) (fun _ => 1%N).

Definition slow_answer : TaskWorld :=
  mkTaskWorld (fun _ => Return (mkTaskStatus "stopped" (Some "OK")))
    (fun _ => 400000%N).

Definition third_time_ok : TaskWorld :=
  mkTaskWorld
    (fun k => if (k <? 2)%nat then Return (mkTaskStatus "running" None)
              else Return (mkTaskStatus "stopped" (Some "OK")))
    (fun _ => 0%N).

Definition second_unanswered : ControlPlane :=
  mkControlPlane
    (fun k => if (k <? 1)%nat
              then Answered (Return (Status (mkTaskStatus "running" None))) 5
              else Unanswered)
    (fun _ => 3%N).

Definition reply_without_data : ControlPlane :=
  mkControlPlane (fun _ => Answered (Return (NoStatus NoData)) 5)
    (fun _ => 0%N).

(** *** Guest-agent status, as far as [getVMIP] reads it *)

Record IpAddress : Type := mkIpAddress {
  ip_address_type : option string;
  ip_address : option string;
}.

Record Iface : Type := mkIface {
  ip_addresses : option (list IpAddress);
}.

Record Agent : Type := mkAgent {
  network_interfaces : option (list Iface);
}.

Record VmStatus : Type := mkVmStatus {
  agent : option Agent;
}.

(** The inner [for (const ip of iface['ip-addresses'])].  Reading
    [.startsWith] of a missing ['ip-address'] throws a [TypeError]. *)
Fixpoint scan_addresses (ips : list IpAddress)
    : Outcome string (option string) :=
  match ips with
  | [] => Return None
  | ip :: rest =>
      if bool_decide (ip_address_type ip = Some "ipv4") then
        match ip_address ip with
        | None => Throw "TypeError: Cannot read properties of undefined (reading 'startsWith')"
        | Some a =>
            if negb (Js.startsWith "127." a) then Return (Some a)
            else scan_addresses rest
        end
      else scan_addresses rest
  end.

(** The outer [for (const iface of interfaces)]. *)
Fixpoint scan_interfaces (ifaces : list Iface)
    : Outcome string (option string) :=
  match ifaces with
  | [] => Return None
  | iface :: rest =>
      match ip_addresses iface with
      | Some ips =>
          if (0 <? length ips)%nat then
            match scan_addresses ips with
            | Return (Some a) => Return (Some a)
            | Return None => scan_interfaces rest
            | Throw e => Throw e
            end
          else scan_interfaces rest
      | None => scan_interfaces rest
      end
  end.

(** The body of the [try] block of [getVMIP]; [st] is what [getVMStatus]
    produced, [None] standing for a response without [data]. *)
Definition getVMIP_try (st : Outcome string (option VmStatus))
    : Outcome string (option string) :=
  match st with
  | Throw msg => Throw msg
  | Return None => Throw "TypeError: Cannot read properties of undefined (reading 'agent')"
  | Return (Some s) =>
      match agent s with
      | Some ag =>
          match network_interfaces ag with
          | Some interfaces => scan_interfaces interfaces
          | None => Return None
          end
      | None => Return None
      end
  end.

(** [getVMIP]: the [catch] logs and answers [null]. *)
Definition getVMIP (st : Outcome string (option VmStatus)) : option string :=
  match getVMIP_try st with
  | Return r => r
  | Throw _ => None
  end.

(** Every address entry the guest agent reported, in iteration order. *)
Definition entries (ifaces : list Iface) : list IpAddress :=
  concat (map (fun i => default [] (ip_addresses i)) ifaces).

Definition reported (s : VmStatus) : list IpAddress :=
  match agent s with
  | Some ag =>
      match network_interfaces ag with
      | Some interfaces => entries interfaces
      | None => []
      end
  | None => []
  end.

(** An entry that is IPv4 and not in 127.0.0.0/8, by the textual test the
    program uses. *)
Definition non_loopback_ipv4 (ip : IpAddress) : option string :=
  if bool_decide (ip_address_type ip = Some "ipv4") then
    match ip_address ip with
    | Some a => if Js.startsWith "127." a then None else Some a
    | None => None
    end
  else None.

(** The first non-loopback IPv4 address of a list of entries. *)
Definition first_non_loopback_ipv4 (ips : list IpAddress) : option string :=
  head (omap non_loopback_ipv4 ips).

(** Entries are well formed when each IPv4 entry carries its address. *)
Definition well_formed (ip : IpAddress) : Prop :=
  ip_address_type ip = Some "ipv4" -> is_Some (ip_address ip).

(** An IPv4 entry that carries no address: [.startsWith] is read of
    [undefined] there. *)
Definition address_less (ip : IpAddress) : bool :=
  bool_decide (ip_address_type ip = Some "ipv4") &&
  match ip_address ip with
  | None => true
  | Some _ => false
  end.

(** The entries the scan gets to read: those before the first IPv4 entry
    that carries no address. *)
Fixpoint readable (ips : list IpAddress) : list IpAddress :=
  match ips with
  | [] => []
  | ip :: rest => if address_less ip then [] else ip :: readable rest
  end.

(** A guest with a loopback interface and one Ethernet interface. *)
Definition sample_status : VmStatus :=
  mkVmStatus (Some (mkAgent (Some
    [ mkIface (Some [ mkIpAddress (Some "ipv4") (Some "127.0.0.1");
                      mkIpAddress (Some "ipv6") (Some "::1") ]);
      mkIface (Some [ mkIpAddress (Some "ipv6") (Some "fe80::1");
                      mkIpAddress (Some "ipv4") (Some "10.0.0.5") ]) ]))).

(** A guest whose agent reports an IPv4 entry without address before
    the entry of 10.0.0.9. *)
Definition address_less_first : VmStatus :=
  mkVmStatus (Some (mkAgent (Some
    [ mkIface (Some [ mkIpAddress (Some "ipv4") None;
                      mkIpAddress (Some "ipv4") (Some "10.0.0.9") ]) ]))).

End Pve.

(** A task world is used as the control plane it describes. *)
Coercion Pve.answering : Pve.TaskWorld >-> Pve.ControlPlane.

(** ** Persistence (src/db.js is not part of the sources at hand) *)

Module Db.

Inductive Role : Type := teacher | student.

#[global] Instance Role_eq_dec : EqDecision Role.
Proof. solve_decision. Defined.

Record User : Type := mkUser {
  user_id : nat;
  username : string;
  role : Role;
}.

(** A row of [questions]; the columns the session handlers read. *)
Record Question : Type := mkQuestion {
  q_id : nat;
  title : string;
  fault_id : option string;
  fault_path : option string;
  fault_script : option string;
  check_id : option string;
  check_path : option string;
  check_script : option string;
  enabled : bool;
}.

Record VmAssignment : Type := mkVmAssignment {
  student_id : nat;
  vmid : N;
  vm_name : string;
  vm_ip : option string;
  snapshot_name : string;
}.

Record Progress : Type := mkProgress {
  current_qid : option nat;
  started : bool;
}.

Record Attempt : Type := mkAttempt {
  attempt_student : nat;
  attempt_question : option nat;
  passed : bool;
  stdout : string;
  stderr : string;
  output : string;
}.

Inductive QuestionStatus : Type := status_passed | status_failed | status_untried.

#[global] Instance QuestionStatus_eq_dec : EqDecision QuestionStatus.
Proof. solve_decision. Defined.

(** The tables.  [questions] is held in the order of the ordering key;
    [vm_assignments] and [attempts] are kept as logs, newest last, so that
    a duplicate row would show. *)
Record t : Type := mk {
  users : list User;
  questions : list Question;
  vm_assignments : list VmAssignment;
  progress : gmap nat Progress;
  attempts : list Attempt;
}.

Definition initial (qs : list Question) : t :=
  {| users := []; questions := qs; vm_assignments := [];
     progress := ∅; attempts := [] |}.

Definition set_users (d : t) (us : list User) : t :=
  {| users := us; questions := questions d;
     vm_assignments := vm_assignments d; progress := progress d;
     attempts := attempts d |}.

Definition set_questions (d : t) (qs : list Question) : t :=
  {| users := users d; questions := qs;
     vm_assignments := vm_assignments d; progress := progress d;
     attempts := attempts d |}.

Definition set_vm_assignments (d : t) (vs : list VmAssignment) : t :=
  {| users := users d; questions := questions d;
     vm_assignments := vs; progress := progress d;
     attempts := attempts d |}.

Definition set_progress (d : t) (p : gmap nat Progress) : t :=
  {| users := users d; questions := questions d;
     vm_assignments := vm_assignments d; progress := p;
     attempts := attempts d |}.

Definition set_attempts (d : t) (ats : list Attempt) : t :=
  {| users := users d; questions := questions d;
     vm_assignments := vm_assignments d; progress := progress d;
     attempts := ats |}.

(** Modelled from the spec: [getVmAssignment(studentId)] of the absent
    db.js, "getVmAssignment(studentId) -> VmAssignment|null". *)
Definition getVmAssignment (studentId : nat) (d : t) : option VmAssignment :=
  List.find (fun a => Nat.eqb (student_id a) studentId) (vm_assignments d).

(** Modelled from the spec: [createVmAssignment] of the absent db.js,
    "createVmAssignment(studentId, vmid, name, ip, snapshotName)"; the row
    is added without a uniqueness check of its own. *)
Definition createVmAssignment (studentId : nat) (vmid : N) (name : string)
    (ip : option string) (snapshotName : string) (d : t) : t :=
  set_vm_assignments d
    (vm_assignments d ++ [mkVmAssignment studentId vmid name ip snapshotName]).

(** Modelled from the spec: [getProgress] of the absent db.js, "Progress:
    studentId, currentExerciseId, started flag ... one row per student";
    a student without a row reads as not started. *)
Definition getProgress (studentId : nat) (d : t) : Progress :=
  default (mkProgress None false) (progress d !! studentId).

(** Modelled from the spec: [updateProgress] of the absent db.js,
    "updateProgress(studentId, exerciseId, started)". *)
Definition updateProgress (studentId qid : nat) (st : bool) (d : t) : t :=
  set_progress d (<[studentId := mkProgress (Some qid) st]> (progress d)).

(** Modelled from the spec: [getQuestions] of the absent db.js,
    "getExercises(onlyEnabled) -> ordered list". *)
Definition getQuestions (onlyEnabled : bool) (d : t) : list Question :=
  if onlyEnabled then List.filter enabled (questions d) else questions d.

(** Modelled from the spec: [getQuestion] of the absent db.js,
    "getExercise(id)"; [None] is also the answer to an id that did not
    parse. *)
Definition getQuestion (qid : option nat) (d : t) : option Question :=
  match qid with
  | Some n => List.find (fun q => Nat.eqb (q_id q) n) (questions d)
  | None => None
  end.

(** Modelled from the spec: [recordAttempt] of the absent db.js,
    "recordAttempt(studentId, exerciseId, passed, stdout, stderr, output)",
    "Append-only log". *)
Definition recordAttempt (studentId : nat) (qid : option nat) (p : bool)
    (out err o : string) (d : t) : t :=
  set_attempts d (attempts d ++ [mkAttempt studentId qid p out err o]).

Definition attempts_of (studentId : nat) (qid : option nat) (d : t)
    : list Attempt :=
  List.filter
    (fun a => Nat.eqb (attempt_student a) studentId
              && bool_decide (attempt_question a = qid))
    (attempts d).

(** Modelled from the spec: [getQuestionStatus] of the absent db.js,
    "getExerciseStatus(studentId, exerciseId) -> passed|failed|untried",
    read off "the latest Attempt" for the pair. *)
Definition getQuestionStatus (studentId : nat) (qid : option nat) (d : t)
    : QuestionStatus :=
  match last (attempts_of studentId qid d) with
  | Some a => if passed a then status_passed else status_failed
  | None => status_untried
  end.

Definition next_user_id (us : list User) : nat :=
  S (foldr Nat.max 0 (map user_id us)).

(** Modelled from the spec: [getOrCreateUser] of the absent db.js.  The
    spec leaves authentication to a collaborator and says nothing of it;
    the behaviour taken here is the one the repository's own
    SECURITY_FIX_GUIDE.md reports: a name that does not exist is created on
    the spot (with the role handed in), an existing row is returned as it
    is. *)
Definition getOrCreateUser (name : string) (r : Role) (d : t) : User * t :=
  match List.find (fun u => String.eqb (username u) name) (users d) with
  | Some u => (u, d)
  | None =>
      let u := mkUser (next_user_id (users d)) name r in
      (u, set_users d (users d ++ [u]))
  end.

(** The INSERT of src/app_rag_apis.js (save-generated): a new enabled row
    whose place in the ordering is [i]. *)
Definition insertQuestion (i : nat) (q : Question) (d : t) : t :=
  set_questions d (take i (questions d) ++ q :: drop i (questions d)).

End Db.

(** ** src/app.js *)

Module App.

(** *** The world outside the process *)

(** [process.env], as far as the handlers read it.  [VM_SSH_PORT] is the
    value after [parseInt(process.env.VM_SSH_PORT || '22', 10)]. *)
Record Env : Type := mkEnv {
  VM_SSH_PORT : N;
  VM_SSH_USER : option string;
  VM_SSH_KEY_PATH : option string;
  VM_IP_TEMPLATE : option string;
}.

Record Conn : Type := mkConn {
  host : string;
  port : N;
  username : string;
  privateKeyPath : string;
}.

(** What [runSSH] resolves with. *)
Record SshResult : Type := mkSshResult {
  code : Z;
  stdout : string;
  stderr : string;
}.

(** The oracles of one request.  The hypervisor functions are those
    exported by src/pve.js; [cloneVM] is applied to a [null] id, so the
    oracle also stands for the id [getNextVMID] hands out.  [runSSH] is
    the export of the absent src/ssh.js. *)
Record World : Type := mkWorld {
  env : Env;
  Date_now : N;
  cloneVM : string -> Outcome string N;
  startVM : N -> Outcome string unit;
  getVMStatus : N -> Outcome string (option Pve.VmStatus);
  createSnapshot : N -> string -> Outcome string unit;
  rollbackToSnapshot : N -> string -> Outcome string unit;
  runSSH : Conn -> string -> Outcome string SshResult;
}.

(** *** Observable calls *)

Inductive Call : Type :=
| CloneVM (name : string)
| StartVM (vmid : N)
| SetTimeout (ms : N)
| GetVMIP (vmid : N)
| CreateSnapshot (vmid : N) (name : string)
| RollbackToSnapshot (vmid : N) (name : string)
| RunSSH (conn : Conn) (command : string).

(** A call made directly by a handler, or one unit of work handed to
    [pveQueue.add] with the calls it made. *)
Inductive Event : Type :=
| Direct (c : Call)
| Queued (cs : list Call).

Definition calls_of (e : Event) : list Call :=
  match e with
  | Direct c => [c]
  | Queued cs => cs
  end.

Definition is_queued (e : Event) : bool :=
  match e with
  | Queued _ => true
  | Direct _ => false
  end.

Definition is_hypervisor (c : Call) : bool :=
  match c with
  | RunSSH _ _ => false
  | SetTimeout _ => false
  | _ => true
  end.

(** *** The request monad: database and call log, with exceptions *)

Record State : Type := mkState {
  db : Db.t;
  log : list Event;
}.

Definition M (A : Type) : Type := State -> Outcome string A * State.

#[global] Instance M_ret : MRet M := fun A a s => (Return a, s).

#[global] Instance M_bind : MBind M := fun A B f m s =>
  match m s with
  | (Return a, s') => f a s'
  | (Throw e, s') => (Throw e, s')
  end.

Definition throw {A : Type} (msg : string) : M A :=
  fun s => (Throw msg, s).

(** [try { m } catch (error) { h error.message }] *)
Definition try_catch {A : Type} (m : M A) (h : string -> M A) : M A :=
  fun s =>
    match m s with
    | (Return a, s') => (Return a, s')
    | (Throw e, s') => h e s'
    end.

Definition read {A : Type} (f : Db.t -> A) : M A :=
  fun s => (Return (f (db s)), s).

Definition write (f : Db.t -> Db.t) : M unit :=
  fun s => (Return tt, mkState (f (db s)) (log s)).

Definition call {A : Type} (c : Call) (o : Outcome string A) : M A :=
  fun s => (o, mkState (db s) (log s ++ [Direct c])).

(** Modelled from the spec: [pveQueue.add] of the absent src/queue.js,
    "add(unitOfWork) returns a handle resolving with the unit's own
    result ... a failing unit's error propagates only to its own caller".
    Requests are taken one after the other, so the unit runs at once. *)
Definition pveQueue_add {A : Type} (unit_of_work : M A) : M A :=
  fun s =>
    let '(r, s') := unit_of_work (mkState (db s) []) in
    (r, mkState (db s') (log s ++ [Queued (concat (map calls_of (log s')))])).

(** *** Responses *)

Inductive Response : Type :=
| RespError (status : nat) (error : string)
| RespLogin (user : Db.User)
| RespStart (current_qid : nat) (injected : option string)
    (inject_output : string) (vmid : N) (vm_ip : option string)
| RespVerify (passed : bool) (output : string)
| RespNextDone
| RespNext (current_qid : nat) (injected : option string)
    (inject_output : string).

(** The outer [try { ... } catch (error)] of a handler. *)
Definition handle (body : M Response) (s : State) : Response * State :=
  match body s with
  | (Return r, s') => (r, s')
  | (Throw e, s') => (RespError 500 e, s')
  end.

(** *** Sessions and the two guards *)

Definition Session : Type := option Db.User.

(** [None] is [next()]. *)
Definition requireAuth (sess : Session) : option Response :=
  match sess with
  | Some _ => None
  | None => Some (RespError 401 "未登入")
  end.

Definition requireRole (r : Db.Role) (sess : Session) : option Response :=
  match sess with
  | Some u =>
      if bool_decide (Db.role u = r) then None
      else Some (RespError 403 "權限不足")
  | None => Some (RespError 403 "權限不足")
  end.

Definition guarded (r : Db.Role) (sess : Session)
    (h : Db.User -> State -> Response * State) (s : State)
    : Response * State :=
  match requireAuth sess with
  | Some resp => (resp, s)
  | None =>
      match requireRole r sess with
      | Some resp => (resp, s)
      | None =>
          match sess with
          | Some u => h u s
          | None => (RespError 401 "未登入", s)
          end
      end
  end.

(** *** getStudentVmConn *)

Definition getStudentVmConn (w : World) (studentId : nat)
    : M (option Conn) :=
  assignment ← read (Db.getVmAssignment studentId);
  match assignment with
  | None => mret None
  | Some a =>
      if negb (Js.truthy (Db.vm_ip a)) then mret None
      else
        let host := Js.or_else (Db.vm_ip a) "" in
        let port := VM_SSH_PORT (env w) in
        let username := Js.or_else (VM_SSH_USER (env w)) "trainer" in
        let privateKeyPath := VM_SSH_KEY_PATH (env w) in
        if negb (Js.truthy privateKeyPath) then mret None
        else mret (Some (mkConn host port username
                           (Js.or_else privateKeyPath "")))
  end.

(** *** executeScript *)

Definition tempPath (scriptType : string) (now : N) : string :=
  "/tmp/" +:+ scriptType +:+ "_" +:+ Js.show now +:+ ".sh".

Definition writeCmd (path scriptContent : string) : string :=
  "cat > " +:+ path +:+ " << 'EOFSCRIPT'" +:+ Js.nl
    +:+ scriptContent +:+ Js.nl +:+ "EOFSCRIPT".

Definition ssh (w : World) (conn : Conn) (command : string) : M SshResult :=
  call (RunSSH conn command) (runSSH w conn command).

Definition executeScript (w : World) (conn : option Conn)
    (scriptContent scriptPath : option string) (scriptType : string)
    : M SshResult :=
  match conn with
  | None => throw "VM 連線資訊不存在"
  | Some c =>
      try_catch
        (if Js.truthy scriptContent then
           let path := tempPath scriptType (Date_now w) in
           _ ← ssh w c (writeCmd path (Js.or_else scriptContent ""));
           _ ← ssh w c ("chmod +x " +:+ path);
           result ← ssh w c ("sudo " +:+ path);
           _ ← try_catch (_ ← ssh w c ("rm -f " +:+ path); mret tt)
                 (fun _ => mret tt);
           mret result
         else if Js.truthy scriptPath then
           ssh w c ("sudo " +:+ Js.or_else scriptPath "")
         else throw "沒有可執行的腳本內容或路徑")
        (fun msg => throw ("腳本執行失敗: " +:+ msg))
  end.

(** [(r.stdout || r.stderr || '').trim()] *)
Definition shown_output (r : SshResult) : string :=
  Js.trim (match stdout r with
           | EmptyString => stderr r
           | out => out
           end).

(** The injection step shared by start and next: a failure becomes the
    text of [inject_output]. *)
Definition inject (w : World) (conn : option Conn) (q : Db.Question)
    (warning : string) : M string :=
  match conn with
  | Some c =>
      try_catch
        (r ← executeScript w (Some c) (Db.fault_script q) (Db.fault_path q)
               "fault";
         mret (shown_output r))
        (fun msg => mret ("注入失敗: " +:+ msg))
  | None => mret warning
  end.

(** *** POST /api/auth/login *)

Definition role_of (name : string) : Db.Role :=
  if Js.includes "teacher" name then Db.teacher else Db.student.

Definition login_body (name : string) : M Db.User :=
  let role := role_of name in
  fun s =>
    let '(user, d) := Db.getOrCreateUser name role (db s) in
    (Return user, mkState d (log s)).

(** The new session comes with the response; a failed login leaves the
    session as it was. *)
Definition post_auth_login (name : option string) (sess : Session)
    (s : State) : Response * Session * State :=
  if negb (Js.truthy name) then
    (RespError 400 "missing username", sess, s)
  else
    match login_body (Js.or_else name "") s with
    | (Return user, s') =>
        let u := Db.mkUser (Db.user_id user) (Db.username user) (Db.role user) in
        (RespLogin u, Some u, s')
    | (Throw e, s') => (RespError 500 e, sess, s')
    end.

(** *** POST /api/student/start *)

Definition vm_name_of (name : string) (studentId : nat) : string :=
  "student-" +:+ name +:+ "-" +:+ Js.show (N.of_nat studentId).

(** The unit of work handed to the queue. *)
Definition provision (w : World) (studentId : nat) (name : string)
    : M unit :=
  newVmid ← call (CloneVM (vm_name_of name studentId))
              (cloneVM w (vm_name_of name studentId));
  _ ← call (StartVM newVmid) (startVM w newVmid);
  _ ← call (SetTimeout 10000) (Return tt);
  vmIp ← call (GetVMIP newVmid)
           (Return (Pve.getVMIP (getVMStatus w newVmid)));
  let vmIp :=
    if negb (Js.truthy vmIp) then
      if Js.truthy (VM_IP_TEMPLATE (env w))
      then Some (Js.replace "{vmid}" (Js.show newVmid)
                   (Js.or_else (VM_IP_TEMPLATE (env w)) ""))
      else None
    else vmIp in
  _ ← call (CreateSnapshot newVmid "clean_start")
        (createSnapshot w newVmid "clean_start");
  write (Db.createVmAssignment studentId newVmid
           (vm_name_of name studentId) vmIp "clean_start").

(** From "更新進度" on: progress, injection, response. *)
Definition start_progress (w : World) (studentId : nat)
    (assignment : option Db.VmAssignment) : M Response :=
  questions ← read (Db.getQuestions true);
  match head questions with
  | None => mret (RespError 500 "題庫是空的")
  | Some first =>
      _ ← write (Db.updateProgress studentId (Db.q_id first) true);
      conn ← getStudentVmConn w studentId;
      injectOutput ← inject w conn first
        "[警告] 無法連線到 VM，請檢查 VM_SSH_KEY_PATH 和 VM IP 配置";
      match assignment with
      | Some a =>
          mret (RespStart (Db.q_id first) (Db.fault_id first) injectOutput
                  (Db.vmid a) (Db.vm_ip a))
      | None =>
          throw "Cannot read properties of null (reading 'vmid')"
      end
  end.

Definition start_body (w : World) (studentId : nat) (name : string)
    : M Response :=
  assignment ← read (Db.getVmAssignment studentId);
  match assignment with
  | None =>
      questions ← read (Db.getQuestions true);
      match head questions with
      | None => mret (RespError 500 "題庫是空的")
      | Some _ =>
          _ ← pveQueue_add (provision w studentId name);
          assignment ← read (Db.getVmAssignment studentId);
          start_progress w studentId assignment
      end
  | Some a => start_progress w studentId (Some a)
  end.

Definition student_start (w : World) (u : Db.User)
    : State -> Response * State :=
  handle (start_body w (Db.user_id u) (Db.username u)).

(** *** POST /api/student/verify *)

(** [qid] is [parseInt(question_id, 10)]; [None] is [NaN]. *)
Definition verify_body (w : World) (studentId : nat) (qid : option nat)
    : M Response :=
  q ← read (Db.getQuestion qid);
  match q with
  | None => mret (RespError 404 "題目不存在")
  | Some q =>
      conn ← getStudentVmConn w studentId;
      match conn with
      | None =>
          _ ← write (Db.recordAttempt studentId qid false "" ""
                       "[dry-run] 未設定 VM 連線");
          mret (RespVerify false "[dry-run] 未設定 VM 連線，模擬 fail。")
      | Some c =>
          try_catch
            (r ← executeScript w (Some c) (Db.check_script q)
                   (Db.check_path q) "check";
             let passed := (code r =? 0)%Z in
             let output := shown_output r in
             _ ← write (Db.recordAttempt studentId qid passed
                          (stdout r) (stderr r) output);
             mret (RespVerify passed output))
            (fun msg =>
               _ ← write (Db.recordAttempt studentId qid false "" msg "");
               mret (RespError 500 ("驗證失敗: " +:+ msg)))
      end
  end.

Definition student_verify (w : World) (u : Db.User) (qid : option nat)
    : State -> Response * State :=
  handle (verify_body w (Db.user_id u) qid).

(** *** POST /api/student/next *)

(** [questions[questions.findIndex(q => q.id === current_qid) + 1]] *)
Definition next_question (questions : list Db.Question)
    (current : option nat) : option Db.Question :=
  let currentIdx :=
    Js.findIndex (fun q => bool_decide (Some (Db.q_id q) = current))
      questions in
  Js.at_index questions (currentIdx + 1).

Definition next_body (w : World) (studentId : nat) : M Response :=
  progress ← read (Db.getProgress studentId);
  if negb (Db.started progress) then
    mret (RespError 400 "尚未開始訓練")
  else
    questions ← read (Db.getQuestions true);
    match next_question questions (Db.current_qid progress) with
    | None => mret RespNextDone
    | Some next =>
        currentStatus ← read (Db.getQuestionStatus studentId
                                (Db.current_qid progress));
        if negb (bool_decide (currentStatus = Db.status_passed)) then
          mret (RespError 400 "當前題目尚未通過驗證，無法進入下一題")
        else
          assignment ← read (Db.getVmAssignment studentId);
          match assignment with
          | None => mret (RespError 500 "VM 未分配")
          | Some a =>
              _ ← pveQueue_add
                    (call (RollbackToSnapshot (Db.vmid a) (Db.snapshot_name a))
                       (rollbackToSnapshot w (Db.vmid a) (Db.snapshot_name a)));
              _ ← write (Db.updateProgress studentId (Db.q_id next) true);
              conn ← getStudentVmConn w studentId;
              injectOutput ← inject w conn next "[警告] 無法連線到 VM";
              mret (RespNext (Db.q_id next) (Db.fault_id next) injectOutput)
          end
    end.

Definition student_next (w : World) (u : Db.User)
    : State -> Response * State :=
  handle (next_body w (Db.user_id u)).

(** *** The routes, guards included *)

Definition post_student_start (w : World) (sess : Session) :=
  guarded Db.student sess (student_start w).

Definition post_student_verify (w : World) (sess : Session)
    (qid : option nat) :=
  guarded Db.student sess (fun u => student_verify w u qid).

Definition post_student_next (w : World) (sess : Session) :=
  guarded Db.student sess (student_next w).

(** A request starts with an empty call log. *)
Definition fresh (d : Db.t) : State := mkState d [].

(** The connection [getStudentVmConn] resolves for a student, as a function
    of the database. *)
Definition conn_for (w : World) (studentId : nat) (d : Db.t) : option Conn :=
  match getStudentVmConn w studentId (fresh d) with
  | (Return c, _) => c
  | (Throw _, _) => None
  end.

(** The check script of a question as [verify] runs it. *)
Definition check_run (w : World) (c : Conn) (q : Db.Question) : M SshResult :=
  executeScript w (Some c) (Db.check_script q) (Db.check_path q) "check".

(** What a computation returns and which calls it makes, started on a
    fresh request. *)
Definition outcome_of {A : Type} (m : M A) (d : Db.t) : Outcome string A :=
  (m (fresh d)).1.

Definition calls_made {A : Type} (m : M A) (d : Db.t) : list Event :=
  log (m (fresh d)).2.

End App.

(** ** The shell on the target

    How a POSIX shell reads the command text that [executeScript] sends for
    inline content: the first line is the command with its redirections,
    and the here-document opened by [<< 'EOFSCRIPT'] is made of the lines
    that follow, up to the first line that is exactly the delimiter; with
    a quoted delimiter the lines are taken without expansion.  Lines after
    the delimiter line are further commands. *)

Module Shell.

Fixpoint lines (s : string) : list string :=
  match s with
  | EmptyString => [EmptyString]
  | String c s' =>
      if Ascii.eqb c Js.LF then EmptyString :: lines s'
      else match lines s' with
           | l :: ls => String c l :: ls
           | [] => [String c EmptyString]
           end
  end.

Fixpoint unlines (ls : list string) : string :=
  match ls with
  | [] => EmptyString
  | l :: ls' => l +:+ Js.nl +:+ unlines ls'
  end.

Fixpoint take_until (delimiter : string) (ls : list string) : list string :=
  match ls with
  | [] => []
  | l :: ls' =>
      if String.eqb l delimiter then [] else l :: take_until delimiter ls'
  end.

(** The text the here-document feeds to the command, and the lines left
    over after the delimiter line. *)
Definition here_document (delimiter script : string)
    : string * list string :=
  match lines script with
  | [] => (EmptyString, [])
  | _ :: rest =>
      let body := take_until delimiter rest in
      (unlines body, List.skipn (S (length body)) rest)
  end.

Definition no_LF (s : string) : Prop :=
  ~ In Js.LF (list_ascii_of_string s).

End Shell.

(** ** A sample installation

    Two exercises, the first with scripts on the file system, the second
    with inline scripts; a hypervisor on which everything succeeds and whose
    guest agent reports 10.0.0.5; a target on which every command exits
    with 0 and prints "ok". *)

Module Sample.

Definition E1 : Db.Question :=
  Db.mkQuestion 1 "E1" (Some "f1") (Some "/opt/faults/f1.sh") None
    (Some "c1") (Some "/opt/checks/c1.sh") None true.

Definition E2 : Db.Question :=
  Db.mkQuestion 2 "E2" (Some "f2") None (Some "systemctl stop nginx")
    (Some "c2") None (Some "systemctl is-active nginx") true.

Definition env : App.Env :=
  App.mkEnv 22 None (Some "/home/app/.ssh/id_ed25519") None.

Definition world : App.World :=
  App.mkWorld env 1766000000000
    (fun _ => Return 101%N)
    (fun _ => Return tt)
    (fun _ => Return (Some Pve.sample_status))
    (fun _ _ => Return tt)
    (fun _ _ => Return tt)
    (fun _ _ => Return (App.mkSshResult 0 "ok" "")).

Definition alice : Db.User := Db.mkUser 1 "alice" Db.student.

(** The connection to alice's VM once it is assigned. *)
Definition conn : App.Conn :=
  App.mkConn "10.0.0.5" 22 "trainer" "/home/app/.ssh/id_ed25519".

(** A script one of whose lines is the here-document delimiter. *)
Definition delimiter_script : string :=
  "echo a" +:+ Js.nl +:+ "EOFSCRIPT" +:+ Js.nl +:+ "reboot".

Definition installed : Db.t := Db.initial [E1; E2].

(** After alice's first start. *)
Definition started : Db.t :=
  App.db (App.student_start world alice (App.fresh installed)).2.

(** After alice's check of E1 has passed. *)
Definition verified : Db.t :=
  App.db (App.student_verify world alice (Some 1) (App.fresh started)).2.

(** After alice's next() has moved her to E2. *)
Definition advanced : Db.t :=
  App.db (App.student_next world alice (App.fresh verified)).2.

(** No guest agent answers and no address template is configured. *)
Definition without_address : App.World :=
  App.mkWorld env 1766000000000
    (fun _ => Return 101%N)
    (fun _ => Return tt)
    (fun _ => Return (Some (Pve.mkVmStatus None)))
    (fun _ _ => Return tt)
    (fun _ _ => Return tt)
    (fun _ _ => Return (App.mkSshResult 0 "ok" "")).

(** After alice's first start in that world: her VM has no address. *)
Definition started_without_address : Db.t :=
  App.db (App.student_start without_address alice (App.fresh installed)).2.

(** An installation with the single exercise E1, after alice's start. *)
Definition started_single : Db.t :=
  App.db (App.student_start world alice (App.fresh (Db.initial [E1]))).2.

End Sample.

(** ** Sequences of requests

    The databases that requests taken one after the other can produce from
    an installation with no users, assignments, progress or attempts, and
    any question table. *)

Inductive reachable : Db.t -> Prop :=
| reach_initial qs :
    reachable (Db.initial qs)
| reach_login d name sess :
    reachable d ->
    reachable (App.db (App.post_auth_login name sess (App.fresh d)).2)
| reach_start d w u :
    reachable d ->
    reachable (App.db (App.student_start w u (App.fresh d)).2)
| reach_verify d w u qid :
    reachable d ->
    reachable (App.db (App.student_verify w u qid (App.fresh d)).2)
| reach_next d w u :
    reachable d ->
    reachable (App.db (App.student_next w u (App.fresh d)).2)
| reach_insert d i q :
    reachable d ->
    Db.enabled q = true ->
    Db.q_id q ∉ map Db.q_id (Db.questions d) ->
    reachable (Db.insertQuestion i q d).

(** The elementary changes a request makes to the database. *)
Inductive db_step : Db.t -> Db.t -> Prop :=
| step_user d u :
    Db.role u = App.role_of (Db.username u) ->
    db_step d (Db.set_users d (Db.users d ++ [u]))
| step_assignment d studentId vmid name ip :
    Db.getVmAssignment studentId d = None ->
    db_step d (Db.createVmAssignment studentId vmid name ip "clean_start" d)
| step_progress d studentId q :
    In q (Db.getQuestions true d) ->
    db_step d (Db.updateProgress studentId (Db.q_id q) true d)
| step_attempt d studentId qid p out err o :
    db_step d (Db.recordAttempt studentId qid p out err o d)
| step_question d i q :
    Db.enabled q = true ->
    db_step d (Db.insertQuestion i q d).

(** The rows of [vm_assignments] that belong to a student. *)
Definition assignments_of (studentId : nat) (d : Db.t) : list Db.VmAssignment :=
  List.filter (fun a => Nat.eqb (Db.student_id a) studentId)
    (Db.vm_assignments d).

(** Every event is an SSH command sent directly: no queue unit, no
    hypervisor call, no delay. *)
Definition ssh_only (l : list App.Event) : Prop :=
  Forall (fun e => exists c cmd, e = App.Direct (App.RunSSH c cmd)) l.

(** The invariants of the session state: at most one assignment per
    student; every assignment names the snapshot taken at provisioning; a
    started student's current question is an enabled one; every user's role
    is the one its name gives. *)
Record invariant (d : Db.t) : Prop := mkInvariant {
  inv_one_assignment :
    forall studentId, length (assignments_of studentId d) <= 1;
  inv_snapshot :
    forall a, In a (Db.vm_assignments d) -> Db.snapshot_name a = "clean_start";
  inv_current :
    forall studentId p,
      Db.progress d !! studentId = Some p -> Db.started p = true ->
      exists q, In q (Db.getQuestions true d) /\
                Db.current_qid p = Some (Db.q_id q);
  inv_roles :
    forall u, In u (Db.users d) -> Db.role u = App.role_of (Db.username u);
}.

(** A computation that leaves the database alone and only sends SSH
    commands; what it returns and sends does not depend on the state it
    starts from. *)
Definition ssh_calls {A : Type} (m : App.M A) : Prop :=
  exists r evs,
    ssh_only evs /\
    forall s, m s = (r, App.mkState (App.db s) (App.log s ++ evs)).

(** The units of work admitted to the queue during a request. *)
Definition queue_units (l : list App.Event) : list (list App.Call) :=
  omap (fun e => match e with
                 | App.Queued cs => Some cs
                 | App.Direct _ => None
                 end) l.

(** ** Further definitions from src/app.js *)

Module AppMore.
Import App.

(** The address [provision] records for a new VM: the guest agent's
    answer, else the configured template with [{vmid}] replaced, else
    [null]. *)
Definition resolved_ip (w : World) (newVmid : N) : option string :=
  let vmIp := Pve.getVMIP (getVMStatus w newVmid) in
  if negb (Js.truthy vmIp) then
    if Js.truthy (VM_IP_TEMPLATE (env w))
    then Some (Js.replace "{vmid}" (Js.show newVmid)
                 (Js.or_else (VM_IP_TEMPLATE (env w)) ""))
    else None
  else vmIp.

(** The calls of a provisioning unit that ran to its end. *)
Definition provisioning_calls (name : string) (newVmid : N) : list Call :=
  [ CloneVM name; StartVM newVmid; SetTimeout 10000; GetVMIP newVmid;
    CreateSnapshot newVmid "clean_start" ].

(** GET /api/student/vm-info: what the JSON body says. *)
Inductive VmInfo : Type :=
| NotAssigned (message : string)
| Assigned (vmid : N) (vm_name : string) (vm_ip : option string)
    (snapshot_name : string).

Definition vm_info_body (studentId : nat) : M VmInfo :=
  assignment ← read (Db.getVmAssignment studentId);
  match assignment with
  | None => mret (NotAssigned "尚未分配 VM，請先按「開始訓練」")
  | Some a =>
      mret (Assigned (Db.vmid a) (Db.vm_name a) (Db.vm_ip a)
              (Db.snapshot_name a))
  end.

(** The handler with its outer [try]/[catch]: [inl] is the 500 answer. *)
Definition student_vm_info (u : Db.User) (s : State)
    : (string + VmInfo) * State :=
  match vm_info_body (Db.user_id u) s with
  | (Return r, s') => (inr r, s')
  | (Throw e, s') => (inl e, s')
  end.

(** GET /api/student/questions: a row of the listing.  Of the columns
    copied into it, [difficulty] and [type] are not part of [Db.Question]
    and are left out here. *)
Record QuestionRow : Type := mkQuestionRow {
  row_id : nat;
  row_title : string;
  row_fault_id : option string;
  row_check_id : option string;
  row_status : Db.QuestionStatus;
}.

(** The listing of a student: [rows] and [current_qid]. *)
Definition student_questions (u : Db.User) (d : Db.t)
    : list QuestionRow * option nat :=
  let studentId := Db.user_id u in
  let progress := Db.getProgress studentId d in
  let questions := Db.getQuestions true d in
  (map (fun q =>
          mkQuestionRow (Db.q_id q) (Db.title q) (Db.fault_id q)
            (Db.check_id q)
            (Db.getQuestionStatus studentId (Some (Db.q_id q)) d))
     questions,
   Db.current_qid progress).

(** What a guarded read-only route answers: the refusal of a guard, or
    the handler's body. *)
Definition guarded_read {A : Type} (r : Db.Role) (sess : Session)
    (h : Db.User -> A) : Response + A :=
  match requireAuth sess with
  | Some resp => inl resp
  | None =>
      match requireRole r sess with
      | Some resp => inl resp
      | None =>
          match sess with
          | Some u => inr (h u)
          | None => inl (RespError 401 "未登入")
          end
      end
  end.

Definition get_student_questions (sess : Session) (d : Db.t)
    : Response + (list QuestionRow * option nat) :=
  guarded_read Db.student sess (fun u => student_questions u d).

(** GET /api/teacher/questions: the rows as they are stored. *)
Definition get_teacher_questions (sess : Session) (d : Db.t)
    : Response + list Db.Question :=
  guarded_read Db.teacher sess (fun _ => Db.getQuestions false d).

(** The status an attempt leaves. *)
Definition status_of_attempt (passed : bool) : Db.QuestionStatus :=
  if passed then Db.status_passed else Db.status_failed.

End AppMore.

(** ** Further sample worlds *)

Module SampleMore.

(** The hypervisor refuses the snapshot. *)
Definition snapshot_fails : App.World :=
  App.mkWorld Sample.env 1766000000000
    (fun _ => Return 101%N)
    (fun _ => Return tt)
    (fun _ => Return (Some Pve.sample_status))
    (fun _ _ => Throw "PVE API 錯誤: snapshot feature is not available")
    (fun _ _ => Return tt)
    (fun _ _ => Return (App.mkSshResult 0 "ok" "")).

(** No guest agent and no address template. *)
Definition no_address : App.World :=
  App.mkWorld Sample.env 1766000000000
    (fun _ => Return 101%N)
    (fun _ => Return tt)
    (fun _ => Return (Some (Pve.mkVmStatus None)))
    (fun _ _ => Return tt)
    (fun _ _ => Return tt)
    (fun _ _ => Return (App.mkSshResult 0 "ok" "")).

(** No guest agent, addresses by template. *)
Definition by_template : App.World :=
  App.mkWorld
    (App.mkEnv 22 None (Some "/home/app/.ssh/id_ed25519")
       (Some "192.168.1.{vmid}"))
    1766000000000
    (fun _ => Return 101%N)
    (fun _ => Return tt)
    (fun _ => Return (Some (Pve.mkVmStatus None)))
    (fun _ _ => Return tt)
    (fun _ _ => Return tt)
    (fun _ _ => Return (App.mkSshResult 0 "ok" "")).

(** The target cannot be reached. *)
Definition unreachable_target : App.World :=
  App.mkWorld Sample.env 1766000000000
    (fun _ => Return 101%N)
    (fun _ => Return tt)
    (fun _ => Return (Some Pve.sample_status))
    (fun _ _ => Return tt)
    (fun _ _ => Return tt)
    (fun _ _ => Throw "connect ETIMEDOUT").

(** An exercise authored with neither scripts nor paths. *)
Definition E0 : Db.Question :=
  Db.mkQuestion 7 "E0" (Some "f0") None None (Some "c0") None None true.

End SampleMore.

(** ** The requests of a student, and what they leave in the database *)

Inductive Request : Type :=
| Start
| Verify (qid : option nat)
| Next.

(** The database after the request [r] of the user [u], served on [d] with
    the outside world answering as [w]. *)
Definition serve (w : App.World) (u : Db.User) (r : Request) (d : Db.t)
    : Db.t :=
  App.db (match r with
          | Start => App.student_start w u (App.fresh d)
          | Verify qid => App.student_verify w u qid (App.fresh d)
          | Next => App.student_next w u (App.fresh d)
          end).2.

(** Requests served one after the other, each in its own world. *)
Definition serve_all (rs : list (App.World * Db.User * Request)) (d : Db.t)
    : Db.t :=
  foldl (fun d '(w, u, r) => serve w u r d) d rs.

(** What one request of the student [studentId] can do to the database. *)
Inductive student_change (studentId : nat) (d : Db.t) : Db.t -> Prop :=
| change_none :
    student_change studentId d d
| change_progress q a :
    In q (Db.getQuestions true d) ->
    Db.getVmAssignment studentId d = Some a ->
    student_change studentId d (Db.updateProgress studentId (Db.q_id q) true d)
| change_provisioned q vmid name ip :
    In q (Db.getQuestions true d) ->
    Db.getVmAssignment studentId d = None ->
    student_change studentId d
      (Db.updateProgress studentId (Db.q_id q) true
         (Db.createVmAssignment studentId vmid name ip "clean_start" d))
| change_attempt qid p out err o :
    student_change studentId d (Db.recordAttempt studentId qid p out err o d).

(** Every student who has started has a VM. *)
Definition started_assigned (d : Db.t) : Prop :=
  forall studentId,
    Db.started (Db.getProgress studentId d) = true ->
    exists a, Db.getVmAssignment studentId d = Some a.

(** ** src/pve.js: the client of the control plane *)

Module PveClient.

(** [PVE_CONFIG], as far as the functions below read it, after the
    defaults and [parseInt] have been applied. *)
Record Config : Type := mkConfig {
  username : string;
  password : string;
  tokenId : string;
  tokenSecret : string;
  realm : string;
  templateVmid : N;
  storage : string;
  node : string;
}.

(** [Boolean(PVE_CONFIG.tokenId && PVE_CONFIG.tokenSecret)] *)
Definition USE_PVE_TOKEN (c : Config) : bool :=
  Js.truthy (Some (tokenId c)) && Js.truthy (Some (tokenSecret c)).

(** What [getPVETicket] resolves with in password mode; a member the
    reply does not hold is [undefined]. *)
Record Ticket : Type := mkTicket {
  ticket : option string;
  CSRFPreventionToken : option string;
}.

(** A JSON object, by the members the functions read of it: those of the
    ticket, of a VM's status and of a task's status.  A member the object
    does not hold is [None]. *)
Record Obj : Type := mkObj {
  obj_ticket : option string;
  obj_CSRFPreventionToken : option string;
  obj_agent : option Pve.Agent;
  obj_status : option string;
  obj_exitstatus : option string;
}.

(** The [data] member of a reply: [null], a string (a task id, the next
    free id), an object, or another JSON value (a number, a boolean, an
    array), which has none of the members read here and is held by what
    [String(v)] makes of it and by its truthiness. *)
Inductive Data : Type :=
| DNull
| DString (s : string)
| DObject (o : Obj)
| DOther (shown : string) (truthy : bool).

(** [response.data], the body of a reply: [null], or a value with its
    [data] member, which may be missing (it is for a body that is not an
    object). *)
Inductive Body : Type :=
| JsonNull
| mkBody (member : option Data).

(** [body && body.data], as far as truthiness and members go: [null] has
    nothing to give. *)
Definition data (body : Body) : option Data :=
  match body with
  | JsonNull => None
  | mkBody member => member
  end.

(** What axios rejects with: [error.response?.data?.errors?.[0]?.message]
    and [error.message]. *)
Record AxiosError : Type := mkAxiosError {
  upstream : option string;
  message : string;
}.

Inductive Method : Type := GET | POST | DELETE.

(** The authentication a request carries. *)
Inductive Auth : Type :=
| NoAuth
| ApiToken (id secret : string)
| Cookie (t : Ticket).

(** The request bodies the functions send.  [newid] is [None] when the
    id is [NaN]. *)
Inductive Payload : Type :=
| NoData
| Credentials (username password realm : string)
| CloneData (newid : option Z) (name : string) (storage : string) (full : Z)
| SnapshotData (snapname description : string)
| EmptyObject.

Record HttpRequest : Type := mkHttpRequest {
  method : Method;
  path : string;
  auth : Auth;
  payload : Payload;
}.

(** What an operation does that can be seen from outside: a request sent
    with axios, or a timer set with [setTimeout]. *)
Inductive Event : Type :=
| Http (r : HttpRequest)
| Timer (ms : N).

(** The control plane and the clock.  [axios k r] is the answer to the
    request [r] sent as the [k]-th event; every request is answered.
    [took k] is how many milliseconds the [k]-th event takes: a request
    until its answer is there, a timer beyond its delay. *)
Record World : Type := mkWorld {
  axios : nat -> HttpRequest -> Outcome AxiosError Body;
  took : nat -> N;
}.

(** Computations that log events and may throw an [Error] with a
    message. *)
Definition M (A : Type) : Type := list Event -> Outcome string A * list Event.

#[global] Instance M_ret : MRet M := fun A a l => (Return a, l).

#[global] Instance M_bind : MBind M := fun A B f m l =>
  match m l with
  | (Return a, l') => f a l'
  | (Throw e, l') => (Throw e, l')
  end.

Definition throw {A : Type} (msg : string) : M A :=
  fun l => (Throw msg, l).

(** [try { m } catch (error) { h error.message }] *)
Definition try_catch {A : Type} (m : M A) (h : string -> M A) : M A :=
  fun l =>
    match m l with
    | (Return a, l') => (Return a, l')
    | (Throw e, l') => h e l'
    end.

(** [body.data], which throws a TypeError on [null]. *)
Definition read_data (body : Body) : M (option Data) :=
  match body with
  | JsonNull => throw "Cannot read properties of null (reading 'data')"
  | mkBody member => mret member
  end.

(** One request sent with axios. *)
Definition send (w : World) (r : HttpRequest) : M (Outcome AxiosError Body) :=
  fun l => (Return (axios w (length l) r), l ++ [Http r]).

(** [await new Promise(resolve => setTimeout(resolve, ms))] *)
Definition sleep (ms : N) : M unit :=
  fun l => (Return tt, l ++ [Timer ms]).

(** The milliseconds the events [l] take, the first of them being the
    [k]-th event. *)
Fixpoint elapsed (w : World) (k : nat) (l : list Event) : Z :=
  match l with
  | [] => 0
  | e :: l' =>
      (Z.of_N (took w k)
       + match e with
         | Timer ms => Z.of_N ms
         | Http _ => 0
         end
       + elapsed w (S k) l')%Z
  end.

(** [Date.now()], counted from the first event of the log. *)
Definition now (w : World) (l : list Event) : Z := elapsed w 0 l.

(** Truthiness of a [data] member. *)
Definition truthy_data (d : option Data) : bool :=
  match d with
  | None => false
  | Some DNull => false
  | Some (DString s) => Js.truthy (Some s)
  | Some (DObject _) => true
  | Some (DOther _ truthy) => truthy
  end.

(** [{ ticket: d.ticket, CSRFPreventionToken: d.CSRFPreventionToken }] *)
Definition ticket_of (d : option Data) : Ticket :=
  match d with
  | Some (DObject o) => mkTicket (obj_ticket o) (obj_CSRFPreventionToken o)
  | _ => mkTicket None None
  end.

(** Template-literal rendering of a [data] member. *)
Definition show_data (d : option Data) : string :=
  match d with
  | None => "undefined"
  | Some DNull => "null"
  | Some (DString s) => s
  | Some (DObject _) => "[object Object]"
  | Some (DOther shown _) => shown
  end.

Definition ticket_path : string := "/api2/json/access/ticket".

Definition ticket_request (c : Config) : HttpRequest :=
  mkHttpRequest POST ticket_path NoAuth
    (Credentials (username c) (password c) (realm c)).

Definition password_unset : string :=
  "PVE_PASSWORD 未設定，請提供帳號密碼或改用 PVE_TOKEN_ID/PVE_TOKEN_SECRET".

(** [getPVETicket]: [None] is the [null] of token mode.  The [throw] of
    the [try] block is caught by its own [catch]. *)
Definition getPVETicket (c : Config) (w : World) : M (option Ticket) :=
  if USE_PVE_TOKEN c then mret None
  else if negb (Js.truthy (Some (password c))) then throw password_unset
  else
    try_catch
      (response ← send w (ticket_request c);
       match response with
       | Throw error => throw (message error)
       | Return body =>
           if truthy_data (data body)
           then mret (Some (ticket_of (data body)))
           else throw "無法獲取 PVE Ticket"
       end)
      (fun msg => throw ("PVE 認證失敗: " +:+ msg)).

(** [error.response?.data?.errors?.[0]?.message || error.message] *)
Definition error_text (error : AxiosError) : string :=
  Js.or_else (upstream error) (message error).

(** [pveRequest(method, path, data, ticket)] *)
Definition pveRequest (c : Config) (w : World) (m : Method) (p : string)
    (d : Payload) (t : option Ticket) : M Body :=
  a ← (if USE_PVE_TOKEN c then mret (ApiToken (tokenId c) (tokenSecret c))
       else
         t' ← (match t with
               | Some _ => mret t
               | None => getPVETicket c w
               end);
         match t' with
         | Some tk => mret (Cookie tk)
         | None =>
             throw "Cannot read properties of null (reading 'ticket')"
         end);
  response ← send w (mkHttpRequest m p a d);
  match response with
  | Return body => mret body
  | Throw error => throw ("PVE API 錯誤: " +:+ error_text error)
  end.

(** The value of a decimal digit. *)
Definition digit (ch : ascii) : option Z :=
  let n := nat_of_ascii ch in
  if ((48 <=? n)%nat && (n <=? 57)%nat)%bool then Some (Z.of_nat (n - 48))
  else None.

(** The number the leading decimal digits of [s] denote, after the
    digits read so far; [None] when there is no digit at all. *)
Fixpoint digits (acc : option Z) (s : string) : option Z :=
  match s with
  | String ch s' =>
      match digit ch with
      | Some v => digits (Some (10 * default 0%Z acc + v)%Z) s'
      | None => acc
      end
  | EmptyString => acc
  end.

(** [parseInt(s, 10)]: leading white space, a sign, then the longest run
    of decimal digits; [None] is [NaN].  The value is the one the digits
    denote: that is the JavaScript number as long as it is a safe integer
    (below 2^53 in absolute value); see [within_parseInt]. *)
Definition parseInt (s : string) : option Z :=
  match Js.trimStart s with
  | String "-" r => Z.opp <$> digits None r
  | String "+" r => digits None r
  | r => digits None r
  end.

(** [parseInt(d, 10)] of a [data] member, which is rendered first:
    [undefined], [null] and objects parse to [NaN]. *)
Definition parseInt_data (d : option Data) : option Z :=
  parseInt (show_data d).

(** A [data] member on which [parseInt_data] gives the JavaScript number:
    one whose rendering takes at most fifteen bytes, so that whatever it
    parses to is a safe integer (see [parseInt_safe]). *)
Definition within_parseInt (d : option Data) : Prop :=
  String.length (show_data d) <= 15.

(** The integers that are JavaScript numbers and are rendered digit by
    digit. *)
Definition safe_integer (z : Z) : Prop := (Z.abs z < 2 ^ 53)%Z.

(** Template-literal rendering of a number that may be [NaN]. *)
Definition show_number (z : option Z) : string :=
  match z with
  | Some v => pretty v
  | None => "NaN"
  end.

Definition nextid_path : string := "/api2/json/cluster/nextid".

Definition getNextVMID (c : Config) (w : World) : M (option Z) :=
  t ← getPVETicket c w;
  body ← pveRequest c w GET nextid_path NoData t;
  d ← read_data body;
  mret (parseInt_data d).

Definition task_path (c : Config) (taskId : option Data) : string :=
  "/api2/json/nodes/" +:+ node c +:+ "/tasks/" +:+ show_data taskId
    +:+ "/status".

(** [status.data.status] and [status.data.exitstatus] of a reply that
    holds [data]; only an object can have these members. *)
Definition status_of (d : Data) : option string :=
  match d with
  | DObject o => obj_status o
  | _ => None
  end.

Definition exitstatus_of (d : Data) : option string :=
  match d with
  | DObject o => obj_exitstatus o
  | _ => None
  end.

(** The [while] loop of [waitForTask]; the loop test reads the clock.
    With no fuel left the loop ends as it does when the budget is spent:
    with the fuel [waitForTask] gives it, that is where it is (see
    [waitForTask_loop_fuel]).  With a token or a ticket at hand it is the
    loop of [Pve.waitForTask] (see [waitForTask_polls]). *)
Fixpoint waitForTask_loop (c : Config) (w : World) (taskId : option Data)
    (t : option Ticket) (timeout startTime : Z) (fuel : nat) : M bool :=
  fun l =>
    match fuel with
    | O => (Throw "任務超時", l)
    | S fuel' =>
        if (now w l - startTime <? timeout)%Z then
          (status ← pveRequest c w GET (task_path c taskId) NoData t;
           d ← read_data status;
           match d with
           | None =>
               throw "Cannot read properties of undefined (reading 'status')"
           | Some DNull =>
               throw "Cannot read properties of null (reading 'status')"
           | Some d =>
               if bool_decide (status_of d = Some "stopped") then
                 if bool_decide (exitstatus_of d = Some "OK") then mret true
                 else throw ("任務失敗: " +:+ Js.show_opt (exitstatus_of d))
               else
                 _ ← sleep 2000;
                 waitForTask_loop c w taskId t timeout startTime fuel'
           end) l
        else (Throw "任務超時", l)
    end.

(** [waitForTask(taskId, ticket)], with the default timeout. *)
Definition waitForTask (c : Config) (w : World) (taskId : option Data)
    (t : option Ticket) : M bool :=
  fun l =>
    waitForTask_loop c w taskId t Pve.default_timeout (now w l)
      (Pve.enough_fuel Pve.default_timeout) l.

(** The status request of [waitForTask], with the authentication it
    carries. *)
Definition status_request (c : Config) (taskId : option Data) (a : Auth)
    : HttpRequest :=
  mkHttpRequest GET (task_path c taskId) a NoData.

(** What [waitForTask] reads of the answer to a status request. *)
Definition reply_of (r : Outcome AxiosError Body) : Outcome string Pve.Reply :=
  match r with
  | Throw error => Throw (error_text error)
  | Return JsonNull => Return (Pve.NoStatus Pve.NullBody)
  | Return (mkBody None) => Return (Pve.NoStatus Pve.NoData)
  | Return (mkBody (Some DNull)) => Return (Pve.NoStatus Pve.NullData)
  | Return (mkBody (Some d)) =>
      Return (Pve.Status
                (Pve.mkTaskStatus (default "" (status_of d))
                   (exitstatus_of d)))
  end.

(** The control plane that a [waitForTask] call sees when its requests
    carry the authentication [a] and the log holds [n] events as it
    begins: status requests and timers alternate. *)
Definition plane (c : Config) (w : World) (taskId : option Data) (a : Auth)
    (n : nat) : Pve.ControlPlane :=
  Pve.mkControlPlane
    (fun k =>
       Pve.Answered
         (reply_of (axios w (n + 2 * k) (status_request c taskId a)))
         (took w (n + 2 * k)))
    (fun k => took w (n + 2 * k + 1)).

(** How a call of [Pve.waitForTask] ends, as the caller sees it. *)
Definition settled (r : Outcome Pve.PveError bool) : Outcome string bool :=
  match r with
  | Return b => Return b
  | Throw e => Throw (Pve.message e)
  end.

Definition qemu_path (c : Config) (vmid : string) (rest : string) : string :=
  "/api2/json/nodes/" +:+ node c +:+ "/qemu/" +:+ vmid +:+ rest.

(** [vmid || await getNextVMID()]: [undefined], [null] and [0] are
    falsy. *)
Definition id_given (vmid : option Z) : bool :=
  match vmid with
  | Some v => negb (v =? 0)%Z
  | None => false
  end.

Definition cloneVM (c : Config) (w : World) (vmid : option Z)
    (vmName : option string) : M (option Z * option Data) :=
  t ← getPVETicket c w;
  newVmid ← (if id_given vmid then mret vmid else getNextVMID c w);
  let cloneData :=
    CloneData newVmid
      (Js.or_else vmName ("student-vm-" +:+ show_number newVmid))
      (storage c) 0 in
  result ← pveRequest c w POST
             (qemu_path c (Js.show (templateVmid c)) "/clone") cloneData t;
  taskId ← read_data result;
  _ ← waitForTask c w taskId t;
  mret (newVmid, taskId).

Definition createSnapshot (c : Config) (w : World) (vmid : N)
    (snapshotName : string) : M (string * option Data) :=
  t ← getPVETicket c w;
  result ← pveRequest c w POST (qemu_path c (Js.show vmid) "/snapshot")
             (SnapshotData snapshotName "Clean start snapshot") t;
  taskId ← read_data result;
  _ ← waitForTask c w taskId t;
  mret (snapshotName, taskId).

Definition rollbackToSnapshot (c : Config) (w : World) (vmid : N)
    (snapshotName : string) : M (string * option Data) :=
  t ← getPVETicket c w;
  result ← pveRequest c w POST
             (qemu_path c (Js.show vmid)
                ("/snapshot/" +:+ snapshotName +:+ "/rollback"))
             EmptyObject t;
  taskId ← read_data result;
  _ ← waitForTask c w taskId t;
  mret (snapshotName, taskId).

Definition startVM (c : Config) (w : World) (vmid : N)
    : M (N * option Data) :=
  t ← getPVETicket c w;
  result ← pveRequest c w POST (qemu_path c (Js.show vmid) "/status/start")
             EmptyObject t;
  taskId ← read_data result;
  _ ← waitForTask c w taskId t;
  mret (vmid, taskId).

Definition stopVM (c : Config) (w : World) (vmid : N)
    : M (N * option Data) :=
  t ← getPVETicket c w;
  result ← pveRequest c w POST (qemu_path c (Js.show vmid) "/status/stop")
             EmptyObject t;
  taskId ← read_data result;
  _ ← waitForTask c w taskId t;
  mret (vmid, taskId).

(** [destroyVM]: the result is [{ vmid, deleted: true }]. *)
Definition destroyVM (c : Config) (w : World) (vmid : N) : M (N * bool) :=
  t ← getPVETicket c w;
  _ ← try_catch (_ ← stopVM c w vmid; mret tt) (fun _ => mret tt);
  _ ← pveRequest c w DELETE (qemu_path c (Js.show vmid) "") NoData t;
  mret (vmid, true).

Definition getVMStatus (c : Config) (w : World) (vmid : N)
    : M (option Data) :=
  t ← getPVETicket c w;
  body ← pveRequest c w GET (qemu_path c (Js.show vmid) "/status/current")
           NoData t;
  read_data body.

(** The status as [getVMIP] reads it: of [undefined] or [null] no member
    can be read; only an object can have an [agent] member. *)
Definition as_status (d : option Data) : option Pve.VmStatus :=
  match d with
  | None => None
  | Some DNull => None
  | Some (DString _) => Some (Pve.mkVmStatus None)
  | Some (DObject o) => Some (Pve.mkVmStatus (obj_agent o))
  | Some (DOther _ _) => Some (Pve.mkVmStatus None)
  end.

(** [getVMIP(vmid)]: [Pve.getVMIP] on what [getVMStatus] produced. *)
Definition getVMIP (c : Config) (w : World) (vmid : N) : M (option string) :=
  fun l =>
    match getVMStatus c w vmid l with
    | (Return d, l') => (Return (Pve.getVMIP (Return (as_status d))), l')
    | (Throw e, l') => (Return (Pve.getVMIP (Throw e)), l')
    end.

(** [checkPVEConnection]: [{ ok, message }]. *)
Definition checkPVEConnection (c : Config) (w : World) : M (bool * string) :=
  try_catch (_ ← getPVETicket c w; mret (true, "PVE 連線正常"))
    (fun msg => mret (false, msg)).

(** The functions the module exports, as operations one can ask for. *)
Inductive Operation : Type :=
| OpCloneVM (vmid : option Z) (vmName : option string)
| OpCreateSnapshot (vmid : N) (snapshotName : string)
| OpRollbackToSnapshot (vmid : N) (snapshotName : string)
| OpStartVM (vmid : N)
| OpStopVM (vmid : N)
| OpDestroyVM (vmid : N)
| OpGetVMStatus (vmid : N)
| OpGetVMIP (vmid : N)
| OpCheckPVEConnection
| OpGetNextVMID.

(** An operation run for its events and its error, the result dropped. *)
Definition perform (c : Config) (w : World) (op : Operation) : M unit :=
  match op with
  | OpCloneVM vmid vmName => _ ← cloneVM c w vmid vmName; mret tt
  | OpCreateSnapshot vmid n => _ ← createSnapshot c w vmid n; mret tt
  | OpRollbackToSnapshot vmid n => _ ← rollbackToSnapshot c w vmid n; mret tt
  | OpStartVM vmid => _ ← startVM c w vmid; mret tt
  | OpStopVM vmid => _ ← stopVM c w vmid; mret tt
  | OpDestroyVM vmid => _ ← destroyVM c w vmid; mret tt
  | OpGetVMStatus vmid => _ ← getVMStatus c w vmid; mret tt
  | OpGetVMIP vmid => _ ← getVMIP c w vmid; mret tt
  | OpCheckPVEConnection => _ ← checkPVEConnection c w; mret tt
  | OpGetNextVMID => _ ← getNextVMID c w; mret tt
  end.

(** In token mode: a timer, or a request that carries the API token and
    does not ask for a ticket. *)
Definition token_event (c : Config) (e : Event) : Prop :=
  match e with
  | Http r => auth r = ApiToken (tokenId c) (tokenSecret c) /\
              path r <> ticket_path
  | Timer _ => True
  end.



(** A computation that in token mode only adds token events. *)
Definition token_only {A : Type} (c : Config) (m : M A) : Prop :=
  forall l, Forall (token_event c) l -> Forall (token_event c) (m l).2.

(** A computation that only adds to the log. *)
Definition extends {A : Type} (m : M A) : Prop :=
  forall l, exists evs, (m l).2 = l ++ evs.

(** The two operations that catch what goes wrong and answer anyway. *)
Definition swallows (op : Operation) : bool :=
  match op with
  | OpGetVMIP _ | OpCheckPVEConnection => true
  | _ => false
  end.

End PveClient.

(** ** A sample control plane *)

Module SampleClient.
Import PveClient.

Definition with_token : Config :=
  mkConfig "root@pam" "" "trainer@pve!meow" "5f1c0c9e" "pam" 100
    "local-lvm" "pve".

Definition with_password : Config :=
  mkConfig "root@pam" "hunter2" "" "" "pam" 100 "local-lvm" "pve".

Definition without_credentials : Config :=
  mkConfig "root@pam" "" "" "" "pam" 100 "local-lvm" "pve".

Definition the_ticket : Obj :=
  mkObj (Some "PVE:root@pam:6543") (Some "6543:csrf") None None None.

Definition task_stopped_ok : Obj :=
  mkObj None None None (Some "stopped") (Some "OK").

(** Every request is answered at once: a ticket, the next id 101, a
    task found stopped with OK, or a task id. *)
Definition answers : World :=
  mkWorld
    (fun _ r =>
       if String.eqb (path r) ticket_path
       then Return (mkBody (Some (DObject the_ticket)))
       else if String.eqb (path r) nextid_path
       then Return (mkBody (Some (DString "101")))
       else if Js.includes "/tasks/" (path r)
       then Return (mkBody (Some (DObject task_stopped_ok)))
       else Return (mkBody (Some (DString "UPID:pve:0001:task"))))
    (fun _ => 0%N).

(** The ticket endpoint refuses; stopping a VM fails (it is stopped
    already); everything else is answered. *)
Definition refuses : World :=
  mkWorld
    (fun _ r =>
       if String.eqb (path r) ticket_path
       then Throw (mkAxiosError None "Request failed with status code 401")
       else if Js.includes "/status/stop" (path r)
       then Throw (mkAxiosError (Some "VM 105 not running")
                     "Request failed with status code 500")
       else Return (mkBody (Some (DString "UPID:pve:0002:task"))))
    (fun _ => 0%N).


End SampleClient.

(** ** src/rag.js: chunkText *)

Module Rag.

(** One turn of [for (const line of lines)]: the chunks pushed so far and
    [currentChunk].  [.length] counts UTF-16 code units. *)
Definition chunk_step (chunkSize : nat) (st : list string * string)
    (line : string) : list string * string :=
  let '(chunks, currentChunk) := st in
  if ((chunkSize <? Js.length (currentChunk +:+ line))%nat
      && (0 <? Js.length currentChunk)%nat)%bool
  then (chunks ++ [Js.trim currentChunk], line)
  else (chunks, currentChunk +:+ Js.nl +:+ line).

Definition default_chunkSize : nat := 500.

(** [chunkText(text, chunkSize)] *)
Definition chunkText (text : string) (chunkSize : nat) : list string :=
  let '(chunks, currentChunk) :=
    foldl (chunk_step chunkSize) ([], EmptyString) (Shell.lines text) in
  if (0 <? Js.length (Js.trim currentChunk))%nat
  then chunks ++ [Js.trim currentChunk]
  else chunks.

(** The lines put together the way the loop does when it never pushes:
    each one after a line feed. *)
Fixpoint gathered (ls : list string) : string :=
  match ls with
  | [] => EmptyString
  | l :: ls' => Js.nl +:+ l +:+ gathered ls'
  end.

(** The in-memory vector store: documents and their embeddings, pushed
    side by side. *)
Record Document (Meta : Type) : Type := mkDocument {
  content : string;
  metadata : Meta;
  timestamp : N;
}.
Arguments mkDocument {Meta} _ _ _.
Arguments content {Meta} _.
Arguments metadata {Meta} _.
Arguments timestamp {Meta} _.

Record VectorStore (E Meta : Type) : Type := mkVectorStore {
  documents : list (Document Meta);
  embeddings : list E;
}.
Arguments mkVectorStore {E Meta} _ _.
Arguments documents {E Meta} _.
Arguments embeddings {E Meta} _.

(** [createEmbedding] always resolves: with the vector of the API or,
    when that fails, with a random one.  Which vector, and the time of
    [new Date()], may differ from one push to the next. *)
Record Oracle (E : Type) : Type := mkOracle {
  createEmbedding : nat -> string -> E;
  Date_now : nat -> N;
}.
Arguments mkOracle {E} _ _.
Arguments createEmbedding {E} _ _ _.
Arguments Date_now {E} _ _.

(** One turn of [for (const chunk of chunks)]. *)
Definition push_chunk {E Meta : Type} (o : Oracle E) (meta : Meta)
    (vs : VectorStore E Meta) (chunk : string) : VectorStore E Meta :=
  let n := length (documents vs) in
  let embedding := createEmbedding o n chunk in
  mkVectorStore
    (documents vs ++ [mkDocument chunk meta (Date_now o n)])
    (embeddings vs ++ [embedding]).

(** [addToVectorStore(content, metadata)]: [{ chunksAdded, totalChunks }]
    and the store afterwards. *)
Definition addToVectorStore {E Meta : Type} (o : Oracle E) (text : string)
    (meta : Meta) (vs : VectorStore E Meta)
    : (nat * nat) * VectorStore E Meta :=
  let chunks := chunkText text default_chunkSize in
  let vs' := foldl (push_chunk o meta) vs chunks in
  ((length chunks, length (documents vs')), vs').

End Rag.

(** * Properties *)

Lemma bind_run {A B : Type} (m : App.M A) (f : A -> App.M B) (s : App.State) :
  (m ≫= f) s =
  match m s with
  | (Return a, s') => f a s'
  | (Throw e, s') => (Throw e, s')
  end.
Proof. reflexivity. Qed.

(** Symbolic execution of a monadic computation: unfold the primitives,
    reduce, and split on the outcome an oracle gives. *)
Ltac is_oracle o :=
  lazymatch o with
  | App.cloneVM _ _ => idtac
  | App.startVM _ _ => idtac
  | App.createSnapshot _ _ _ => idtac
  | App.rollbackToSnapshot _ _ _ => idtac
  | App.runSSH _ _ _ => idtac
  end.

Ltac mrun :=
  repeat first
    [ rewrite bind_run
    | progress unfold App.call, App.write, App.read, App.throw
    | progress cbn [App.db App.log fst snd]
    | match goal with
      | |- context [match ?o with Return _ => _ | Throw _ => _ end] =>
          is_oracle o; destruct o eqn:?
      end ].

(** ** getVMIP *)

Section GetVMIP.
Import Pve.

Lemma scan_addresses_none ips :
  scan_addresses ips = Return None -> omap non_loopback_ipv4 ips = [].
Proof.
  induction ips as [|ip rest IH]; simpl; [done|].
  unfold non_loopback_ipv4 at 1.
  case_bool_decide; [|exact IH].
  destruct (ip_address ip) as [a|]; [|done].
  destruct (Js.startsWith "127." a); simpl; [exact IH|done].
Qed.

Lemma scan_addresses_some ips a :
  scan_addresses ips = Return (Some a) ->
  first_non_loopback_ipv4 ips = Some a.
Proof.
  unfold first_non_loopback_ipv4.
  induction ips as [|ip rest IH]; simpl; [done|].
  unfold non_loopback_ipv4 at 1.
  case_bool_decide; [|exact IH].
  destruct (ip_address ip) as [b|]; [|done].
  destruct (Js.startsWith "127." b); simpl; [exact IH|].
  by intros [= ->].
Qed.

Lemma scan_addresses_well_formed ips :
  Forall well_formed ips ->
  scan_addresses ips = Return (first_non_loopback_ipv4 ips).
Proof.
  unfold first_non_loopback_ipv4.
  induction 1 as [|ip rest Hwf _ IH]; simpl; [done|].
  unfold non_loopback_ipv4 at 1.
  case_bool_decide as Hty; [|exact IH].
  destruct (Hwf Hty) as [b ->].
  destruct (Js.startsWith "127." b); simpl; [exact IH|done].
Qed.

Lemma first_non_loopback_ipv4_app ips rest :
  first_non_loopback_ipv4 (ips ++ rest) =
  match first_non_loopback_ipv4 ips with
  | Some a => Some a
  | None => first_non_loopback_ipv4 rest
  end.
Proof.
  unfold first_non_loopback_ipv4. rewrite omap_app.
  by destruct (omap non_loopback_ipv4 ips).
Qed.

Lemma scan_interfaces_some ifaces a :
  scan_interfaces ifaces = Return (Some a) ->
  first_non_loopback_ipv4 (entries ifaces) = Some a.
Proof.
  unfold entries.
  induction ifaces as [|i rest IH]; simpl; [done|].
  rewrite first_non_loopback_ipv4_app.
  destruct (ip_addresses i) as [ips|]; simpl; [|exact IH].
  destruct (0 <? length ips)%nat eqn:Hlen.
  - destruct (scan_addresses ips) as [[b|]|e] eqn:Hscan; [| |done].
    + intros [= ->]. by rewrite (scan_addresses_some _ _ Hscan).
    + intros H. unfold first_non_loopback_ipv4 at 1.
      rewrite (scan_addresses_none _ Hscan). simpl. by apply IH.
  - destruct ips; [exact IH|done].
Qed.

Lemma scan_interfaces_well_formed ifaces :
  Forall well_formed (entries ifaces) ->
  scan_interfaces ifaces = Return (first_non_loopback_ipv4 (entries ifaces)).
Proof.
  unfold entries.
  induction ifaces as [|i rest IH]; simpl; [done|].
  rewrite Forall_app. intros [Hi Hrest].
  rewrite first_non_loopback_ipv4_app.
  destruct (ip_addresses i) as [ips|]; simpl in *; [|by apply IH].
  destruct (0 <? length ips)%nat eqn:Hlen.
  - rewrite (scan_addresses_well_formed _ Hi).
    destruct (first_non_loopback_ipv4 ips); [done|by apply IH].
  - destruct ips; [by apply IH|done].
Qed.

Lemma reported_entries s ag ifaces :
  agent s = Some ag -> network_interfaces ag = Some ifaces ->
  reported s = entries ifaces.
Proof. unfold reported. by intros -> ->. Qed.

Lemma first_readable_cons ip rest :
  first_non_loopback_ipv4 (readable (ip :: rest)) =
  if bool_decide (ip_address_type ip = Some "ipv4") then
    match ip_address ip with
    | None => None
    | Some a =>
        if negb (Js.startsWith "127." a) then Some a
        else first_non_loopback_ipv4 (readable rest)
    end
  else first_non_loopback_ipv4 (readable rest).
Proof.
  cbn [readable]. unfold address_less, first_non_loopback_ipv4.
  case_bool_decide as Hty; cbn [andb].
  - destruct (ip_address ip) as [a|] eqn:Ha; [|done].
    simpl. unfold non_loopback_ipv4 at 1.
    rewrite bool_decide_eq_true_2, Ha by done.
    by destruct (Js.startsWith "127." a).
  - simpl. unfold non_loopback_ipv4 at 1.
    by rewrite bool_decide_eq_false_2.
Qed.

(** The scan of one interface, followed by whatever comes after it. *)
Lemma scan_addresses_readable ips rest :
  first_non_loopback_ipv4 (readable (ips ++ rest)) =
  match scan_addresses ips with
  | Return (Some a) => Some a
  | Return None => first_non_loopback_ipv4 (readable rest)
  | Throw _ => None
  end.
Proof.
  induction ips as [|ip ips IH]; [done|].
  cbn [app scan_addresses]. rewrite first_readable_cons.
  case_bool_decide; [|exact IH].
  destruct (ip_address ip) as [a|]; [|done].
  by destruct (Js.startsWith "127." a).
Qed.

Lemma scan_interfaces_readable ifaces :
  match scan_interfaces ifaces with
  | Return r => r
  | Throw _ => None
  end = first_non_loopback_ipv4 (readable (entries ifaces)).
Proof.
  unfold entries.
  induction ifaces as [|i rest IH]; [done|].
  cbn [scan_interfaces map concat].
  destruct (ip_addresses i) as [ips|]; cbn [default]; [|exact IH].
  destruct (0 <? length ips)%nat eqn:Hlen.
  - rewrite scan_addresses_readable. unfold id.
    destruct (scan_addresses ips) as [[b|]|e]; [done|exact IH|done].
  - destruct ips; [exact IH|done].
Qed.

(** C8, as the program has it.  [getVMIP] is a total function into
    "address or null", so it never throws.  When the status query fails,
    or answers without data, it returns null.  Otherwise it returns the
    first non-loopback IPv4 address among the entries it gets to read:
    those the guest agent reported before the first IPv4 entry that
    carries no address, or null if there is none among them.  So an
    address it returns is the first non-loopback IPv4 address reported;
    it returns null when none is reported; and when every IPv4 entry
    carries its address, it returns exactly the first non-loopback IPv4
    address reported. *)
Theorem getVMIP_first_non_loopback_ipv4
    (st : Outcome string (option VmStatus)) :
  (forall msg, st = Throw msg -> getVMIP st = None) /\
  (st = Return None -> getVMIP st = None) /\
  (forall s, st = Return (Some s) ->
     getVMIP st = first_non_loopback_ipv4 (readable (reported s)) /\
     (forall a, getVMIP st = Some a ->
                first_non_loopback_ipv4 (reported s) = Some a) /\
     (first_non_loopback_ipv4 (reported s) = None -> getVMIP st = None) /\
     (Forall well_formed (reported s) ->
      getVMIP st = first_non_loopback_ipv4 (reported s))).
Proof.
  split; [by intros msg ->|]. split; [by intros ->|].
  intros s ->.
  assert (Hsome : forall a, getVMIP (Return (Some s)) = Some a ->
                  first_non_loopback_ipv4 (reported s) = Some a).
  { intros a. unfold getVMIP, getVMIP_try.
    destruct (agent s) as [ag|] eqn:Hag; [|done].
    destruct (network_interfaces ag) as [ifaces|] eqn:Hif; [|done].
    rewrite (reported_entries _ _ _ Hag Hif).
    destruct (scan_interfaces ifaces) as [r|e] eqn:Hscan; [|done].
    intros ->. by apply scan_interfaces_some. }
  split; [|split; [exact Hsome|split]].
  - unfold getVMIP, getVMIP_try.
    destruct (agent s) as [ag|] eqn:Hag;
      [|by unfold reported; rewrite Hag].
    destruct (network_interfaces ag) as [ifaces|] eqn:Hif;
      [|by unfold reported; rewrite Hag, Hif].
    rewrite (reported_entries _ _ _ Hag Hif).
    apply scan_interfaces_readable.
  - intros Hnone.
    destruct (getVMIP (Return (Some s))) as [a|] eqn:Hget; [|done].
    specialize (Hsome a eq_refl). congruence.
  - unfold getVMIP, getVMIP_try.
    destruct (agent s) as [ag|] eqn:Hag;
      [|by unfold reported; rewrite Hag].
    destruct (network_interfaces ag) as [ifaces|] eqn:Hif;
      [|by unfold reported; rewrite Hag, Hif].
    rewrite (reported_entries _ _ _ Hag Hif). intros Hwf.
    by rewrite (scan_interfaces_well_formed _ Hwf).
Qed.

End GetVMIP.

Lemma getVMIP_first_non_loopback_ipv4_witness :
  Forall Pve.well_formed (Pve.reported Pve.sample_status) /\
  Pve.getVMIP (Return (Some Pve.sample_status)) = Some "10.0.0.5".
Proof.
  assert (Hwf : Forall Pve.well_formed (Pve.reported Pve.sample_status)).
  { repeat constructor; intros _; by eexists. }
  split; [exact Hwf|].
  destruct (getVMIP_first_non_loopback_ipv4 (Return (Some Pve.sample_status)))
    as (_ & _ & H).
  destruct (H Pve.sample_status eq_refl) as (_ & _ & _ & Hfirst).
  rewrite (Hfirst Hwf). reflexivity.
Defined.

(** C8 as stated does not hold: an address that was reported can be
    missed.  The agent reports an IPv4 entry without address and then
    10.0.0.9: the first non-loopback IPv4 address reported is 10.0.0.9,
    and [getVMIP] returns null. *)
Lemma getVMIP_misses_address_after_address_less_entry :
  Pve.first_non_loopback_ipv4 (Pve.reported Pve.address_less_first)
  = Some "10.0.0.9" /\
  Pve.getVMIP (Return (Some Pve.address_less_first)) = None.
Proof. split; reflexivity. Qed.

(** ** waitForTask *)

Section WaitForTask.
Import Pve.
Variable c : ControlPlane.
Variables startTime timeout : Z.

Local Abbreviation loop := (waitForTask_loop c startTime timeout).
Local Abbreviation at_test k := (test_time c startTime k).
Local Abbreviation turn_at k := (turn c startTime timeout k (at_test k)).

Lemma loop_more_fuel fuel n k now x :
  loop fuel k now = Some x -> loop (fuel + n) k now = Some x.
Proof.
  revert k now. induction fuel as [|fuel IH]; intros k now; [done|].
  change (S fuel + n) with (S (fuel + n)). cbn [waitForTask_loop].
  destruct (turn c startTime timeout k now); [done|apply IH|done].
Qed.

(** What a single turn at its own test time does, read off the oracle. *)
Lemma turn_sleeps k :
  turn_at k = Sleep (at_test (S k)) <->
  (at_test k - startTime < timeout)%Z /\
  exists st after,
    request c k = Answered (Return (Status st)) after /\
    status st <> "stopped".
Proof.
  unfold turn. cbn [test_time]. unfold took.
  destruct (Z.ltb_spec (at_test k - startTime) timeout) as [Hin|Hout].
  - destruct (request c k) as [[[st|u]|msg] after|] eqn:Hreq.
    + destruct (String.eqb_spec (status st) "stopped") as [Hst|Hst].
      * case_bool_decide; split; try done;
          intros [_ (st' & after' & [= <- _] & Hne)]; done.
      * split; [|done]. intros _. split; [done|]. by exists st, after.
    + split; [done|]. by intros [_ (st' & after' & [=] & _)].
    + split; [done|]. by intros [_ (st' & after' & [=] & _)].
    + split; [done|]. by intros [_ (st' & after' & [=] & _)].
  - split; [done|]. intros [Hin _]. lia.
Qed.

(** A turn that sleeps wakes up at the next test time. *)
Lemma turn_sleeps_until k next :
  turn_at k = Sleep next -> next = at_test (S k).
Proof.
  unfold turn. cbn [test_time]. unfold took.
  destruct (at_test k - startTime <? timeout)%Z; [|done].
  destruct (request c k) as [[[st|u]|msg] after|]; try done.
  destruct (String.eqb (status st) "stopped");
    [by case_bool_decide|]. by intros [= <-].
Qed.

Lemma still_running_iff k :
  still_running c startTime timeout k <->
  forall j, j < k -> turn_at j = Sleep (at_test (S j)).
Proof.
  unfold still_running.
  split; intros H j Hj; apply turn_sleeps; by apply H.
Qed.

Lemma loop_skip_running k fuel :
  still_running c startTime timeout k ->
  loop (k + fuel) 0 startTime = loop fuel k (at_test k).
Proof.
  rewrite still_running_iff. revert fuel.
  induction k as [|k IH]; intros fuel Hrun; [done|].
  replace (S k + fuel) with (k + S fuel) by lia.
  rewrite IH by (intros j Hj; apply Hrun; lia).
  cbn [waitForTask_loop]. by rewrite Hrun by lia.
Qed.

Lemma test_time_lower k :
  (startTime + poll_interval * Z.of_nat k <= at_test k)%Z.
Proof.
  unfold poll_interval.
  induction k as [|k IH]; [simpl; lia|].
  cbn [test_time]. unfold poll_interval. lia.
Qed.

Lemma budget_spent_by_bound :
  (timeout <= at_test (Z.to_nat (timeout / poll_interval) + 1) - startTime)%Z.
Proof.
  pose proof (test_time_lower (Z.to_nat (timeout / poll_interval) + 1)) as H.
  unfold poll_interval in *.
  destruct (Z.le_gt_cases 0 timeout) as [Hpos|Hneg].
  - pose proof (Z.div_pos timeout 2000 Hpos ltac:(lia)).
    pose proof (Z.mod_pos_bound timeout 2000 ltac:(lia)).
    pose proof (Z.div_mod timeout 2000 ltac:(lia)).
    rewrite Nat2Z.inj_add, Z2Nat.id in H by done. lia.
  - lia.
Qed.

(** Searching from the first turn, the first one that does not sleep. *)
Lemma first_stop n :
  still_running c startTime timeout n \/
  exists k, k < n /\ still_running c startTime timeout k /\
            turn_at k <> Sleep (at_test (S k)).
Proof.
  induction n as [|n [Hrun|(k & Hk & Hrun & Hset)]].
  - left. intros j Hj. lia.
  - destruct (turn_at n) as [r t1|next|] eqn:Hn.
    + right. exists n. split; [lia|]. split; [done|]. by rewrite Hn.
    + left. apply still_running_iff. intros j Hj.
      destruct (decide (j = n)) as [->|];
        [by rewrite Hn, (turn_sleeps_until n next Hn)|].
      apply (proj1 (still_running_iff n) Hrun). lia.
    + right. exists n. split; [lia|]. split; [done|]. by rewrite Hn.
  - right. exists k. split; [lia|done].
Qed.

Lemma stops_within_bound :
  exists k, k <= Z.to_nat (timeout / poll_interval) + 1 /\
            still_running c startTime timeout k /\
            ((exists r t1, turn_at k = Settle r t1) \/ turn_at k = Pend).
Proof.
  set (n := Z.to_nat (timeout / poll_interval) + 1).
  destruct (first_stop n) as [Hrun|(k & Hk & Hrun & Hset)].
  - exists n. split; [done|]. split; [done|]. left.
    unfold turn. pose proof budget_spent_by_bound as Hb. fold n in Hb.
    destruct (Z.ltb_spec (at_test n - startTime) timeout); [lia|].
    by eexists _, _.
  - exists k. split; [lia|]. split; [done|].
    destruct (turn_at k) as [r t1|next|] eqn:Hturn.
    + left. by exists r, t1.
    + by rewrite (turn_sleeps_until k next Hturn) in Hset.
    + by right.
Qed.

Lemma still_running_bound k :
  still_running c startTime timeout k ->
  k <= Z.to_nat (timeout / poll_interval) + 1.
Proof.
  intros Hrun. destruct k as [|k]; [lia|].
  destruct (Hrun k ltac:(lia)) as [Hin _].
  pose proof (test_time_lower k) as Hlow. unfold poll_interval in *.
  assert (0 <= timeout)%Z by lia.
  assert (Z.of_nat k <= timeout / 2000)%Z
    by (apply Z.div_le_lower_bound; lia).
  lia.
Qed.

(** The call's result is that of the first turn that settles. *)
Lemma waitForTask_at k r t1 :
  still_running c startTime timeout k ->
  turn_at k = Settle r t1 ->
  waitForTask c timeout (enough_fuel timeout) startTime = Some (r, t1).
Proof.
  intros Hrun Hx. pose proof (still_running_bound k Hrun) as Hk.
  unfold waitForTask, enough_fuel.
  replace (Z.to_nat (timeout / poll_interval) + 2)
    with (k + (1 + (Z.to_nat (timeout / poll_interval) + 1 - k))) by lia.
  rewrite loop_skip_running by done.
  apply loop_more_fuel. cbn [waitForTask_loop]. by rewrite Hx.
Qed.

(** A call that reaches a request that is never answered does not settle,
    however long one waits. *)
Lemma waitForTask_pending k fuel :
  still_running c startTime timeout k ->
  turn_at k = Pend ->
  waitForTask c timeout fuel startTime = None.
Proof.
  intros Hrun Hpend. unfold waitForTask.
  change startTime with (at_test 0) at 2.
  assert (forall j, j <= k -> loop fuel j (at_test j) = None) as H;
    [|apply H; lia].
  induction fuel as [|fuel IH]; intros j Hj; [done|].
  cbn [waitForTask_loop].
  destruct (decide (j = k)) as [->|Hne]; [by rewrite Hpend|].
  rewrite (proj1 (still_running_iff k) Hrun j) by lia.
  apply IH. lia.
Qed.

Lemma turn_settles k r t1 :
  turn_at k = Settle r t1 <-> settles_at c startTime timeout k r t1.
Proof.
  split.
  - unfold turn.
    destruct (Z.ltb_spec (at_test k - startTime) timeout) as [Hin|Hout].
    + destruct (request c k) as [[[st|u]|msg] after|] eqn:Hreq; [| | |done].
      * destruct (String.eqb_spec (status st) "stopped") as [Hst|Hst];
          [|done].
        case_bool_decide as Hexit; intros [= <- <-].
        -- by eapply settle_ok.
        -- by eapply settle_failed.
      * intros [= <- <-]. by eapply settle_no_data.
      * intros [= <- <-]. by eapply settle_api.
    + intros [= <- <-]. by apply settle_timeout.
  - intros Hs. unfold turn.
    destruct Hs as [st after Hin Hreq Hst Hexit|st after Hin Hreq Hst Hexit
                   |msg after Hin Hreq|u after Hin Hreq|Hout].
    + rewrite (proj2 (Z.ltb_lt _ _) Hin), Hreq, Hst. cbn.
      by rewrite bool_decide_eq_true_2.
    + rewrite (proj2 (Z.ltb_lt _ _) Hin), Hreq, Hst. cbn.
      by rewrite bool_decide_eq_false_2.
    + by rewrite (proj2 (Z.ltb_lt _ _) Hin), Hreq.
    + by rewrite (proj2 (Z.ltb_lt _ _) Hin), Hreq.
    + by rewrite (proj2 (Z.ltb_ge _ _) Hout).
Qed.

Lemma turn_pends k :
  turn_at k = Pend <-> pending_at c startTime timeout k.
Proof.
  unfold turn, pending_at.
  destruct (Z.ltb_spec (at_test k - startTime) timeout) as [Hin|Hout].
  - destruct (request c k) as [[[st|u]|msg] after|] eqn:Hreq.
    + destruct (String.eqb (status st) "stopped");
        [case_bool_decide|]; split; try done; by intros [_ [=]].
    + split; [done|]. by intros [_ [=]].
    + split; [done|]. by intros [_ [=]].
    + done.
  - split; [done|]. intros [Hin _]. lia.
Qed.

Lemma waitForTask_iff r t1 :
  waitForTask c timeout (enough_fuel timeout) startTime = Some (r, t1) <->
  exists k, still_running c startTime timeout k /\
            settles_at c startTime timeout k r t1.
Proof.
  split.
  - intros Hw.
    destruct stops_within_bound as (k & _ & Hrun & [(r' & t' & Hx)|Hpend]).
    + rewrite (waitForTask_at k r' t' Hrun Hx) in Hw. injection Hw as -> ->.
      exists k. split; [done|]. by apply turn_settles.
    + by rewrite (waitForTask_pending k _ Hrun Hpend) in Hw.
  - intros (k & Hrun & Hs). apply (waitForTask_at k); [done|].
    by apply turn_settles.
Qed.

Lemma waitForTask_pending_iff :
  waitForTask c timeout (enough_fuel timeout) startTime = None <->
  exists k, still_running c startTime timeout k /\
            pending_at c startTime timeout k.
Proof.
  split.
  - intros Hw.
    destruct stops_within_bound as (k & _ & Hrun & [(r' & t' & Hx)|Hpend]).
    + by rewrite (waitForTask_at k r' t' Hrun Hx) in Hw.
    + exists k. split; [done|]. by apply turn_pends.
  - intros (k & Hrun & Hpend). apply (waitForTask_pending k); [done|].
    by apply turn_pends.
Qed.

(** The time a settling turn ends at, when no status request takes
    longer than [L] milliseconds and no timer overruns by more than [G]. *)
Lemma settles_at_time k r t1 (L G : N) :
  (forall j, (took c j <= L)%N) ->
  (forall j, (overrun c j <= G)%N) ->
  still_running c startTime timeout k ->
  settles_at c startTime timeout k r t1 ->
  (t1 - startTime < Z.max 0 timeout + Z.of_N L + poll_interval + Z.of_N G)%Z.
Proof.
  intros HL HG Hrun Hs. pose proof (HL k) as HLk. unfold poll_interval.
  unfold took in HLk.
  destruct Hs as [st after Hin Hreq _ _|st after Hin Hreq _ _
                 |msg after Hin Hreq|u after Hin Hreq|Hout];
    try (rewrite Hreq in HLk; lia).
  destruct k as [|k]; [simpl; lia|].
  destruct (Hrun k ltac:(lia)) as [Hin _].
  pose proof (HL k). pose proof (HG k).
  cbn [test_time]. unfold poll_interval. lia.
Qed.

End WaitForTask.

(** C4, as the program has it.  Status requests are one request's latency
    plus a sleep of at least 2000 ms apart.  With fuel for
    [timeout / 2000 + 2] turns of the loop the outcome is final: more fuel
    changes nothing.  The call never settles if and only if a request,
    issued before the budget had elapsed and after requests that all found
    the task not stopped, is never answered.  It resolves true if and only
    if such a request is answered "stopped" with exit status "OK"; it
    fails with TaskFailed if and only if such a request is answered
    "stopped" with any other exit status; it fails with TaskTimeout if and
    only if a loop test, reached after such requests only, finds the
    budget spent.  A request that fails ends the call with its error, and
    an answer whose body is null, or whose data is missing or null, with
    the TypeError of reading it.  The budget is only looked at
    before a request: a call that settles does so less than
    [max 0 timeout + L + 2000 + G] ms after it began when no request takes
    more than [L] ms and no timer overruns by more than [G] ms, and not
    necessarily within [timeout]. *)
Theorem waitForTask_result (c : Pve.ControlPlane) (timeout startTime : Z) :
  let result := Pve.waitForTask c timeout (Pve.enough_fuel timeout) startTime in
  let reaches k :=
    Pve.still_running c startTime timeout k /\
    (Pve.test_time c startTime k - startTime < timeout)%Z in
  (forall k, Pve.test_time c startTime (S k) =
             (Pve.test_time c startTime k + Z.of_N (Pve.took c k) + 2000
              + Z.of_N (Pve.overrun c k))%Z) /\
  (forall n,
     Pve.waitForTask c timeout (Pve.enough_fuel timeout + n) startTime
     = result) /\
  ((forall fuel, Pve.waitForTask c timeout fuel startTime = None) <->
   exists k, reaches k /\ Pve.request c k = Pve.Unanswered) /\
  ((exists t1, result = Some (Return true, t1)) <->
   exists k st after,
     reaches k /\
     Pve.request c k = Pve.Answered (Return (Pve.Status st)) after /\
     Pve.status st = "stopped" /\ Pve.exitstatus st = Some "OK") /\
  (forall x, (exists t1, result = Some (Throw (Pve.TaskFailed x), t1)) <->
   exists k st after,
     reaches k /\
     Pve.request c k = Pve.Answered (Return (Pve.Status st)) after /\
     Pve.status st = "stopped" /\ Pve.exitstatus st = x /\ x <> Some "OK") /\
  ((exists t1, result = Some (Throw Pve.TaskTimeout, t1)) <->
   exists k,
     Pve.still_running c startTime timeout k /\
     (timeout <= Pve.test_time c startTime k - startTime)%Z) /\
  (forall msg, (exists t1, result = Some (Throw (Pve.ApiError msg), t1)) <->
   exists k after,
     reaches k /\ Pve.request c k = Pve.Answered (Throw msg) after) /\
  (forall msg, (exists t1, result = Some (Throw (Pve.TypeError msg), t1)) <->
   exists k u after,
     reaches k /\
     Pve.request c k = Pve.Answered (Return (Pve.NoStatus u)) after /\
     msg = Pve.unreadable_message u) /\
  (forall L G r t1,
     (forall k, (Pve.took c k <= L)%N) ->
     (forall k, (Pve.overrun c k <= G)%N) ->
     result = Some (r, t1) ->
     (t1 - startTime < Z.max 0 timeout + Z.of_N L + 2000 + Z.of_N G)%Z).
Proof.
  intros result reaches. subst result reaches. cbn beta.
  pose proof (waitForTask_iff c startTime timeout) as Hiff.
  split; [done|]. split; [|split; [|split; [|split; [|split; [|split;
    [|split]]]]]].
  - intros n.
    destruct (Pve.waitForTask c timeout (Pve.enough_fuel timeout) startTime)
      as [x|] eqn:Hw.
    + by apply loop_more_fuel.
    + apply waitForTask_pending_iff in Hw as (k & Hrun & Hpend).
      apply (waitForTask_pending c startTime timeout k); [done|].
      by apply turn_pends.
  - split.
    + intros Hnone.
      destruct (proj1 (waitForTask_pending_iff c startTime timeout)
                  (Hnone _)) as (k & Hrun & Hin & Hreq).
      by exists k.
    + intros (k & [Hrun Hin] & Hreq) fuel.
      apply (waitForTask_pending c startTime timeout k); [done|].
      by apply turn_pends.
  - split.
    + intros [t1 Hw]. apply Hiff in Hw as (k & Hrun & Hs).
      inversion Hs as [st after Hin Hreq Hst Hexit| | | |]; subst.
      by exists k, st, after.
    + intros (k & st & after & [Hrun Hin] & Hreq & Hst & Hexit).
      eexists. apply Hiff. exists k. split; [done|]. by eapply Pve.settle_ok.
  - intros x. split.
    + intros [t1 Hw]. apply Hiff in Hw as (k & Hrun & Hs).
      inversion Hs as [|st after Hin Hreq Hst Hexit| | |]; subst.
      by exists k, st, after.
    + intros (k & st & after & [Hrun Hin] & Hreq & Hst & <- & Hexit).
      eexists. apply Hiff. exists k. split; [done|].
      by eapply Pve.settle_failed.
  - split.
    + intros [t1 Hw]. apply Hiff in Hw as (k & Hrun & Hs).
      inversion Hs; subst. by exists k.
    + intros (k & Hrun & Hout).
      eexists. apply Hiff. exists k. split; [done|].
      by eapply Pve.settle_timeout.
  - intros msg. split.
    + intros [t1 Hw]. apply Hiff in Hw as (k & Hrun & Hs).
      inversion Hs as [| |msg' after Hin Hreq| |]; subst.
      by exists k, after.
    + intros (k & after & [Hrun Hin] & Hreq).
      eexists. apply Hiff. exists k. split; [done|].
      by eapply Pve.settle_api.
  - intros msg. split.
    + intros [t1 Hw]. apply Hiff in Hw as (k & Hrun & Hs).
      inversion Hs as [| | |u after Hin Hreq|]; subst.
      by exists k, u, after.
    + intros (k & u & after & [Hrun Hin] & Hreq & ->).
      eexists. apply Hiff. exists k. split; [done|].
      by eapply Pve.settle_no_data.
  - intros L G r t1 HL HG Hw. apply Hiff in Hw as (k & Hrun & Hs).
    by eapply settles_at_time.
Qed.

Lemma waitForTask_result_witness :
  (exists t1,
     Pve.waitForTask Pve.third_time_ok Pve.default_timeout
       (Pve.enough_fuel Pve.default_timeout) 0 = Some (Return true, t1)) /\
  (forall fuel,
     Pve.waitForTask Pve.second_unanswered Pve.default_timeout fuel 0 = None)
  /\
  (exists t1,
     Pve.waitForTask Pve.reply_without_data Pve.default_timeout
       (Pve.enough_fuel Pve.default_timeout) 0
     = Some (Throw (Pve.TypeError
                      "Cannot read properties of undefined (reading 'status')"),
             t1)).
Proof.
  split; [|split].
  - destruct (waitForTask_result Pve.third_time_ok Pve.default_timeout 0)
      as (_ & _ & _ & Hok & _).
    apply Hok. exists 2, (Pve.mkTaskStatus "stopped" (Some "OK")), 0%N.
    split; [|by vm_compute]. split; [|by vm_compute].
    intros j Hj. split.
    + destruct j as [|[|j]]; [by vm_compute..|lia].
    + exists (Pve.mkTaskStatus "running" None), 0%N.
      destruct j as [|[|j]]; [done..|lia].
  - destruct (waitForTask_result Pve.second_unanswered Pve.default_timeout 0)
      as (_ & _ & Hpending & _).
    apply Hpending. exists 1. split; [|done]. split; [|by vm_compute].
    intros j Hj. split.
    + destruct j as [|j]; [by vm_compute|lia].
    + exists (Pve.mkTaskStatus "running" None), 5%N.
      destruct j as [|j]; [done|lia].
  - destruct (waitForTask_result Pve.reply_without_data Pve.default_timeout 0)
      as (_ & _ & _ & _ & _ & _ & _ & Htype & _).
    apply Htype. exists 0, Pve.NoData, 5%N.
    split; [|done]. split; [|by vm_compute]. intros j Hj. lia.
Defined.

(** C4 as stated does not hold: the call can end after the budget.  With
    the default budget of 300 s and a task that never stops, 1 ms per
    status request, it fails with TaskTimeout at 300150 ms; and an answer
    "stopped"/"OK" that takes 400 s to arrive still resolves true. *)
Lemma waitForTask_ends_after_budget :
  (exists t1,
     Pve.waitForTask Pve.never_stops Pve.default_timeout
       (Pve.enough_fuel Pve.default_timeout) 0
     = Some (Throw Pve.TaskTimeout, t1) /\ (Pve.default_timeout < t1 - 0)%Z) /\
  (exists t1,
     Pve.waitForTask Pve.slow_answer Pve.default_timeout
       (Pve.enough_fuel Pve.default_timeout) 0
     = Some (Return true, t1) /\ (Pve.default_timeout < t1 - 0)%Z).
Proof.
  split.
  - exists 300150%Z. split; [by vm_compute|done].
  - exists 400000%Z. split; [by vm_compute|done].
Qed.

(** ** The request monad *)

Section Monad.
Import App.

Lemma state_eta (s : State) : mkState (db s) (log s ++ []) = s.
Proof. destruct s. simpl. by rewrite app_nil_r. Qed.

Lemma ssh_calls_ret {A : Type} (a : A) : ssh_calls (mret a : M A).
Proof.
  exists (Return a), []. split; [constructor|].
  intros s. by rewrite state_eta.
Qed.

Lemma ssh_calls_throw {A : Type} (msg : string) : ssh_calls (@throw A msg).
Proof.
  exists (Throw msg), []. split; [constructor|].
  intros s. by rewrite state_eta.
Qed.

Lemma ssh_calls_ssh (w : World) (c : Conn) (cmd : string) :
  ssh_calls (ssh w c cmd).
Proof.
  exists (runSSH w c cmd), [Direct (RunSSH c cmd)].
  split; [|done]. constructor; [by eexists _, _|constructor].
Qed.

Lemma ssh_calls_bind {A B : Type} (m : M A) (f : A -> M B) :
  ssh_calls m -> (forall a, ssh_calls (f a)) -> ssh_calls (m ≫= f).
Proof.
  intros (r & evs & Hssh & Hm) Hf. destruct r as [a|e].
  - destruct (Hf a) as (r' & evs' & Hssh' & Hfa).
    exists r', (evs ++ evs'). split; [by apply Forall_app|].
    intros s. rewrite bind_run, Hm, Hfa. simpl. by rewrite app_assoc.
  - exists (Throw e), evs. split; [done|].
    intros s. by rewrite bind_run, Hm.
Qed.

Lemma ssh_calls_try_catch {A : Type} (m : M A) (h : string -> M A) :
  ssh_calls m -> (forall e, ssh_calls (h e)) -> ssh_calls (try_catch m h).
Proof.
  intros (r & evs & Hssh & Hm) Hh. destruct r as [a|e].
  - exists (Return a), evs. split; [done|].
    intros s. unfold try_catch. by rewrite Hm.
  - destruct (Hh e) as (r' & evs' & Hssh' & Hhe).
    exists r', (evs ++ evs'). split; [by apply Forall_app|].
    intros s. unfold try_catch. rewrite Hm, Hhe. simpl. by rewrite app_assoc.
Qed.

Lemma executeScript_ssh_calls w conn scriptContent scriptPath scriptType :
  ssh_calls (executeScript w conn scriptContent scriptPath scriptType).
Proof.
  unfold executeScript. destruct conn as [c|]; [|apply ssh_calls_throw].
  apply ssh_calls_try_catch; [|intros; apply ssh_calls_throw].
  destruct (Js.truthy scriptContent).
  - repeat (apply ssh_calls_bind; [|intros ?]);
      try apply ssh_calls_ssh; try apply ssh_calls_ret.
    apply ssh_calls_try_catch; [|intros; apply ssh_calls_ret].
    apply ssh_calls_bind; [apply ssh_calls_ssh|intros; apply ssh_calls_ret].
  - destruct (Js.truthy scriptPath);
      [apply ssh_calls_ssh|apply ssh_calls_throw].
Qed.

(** Injection never throws: a failure ends up in the text it returns. *)
Lemma inject_run w conn q warning :
  exists out evs,
    ssh_only evs /\
    forall s, inject w conn q warning s
              = (Return out, mkState (db s) (log s ++ evs)).
Proof.
  unfold inject. destruct conn as [c|].
  - destruct (executeScript_ssh_calls w (Some c) (Db.fault_script q)
                (Db.fault_path q) "fault") as (r & evs & Hssh & Hrun).
    destruct r as [res|e].
    + exists (shown_output res), evs. split; [done|]. intros s.
      unfold try_catch. by rewrite bind_run, Hrun.
    + exists ("注入失敗: " +:+ e), evs. split; [done|]. intros s.
      unfold try_catch. by rewrite bind_run, Hrun.
  - exists warning, []. split; [constructor|]. intros s. by rewrite state_eta.
Qed.

End Monad.

(** ** What the handlers do to the database *)

Section Handlers.
Import App.

Lemma getStudentVmConn_run w sid s :
  getStudentVmConn w sid s = (Return (conn_for w sid (db s)), s).
Proof.
  unfold conn_for, getStudentVmConn, fresh. rewrite !bind_run.
  unfold read. cbn [db].
  destruct (Db.getVmAssignment sid (db s)) as [a|]; [|done].
  destruct (negb (Js.truthy (Db.vm_ip a))); [done|].
  destruct (negb (Js.truthy (VM_SSH_KEY_PATH (env w)))); done.
Qed.

Lemma conn_for_assignments w sid d d' :
  Db.vm_assignments d' = Db.vm_assignments d ->
  conn_for w sid d' = conn_for w sid d.
Proof.
  intros H. unfold conn_for, getStudentVmConn, fresh. rewrite !bind_run.
  unfold read, Db.getVmAssignment. cbn [db]. rewrite H.
  destruct (find _ _) as [a|]; [|done].
  destruct (negb (Js.truthy (Db.vm_ip a))); [done|].
  by destruct (negb (Js.truthy (VM_SSH_KEY_PATH (env w)))).
Qed.

Lemma provision_effect w sid name s r s' :
  provision w sid name s = (r, s') ->
  (exists e, r = Throw e /\ db s' = db s) \/
  (r = Return tt /\ exists v ip,
     db s' = Db.createVmAssignment sid v (vm_name_of name sid) ip
               "clean_start" (db s)).
Proof.
  unfold provision. mrun; intros [= <- <-]; cbn [db]; eauto 6.
Qed.

Lemma start_progress_effect w sid assignment s r s' :
  start_progress w sid assignment s = (r, s') ->
  db s' = db s \/
  exists first,
    head (Db.getQuestions true (db s)) = Some first /\
    db s' = Db.updateProgress sid (Db.q_id first) true (db s).
Proof.
  unfold start_progress. mrun.
  destruct (head (Db.getQuestions true (db s))) as [first|] eqn:Hfirst.
  - mrun. rewrite getStudentVmConn_run. mrun.
    destruct (inject_run w
                (conn_for w sid (Db.updateProgress sid (Db.q_id first) true (db s)))
                first
                "[警告] 無法連線到 VM，請檢查 VM_SSH_KEY_PATH 和 VM IP 配置")
      as (out & evs & _ & Hrun).
    rewrite Hrun. mrun. destruct assignment; intros [= <- <-]; eauto.
  - intros [= <- <-]. by left.
Qed.

Lemma head_In {A : Type} (l : list A) (x : A) : head l = Some x -> In x l.
Proof. destruct l; [done|]. intros [= ->]. by left. Qed.

Lemma handle_db (r : Outcome string Response) (s : State) :
  db (match r with
      | Return r0 => (r0, s)
      | Throw e => (RespError 500 e, s)
      end).2 = db s.
Proof. by destruct r. Qed.

Lemma student_start_steps w u d :
  rtc db_step d (db (student_start w u (fresh d)).2).
Proof.
  unfold student_start, handle, start_body, fresh. mrun.
  destruct (Db.getVmAssignment (Db.user_id u) d) as [a|] eqn:Hass.
  - destruct (start_progress w (Db.user_id u) (Some a) (mkState d []))
      as [r s'] eqn:Hsp.
    rewrite handle_db.
    apply start_progress_effect in Hsp as [Heq|(first & Hfirst & Heq)];
      cbn [db] in *; rewrite Heq.
    + apply rtc_refl.
    + apply rtc_once, step_progress. by apply head_In.
  - mrun.
    destruct (head (Db.getQuestions true d)) as [first|] eqn:Hfirst;
      [|apply rtc_refl].
    mrun. unfold pveQueue_add. cbn [db log].
    destruct (provision w (Db.user_id u) (Db.username u) (mkState d []))
      as [r1 s1] eqn:Hprov.
    apply provision_effect in Hprov
      as [(e & -> & Heq)|(-> & v & ip & Heq)]; cbn [db] in Heq.
    + cbn [fst snd db]. rewrite Heq. apply rtc_refl.
    + mrun.
      match goal with
      | |- context [start_progress ?w ?i ?a ?s] =>
          destruct (start_progress w i a s) as [r s'] eqn:Hsp
      end.
      rewrite handle_db.
      apply start_progress_effect in Hsp as [Heq'|(q & Hq & Heq')];
        cbn [db] in *; rewrite Heq', Heq.
      * by apply rtc_once, step_assignment.
      * eapply rtc_l; [apply step_assignment, Hass|].
        apply rtc_once, step_progress. rewrite Heq in Hq. by apply head_In.
Qed.

Lemma student_verify_steps w u qid d :
  rtc db_step d (db (student_verify w u qid (fresh d)).2).
Proof.
  unfold student_verify, handle, verify_body, fresh. mrun.
  destruct (Db.getQuestion qid d) as [q|]; [|apply rtc_refl].
  mrun. rewrite getStudentVmConn_run. mrun.
  destruct (conn_for w (Db.user_id u) d) as [c|].
  - destruct (executeScript_ssh_calls w (Some c) (Db.check_script q)
                (Db.check_path q) "check") as (r & evs & _ & Hrun).
    unfold try_catch. mrun. rewrite Hrun.
    destruct r as [res|e]; mrun; apply rtc_once, step_attempt.
  - mrun. apply rtc_once, step_attempt.
Qed.

Lemma at_index_In {A : Type} (l : list A) (i : Z) (x : A) :
  Js.at_index l i = Some x -> In x l.
Proof.
  unfold Js.at_index. destruct (i <? 0)%Z; [done|].
  intros H. apply list_elem_of_In. by eapply list_elem_of_lookup_2.
Qed.

Lemma next_question_In qs cur nxt :
  next_question qs cur = Some nxt -> In nxt qs.
Proof. apply at_index_In. Qed.

Lemma student_next_steps w u d :
  rtc db_step d (db (student_next w u (fresh d)).2).
Proof.
  unfold student_next, handle, next_body, fresh. mrun.
  destruct (negb (Db.started (Db.getProgress (Db.user_id u) d)));
    [apply rtc_refl|].
  mrun.
  destruct (next_question (Db.getQuestions true d)
              (Db.current_qid (Db.getProgress (Db.user_id u) d)))
    as [nxt|] eqn:Hnext; [|apply rtc_refl].
  mrun.
  destruct (negb (bool_decide (_ = Db.status_passed))); [apply rtc_refl|].
  mrun.
  destruct (Db.getVmAssignment (Db.user_id u) d) as [a|]; [|apply rtc_refl].
  mrun. unfold pveQueue_add. mrun; [|apply rtc_refl].
  rewrite getStudentVmConn_run. mrun.
  match goal with
  | |- context [inject ?w ?c ?q ?m] =>
      destruct (inject_run w c q m) as (out & evs & _ & Hrun)
  end.
  rewrite Hrun. mrun.
  apply rtc_once, step_progress. by eapply next_question_In.
Qed.

Lemma login_steps name sess d :
  rtc db_step d (db (post_auth_login name sess (fresh d)).2).
Proof.
  unfold post_auth_login, login_body, fresh.
  destruct (negb (Js.truthy name)); [apply rtc_refl|].
  cbn [db log]. unfold Db.getOrCreateUser.
  destruct (find _ (Db.users d)) as [u|]; [apply rtc_refl|].
  cbn [db snd]. by apply rtc_once, step_user.
Qed.

(** ** The invariants hold in every reachable database *)

Lemma find_none_filter {A : Type} (f : A -> bool) (l : list A) :
  List.find f l = None -> List.filter f l = [].
Proof.
  induction l as [|x l IH]; simpl; [done|].
  destruct (f x); [done|exact IH].
Qed.

Lemma db_step_invariant d d' : invariant d -> db_step d d' -> invariant d'.
Proof.
  intros [Hone Hsnap Hcur Hrole] Hstep.
  destruct Hstep as [d u Hu|d sid v nm ip Hnone|d sid q Hq|d sid qid p o e out
                    |d i q Hq].
  - split; try done. cbn. intros u' [Hin|[<-|[]]]%in_app_or; auto.
  - split; try done.
    + intros sid'. unfold assignments_of. cbn.
      rewrite List.filter_app, length_app. cbn.
      destruct (Nat.eqb_spec sid sid') as [<-|Hne]; cbn.
      * unfold Db.getVmAssignment in Hnone.
        by rewrite (find_none_filter _ _ Hnone).
      * specialize (Hone sid'). unfold assignments_of in Hone. lia.
    + cbn. intros a [Hin|[<-|[]]]%in_app_or; auto.
  - split; try done. cbn. intros sid' p.
    destruct (decide (sid = sid')) as [<-|Hne].
    + rewrite lookup_insert_eq. intros [= <-] _. by exists q.
    + rewrite lookup_insert_ne by done. apply Hcur.
  - by split.
  - split; try done. cbn. intros sid' p Hp Hst.
    destruct (Hcur sid' p Hp Hst) as (q0 & Hq0 & Hid).
    exists q0. split; [|done].
    apply filter_In in Hq0 as [Hin Hen]. apply filter_In. split; [|done].
    rewrite <- (take_drop i (Db.questions d)) in Hin.
    apply in_app_or in Hin as [Hin|Hin]; apply in_or_app; [by left|].
    right. by right.
Qed.

Lemma db_steps_invariant d d' : invariant d -> rtc db_step d d' -> invariant d'.
Proof. intros Hinv Hsteps. induction Hsteps; eauto using db_step_invariant. Qed.

Lemma initial_invariant qs : invariant (Db.initial qs).
Proof.
  split.
  - intros sid. cbn. lia.
  - intros a [].
  - intros sid p Hp. cbn in Hp. by rewrite lookup_empty in Hp.
  - intros u [].
Qed.

Lemma reachable_invariant d : reachable d -> invariant d.
Proof.
  induction 1 as [qs|d name sess _ IH|d w u _ IH|d w u qid _ IH|d w u _ IH
                 |d i q _ IH Hen _].
  - apply initial_invariant.
  - eapply db_steps_invariant; [exact IH|apply login_steps].
  - eapply db_steps_invariant; [exact IH|apply student_start_steps].
  - eapply db_steps_invariant; [exact IH|apply student_verify_steps].
  - eapply db_steps_invariant; [exact IH|apply student_next_steps].
  - eapply db_step_invariant; [exact IH|by apply step_question].
Qed.

End Handlers.

(** ** start() *)

Section Start.
Import App.

Lemma ssh_only_no_queue_units l : ssh_only l -> queue_units l = [].
Proof.
  unfold queue_units.
  induction 1 as [|e l (c & cmd & ->) _ IH]; [done|]. exact IH.
Qed.

Lemma queue_units_queued cs l :
  queue_units (App.Queued cs :: l) = cs :: queue_units l.
Proof. reflexivity. Qed.

Lemma outcome_calls_of_run {A : Type} (m : M A) r evs d :
  (forall s, m s = (r, mkState (db s) (log s ++ evs))) ->
  outcome_of m d = r /\ calls_made m d = evs.
Proof. intros H. unfold outcome_of, calls_made. by rewrite H. Qed.

(** From "更新進度" on, with a question list that is not empty. *)
Lemma start_progress_run w sid assignment d l first rest :
  Db.getQuestions true d = first :: rest ->
  let injection :=
    inject w (conn_for w sid d) first
      "[警告] 無法連線到 VM，請檢查 VM_SSH_KEY_PATH 和 VM IP 配置" in
  exists out,
    outcome_of injection d = Return out /\
    ssh_only (calls_made injection d) /\
    start_progress w sid assignment (mkState d l) =
      (match assignment with
       | Some a => Return (RespStart (Db.q_id first) (Db.fault_id first) out
                             (Db.vmid a) (Db.vm_ip a))
       | None => Throw "Cannot read properties of null (reading 'vmid')"
       end,
       mkState (Db.updateProgress sid (Db.q_id first) true d)
         (l ++ calls_made injection d)).
Proof.
  intros Hqs injection.
  destruct (inject_run w (conn_for w sid d) first
              "[警告] 無法連線到 VM，請檢查 VM_SSH_KEY_PATH 和 VM IP 配置")
    as (out & evs & Hssh & Hrun).
  destruct (outcome_calls_of_run _ _ _ d Hrun) as [Hout Hcalls].
  fold injection in Hout, Hcalls.
  exists out. rewrite Hout, Hcalls. split; [done|]. split; [done|].
  unfold start_progress. mrun. rewrite Hqs. cbn [head]. mrun.
  rewrite getStudentVmConn_run. mrun.
  rewrite (conn_for_assignments w sid d
             (Db.updateProgress sid (Db.q_id first) true d) eq_refl).
  rewrite Hrun. mrun. by destruct assignment.
Qed.

Lemma inject_calls w c q warning d :
  calls_made (inject w (Some c) q warning) d =
  calls_made (executeScript w (Some c) (Db.fault_script q) (Db.fault_path q)
                "fault") d.
Proof.
  destruct (executeScript_ssh_calls w (Some c) (Db.fault_script q)
              (Db.fault_path q) "fault") as (r & evs & _ & Hrun).
  unfold calls_made, inject, try_catch. rewrite bind_run, !Hrun.
  by destruct r.
Qed.

(** C1.  In every database that sequential requests can reach, one more
    start() leaves at most one VmAssignment per student; and when the
    student already has a VmAssignment, the call adds no row, hands no unit
    of work to the queue and makes no hypervisor call (its only calls are
    SSH commands). *)
Theorem start_twice_one_assignment d w u :
  reachable d ->
  let s' := (student_start w u (fresh d)).2 in
  (forall studentId, length (assignments_of studentId (db s')) <= 1) /\
  (is_Some (Db.getVmAssignment (Db.user_id u) d) ->
   Db.vm_assignments (db s') = Db.vm_assignments d /\
   queue_units (log s') = [] /\
   ssh_only (log s')).
Proof.
  intros Hreach s'. split.
  - apply reachable_invariant. by apply reach_start.
  - intros [a Hass]. subst s'.
    unfold student_start, handle, start_body, fresh. mrun. rewrite Hass.
    destruct (Db.getQuestions true d) as [|first rest] eqn:Hqs.
    + unfold start_progress. mrun. rewrite Hqs. cbn.
      split; [done|]. split; [done|constructor].
    + destruct (start_progress_run w (Db.user_id u) (Some a) d [] first rest Hqs)
        as (out & _ & Hssh & ->).
      cbn. split; [done|]. split; [|done].
      by apply ssh_only_no_queue_units.
Qed.

Lemma start_twice_one_assignment_witness :
  length (assignments_of 1
            (db (student_start Sample.world Sample.alice
                   (fresh Sample.started)).2)) <= 1 /\
  Db.vm_assignments
    (db (student_start Sample.world Sample.alice (fresh Sample.started)).2)
  = Db.vm_assignments Sample.started.
Proof.
  destruct (start_twice_one_assignment Sample.started Sample.world
              Sample.alice (reach_start _ _ _ (reach_initial _)))
    as [Hone Hsame].
  split; [apply Hone|].
  apply Hsame. vm_compute. by eexists.
Defined.

End Start.

(** ** next() *)

Section Next.
Import App.

Lemma findIndex_first {A : Type} (f : A -> bool) (pre : list A) (cur : A)
    (post : list A) :
  Forall (fun x => f x = false) pre -> f cur = true ->
  Js.findIndex f (pre ++ cur :: post) = Z.of_nat (length pre).
Proof.
  intros Hpre Hcur. induction Hpre as [|x pre Hx _ IH]; simpl.
  - by rewrite Hcur.
  - rewrite Hx, IH.
    destruct (Z.ltb_spec (Z.of_nat (length pre)) 0); lia.
Qed.

Lemma first_match_split {A : Type} (f : A -> bool) (l : list A) :
  (exists x, In x l /\ f x = true) ->
  exists pre cur post,
    l = pre ++ cur :: post /\ f cur = true /\
    Forall (fun x => f x = false) pre.
Proof.
  induction l as [|y l IH]; intros (x & Hin & Hx); [done|].
  destruct (f y) eqn:Hy.
  - by exists [], y, l.
  - destruct Hin as [->|Hin]; [congruence|].
    destruct IH as (pre & cur & post & -> & Hcur & Hpre); [by exists x|].
    exists (y :: pre), cur, post. split; [done|]. split; [done|].
    by constructor.
Qed.

Lemma at_index_after {A : Type} (pre : list A) (cur : A) (post : list A) :
  Js.at_index (pre ++ cur :: post) (Z.of_nat (length pre) + 1) = head post.
Proof.
  unfold Js.at_index.
  destruct (Z.ltb_spec (Z.of_nat (length pre) + 1) 0); [lia|].
  replace (Z.to_nat (Z.of_nat (length pre) + 1)) with (length pre + 1) by lia.
  rewrite lookup_app_r by lia.
  replace (length pre + 1 - length pre) with 1 by lia.
  by destruct post.
Qed.

(** The question [next()] moves to, when the current one is the first of
    the list to carry its id. *)
Lemma next_question_after pre cur post :
  Forall (fun q => Db.q_id q <> Db.q_id cur) pre ->
  next_question (pre ++ cur :: post) (Some (Db.q_id cur)) = head post.
Proof.
  intros Hpre. unfold next_question.
  rewrite findIndex_first; [apply at_index_after| |by apply bool_decide_eq_true_2].
  eapply Forall_impl; [exact Hpre|]. intros q Hq. cbn in Hq.
  apply bool_decide_eq_false_2. congruence.
Qed.

Lemma started_progress sid d :
  Db.started (Db.getProgress sid d) = true ->
  Db.progress d !! sid = Some (Db.getProgress sid d).
Proof.
  unfold Db.getProgress. by destruct (Db.progress d !! sid).
Qed.

(** The step-by-step course of next() once the guards have let it through. *)
Lemma next_body_run w sid d nxt a :
  Db.started (Db.getProgress sid d) = true ->
  next_question (Db.getQuestions true d)
    (Db.current_qid (Db.getProgress sid d)) = Some nxt ->
  Db.getQuestionStatus sid (Db.current_qid (Db.getProgress sid d)) d
    = Db.status_passed ->
  Db.getVmAssignment sid d = Some a ->
  let rollback := RollbackToSnapshot (Db.vmid a) (Db.snapshot_name a) in
  let injection := inject w (conn_for w sid d) nxt "[警告] 無法連線到 VM" in
  exists out,
    outcome_of injection d = Return out /\
    ssh_only (calls_made injection d) /\
    (rollbackToSnapshot w (Db.vmid a) (Db.snapshot_name a) = Return tt ->
     next_body w sid (fresh d) =
       (Return (RespNext (Db.q_id nxt) (Db.fault_id nxt) out),
        mkState (Db.updateProgress sid (Db.q_id nxt) true d)
          (Queued [rollback] :: calls_made injection d))) /\
    (forall e,
       rollbackToSnapshot w (Db.vmid a) (Db.snapshot_name a) = Throw e ->
       next_body w sid (fresh d) = (Throw e, mkState d [Queued [rollback]])).
Proof.
  intros Hst Hnext Hpass Hass rollback injection.
  destruct (inject_run w (conn_for w sid d) nxt "[警告] 無法連線到 VM")
    as (out & evs & Hssh & Hrun).
  destruct (outcome_calls_of_run _ _ _ d Hrun) as [Hout Hcalls].
  fold injection in Hout, Hcalls.
  exists out. rewrite Hout, Hcalls. split; [done|]. split; [done|].
  assert (Hguards :
    next_body w sid (fresh d) =
    (pveQueue_add
       (call rollback
          (rollbackToSnapshot w (Db.vmid a) (Db.snapshot_name a)))
     ≫= fun _ =>
        write (Db.updateProgress sid (Db.q_id nxt) true)
        ≫= fun _ =>
           getStudentVmConn w sid
           ≫= fun conn =>
              inject w conn nxt "[警告] 無法連線到 VM"
              ≫= fun injectOutput =>
                 mret (RespNext (Db.q_id nxt) (Db.fault_id nxt) injectOutput))
      (fresh d)).
  { unfold next_body, fresh. rewrite bind_run. unfold read at 1.
    cbn [db]. rewrite Hst. cbn [negb]. rewrite bind_run. unfold read at 1.
    cbn [db]. rewrite Hnext. rewrite bind_run. unfold read at 1.
    cbn [db]. rewrite Hpass, bool_decide_eq_true_2 by done. cbn [negb].
    rewrite bind_run. unfold read at 1. cbn [db]. by rewrite Hass. }
  rewrite Hguards. clear Hguards.
  unfold pveQueue_add, fresh. split.
  - intros Hrb. mrun; [|congruence].
    rewrite getStudentVmConn_run. mrun.
    rewrite (conn_for_assignments w sid d
               (Db.updateProgress sid (Db.q_id nxt) true d) eq_refl).
    by rewrite Hrun.
  - intros e Hrb. mrun; [congruence|]. cbn. congruence.
Qed.

Lemma next_not_started w u d :
  Db.started (Db.getProgress (Db.user_id u) d) = false ->
  student_next w u (fresh d) = (RespError 400 "尚未開始訓練", fresh d).
Proof.
  intros Hst. unfold student_next, handle, next_body, fresh.
  rewrite bind_run. unfold read. cbn [db]. by rewrite Hst.
Qed.

Lemma next_done w u d :
  Db.started (Db.getProgress (Db.user_id u) d) = true ->
  next_question (Db.getQuestions true d)
    (Db.current_qid (Db.getProgress (Db.user_id u) d)) = None ->
  student_next w u (fresh d) = (RespNextDone, fresh d).
Proof.
  intros Hst Hnext. unfold student_next, handle, next_body, fresh.
  rewrite bind_run. unfold read. cbn [db]. rewrite Hst. cbn [negb].
  rewrite bind_run. cbn [db]. by rewrite Hnext.
Qed.

Lemma next_not_passed w u d nxt :
  Db.started (Db.getProgress (Db.user_id u) d) = true ->
  next_question (Db.getQuestions true d)
    (Db.current_qid (Db.getProgress (Db.user_id u) d)) = Some nxt ->
  Db.getQuestionStatus (Db.user_id u)
    (Db.current_qid (Db.getProgress (Db.user_id u) d)) d
    <> Db.status_passed ->
  student_next w u (fresh d) =
    (RespError 400 "當前題目尚未通過驗證，無法進入下一題", fresh d).
Proof.
  intros Hst Hnext Hpass. unfold student_next, handle, next_body, fresh.
  rewrite bind_run. unfold read. cbn [db]. rewrite Hst. cbn [negb].
  rewrite bind_run. cbn [db]. rewrite Hnext.
  rewrite bind_run. cbn [db]. by rewrite bool_decide_eq_false_2.
Qed.

Lemma next_unassigned w u d nxt :
  Db.started (Db.getProgress (Db.user_id u) d) = true ->
  next_question (Db.getQuestions true d)
    (Db.current_qid (Db.getProgress (Db.user_id u) d)) = Some nxt ->
  Db.getQuestionStatus (Db.user_id u)
    (Db.current_qid (Db.getProgress (Db.user_id u) d)) d
    = Db.status_passed ->
  Db.getVmAssignment (Db.user_id u) d = None ->
  student_next w u (fresh d) = (RespError 500 "VM 未分配", fresh d).
Proof.
  intros Hst Hnext Hpass Hass. unfold student_next, handle, next_body, fresh.
  rewrite bind_run. unfold read. cbn [db]. rewrite Hst. cbn [negb].
  rewrite bind_run. cbn [db]. rewrite Hnext.
  rewrite bind_run. cbn [db]. rewrite Hpass, bool_decide_eq_true_2 by done.
  cbn [negb]. rewrite bind_run. cbn [db]. by rewrite Hass.
Qed.

Lemma find_some_In {A : Type} (f : A -> bool) (l : list A) (x : A) :
  List.find f l = Some x -> In x l.
Proof. intros H. by apply find_some in H as [H _]. Qed.

(** C3.  In every database that sequential requests can reach: when
    next() answers with a next exercise (neither an error nor "done"),
    exactly one unit of work was handed to the queue, and it is the
    rollback of the student's VM to "clean_start"; that rollback had
    succeeded; and Progress.current is now the exercise that comes right
    after the previous current one in the list of enabled exercises.  And
    whenever the rollback fails, next() leaves the database, Progress
    included, as it was. *)
Theorem next_rolls_back_then_advances d w u :
  reachable d ->
  let sid := Db.user_id u in
  (forall qid injected out s',
     student_next w u (fresh d) = (RespNext qid injected out, s') ->
     exists a pre cur nxt post,
       Db.getVmAssignment sid d = Some a /\
       Db.snapshot_name a = "clean_start" /\
       queue_units (log s')
         = [[RollbackToSnapshot (Db.vmid a) "clean_start"]] /\
       rollbackToSnapshot w (Db.vmid a) "clean_start" = Return tt /\
       Db.getQuestions true d = pre ++ cur :: nxt :: post /\
       Db.current_qid (Db.getProgress sid d) = Some (Db.q_id cur) /\
       Forall (fun q => Db.q_id q <> Db.q_id cur) pre /\
       qid = Db.q_id nxt /\
       Db.getProgress sid (db s') = Db.mkProgress (Some (Db.q_id nxt)) true) /\
  (forall a e,
     Db.getVmAssignment sid d = Some a ->
     rollbackToSnapshot w (Db.vmid a) (Db.snapshot_name a) = Throw e ->
     db (student_next w u (fresh d)).2 = d).
Proof.
  intros Hreach sid. subst sid.
  pose proof (reachable_invariant d Hreach) as [_ Hsnap Hcur _].
  set (p := Db.getProgress (Db.user_id u) d).
  destruct (Db.started p) eqn:Hst;
    [|rewrite (next_not_started w u d Hst); split; [done|by intros]].
  destruct (next_question (Db.getQuestions true d) (Db.current_qid p))
    as [nxt|] eqn:Hnext;
    [|rewrite (next_done w u d Hst Hnext); split; [done|by intros]].
  destruct (decide (Db.getQuestionStatus (Db.user_id u) (Db.current_qid p) d
                    = Db.status_passed)) as [Hpass|Hpass];
    [|rewrite (next_not_passed w u d nxt Hst Hnext Hpass);
      split; [done|by intros]].
  destruct (Db.getVmAssignment (Db.user_id u) d) as [a|] eqn:Hass;
    [|rewrite (next_unassigned w u d nxt Hst Hnext Hpass Hass);
      split; [done|by intros]].
  destruct (next_body_run w (Db.user_id u) d nxt a Hst Hnext Hpass Hass)
    as (out & Hout & Hssh & Hok & Hfail).
  pose proof (Hsnap a (find_some_In _ _ _ Hass)) as Hclean.
  unfold student_next, handle.
  destruct (rollbackToSnapshot w (Db.vmid a) (Db.snapshot_name a))
    as [[]|e] eqn:Hrb.
  - rewrite (Hok eq_refl). split; [|by intros a' e' [= <-]; congruence].
    intros qid injected out' s' [= <- <- <- <-].
    destruct (Hcur (Db.user_id u) p (started_progress _ _ Hst) Hst)
      as (q & Hq & Hid).
    destruct (first_match_split
                (fun q' => bool_decide (Some (Db.q_id q') = Db.current_qid p))
                (Db.getQuestions true d))
      as (pre & cur & post & Hqs & Hcurb & Hpre).
    { exists q. split; [done|]. by apply bool_decide_eq_true_2. }
    apply bool_decide_eq_true_1 in Hcurb.
    assert (Hpre' : Forall (fun q' => Db.q_id q' <> Db.q_id cur) pre).
    { eapply Forall_impl; [exact Hpre|]. intros q' Hq'. cbn in Hq'.
      apply bool_decide_eq_false_1 in Hq'. congruence. }
    rewrite Hqs, <- Hcurb, (next_question_after pre cur post Hpre') in Hnext.
    destruct post as [|nxt' post]; [done|]. injection Hnext as ->.
    exists a, pre, cur, nxt, post. rewrite <- Hclean.
    split; [done|]. split; [done|]. split.
    { cbn [log]. by rewrite queue_units_queued, (ssh_only_no_queue_units _ Hssh). }
    split; [done|]. split; [done|]. split; [done|]. split; [done|].
    split; [done|].
    unfold Db.getProgress, Db.updateProgress. cbn.
    by rewrite lookup_insert_eq.
  - rewrite (Hfail e eq_refl). split; [done|]. by intros.
Qed.

Lemma next_rolls_back_then_advances_witness :
  exists a nxt,
    Db.getVmAssignment 1 Sample.verified = Some a /\
    queue_units
      (log (student_next Sample.world Sample.alice (fresh Sample.verified)).2)
      = [[RollbackToSnapshot (Db.vmid a) "clean_start"]] /\
    Db.getProgress 1
      (db (student_next Sample.world Sample.alice (fresh Sample.verified)).2)
      = Db.mkProgress (Some (Db.q_id nxt)) true.
Proof.
  destruct (next_rolls_back_then_advances Sample.verified Sample.world
              Sample.alice
              (reach_verify _ _ _ _ (reach_start _ _ _ (reach_initial _))))
    as [Hnext _].
  destruct (Hnext 2 (Some "f2") "ok"
              (student_next Sample.world Sample.alice
                 (fresh Sample.verified)).2)
    as (a & pre & cur & nxt & post & Ha & _ & Hq & _ & _ & _ & _ & _ & Hp);
    [by vm_compute|].
  exists a, nxt. split; [exact Ha|]. split; [exact Hq|exact Hp].
Defined.

(** C2, as the program has it.  next() is rejected with an explicit error
    when the student has not started, and when an enabled exercise follows
    the current one and the latest Attempt for the current exercise is not
    passed; in both cases nothing is changed and nothing is called.  When
    no enabled exercise follows the current one, in particular when the
    current exercise is the last enabled one, next() answers "done"
    without looking at the attempts. *)
Theorem next_rejected_unless_passed w u d :
  let sid := Db.user_id u in
  let p := Db.getProgress sid d in
  (Db.started p = false ->
   student_next w u (fresh d) = (RespError 400 "尚未開始訓練", fresh d)) /\
  (forall nxt,
     Db.started p = true ->
     next_question (Db.getQuestions true d) (Db.current_qid p) = Some nxt ->
     Db.getQuestionStatus sid (Db.current_qid p) d <> Db.status_passed ->
     student_next w u (fresh d) =
       (RespError 400 "當前題目尚未通過驗證，無法進入下一題", fresh d)) /\
  (Db.started p = true ->
   next_question (Db.getQuestions true d) (Db.current_qid p) = None ->
   student_next w u (fresh d) = (RespNextDone, fresh d)) /\
  (forall pre cur,
     Db.started p = true ->
     Db.getQuestions true d = pre ++ [cur] ->
     Db.current_qid p = Some (Db.q_id cur) ->
     Forall (fun q => Db.q_id q <> Db.q_id cur) pre ->
     student_next w u (fresh d) = (RespNextDone, fresh d)).
Proof.
  intros sid p. subst sid p.
  split; [apply next_not_started|].
  split; [intros nxt; apply next_not_passed|].
  split; [apply next_done|].
  intros pre cur Hst Hqs Hcur Hpre. apply next_done; [done|].
  rewrite Hqs, Hcur. by rewrite next_question_after.
Qed.

Lemma next_rejected_unless_passed_witness :
  student_next Sample.world Sample.alice (fresh Sample.started) =
    (RespError 400 "當前題目尚未通過驗證，無法進入下一題", fresh Sample.started).
Proof.
  destruct (next_rejected_unless_passed Sample.world Sample.alice
              Sample.started) as (_ & Hrej & _).
  apply (Hrej Sample.E2); by vm_compute.
Defined.

(** C2 as stated does not hold.  With E1 the only enabled exercise, right
    after start() (no Attempt recorded yet, so the latest Attempt is not
    passed), next() is not rejected: it answers "done". *)
Lemma next_on_last_exercise_not_rejected :
  Db.getQuestions true Sample.started_single = [Sample.E1] /\
  Db.getProgress 1 Sample.started_single = Db.mkProgress (Some 1) true /\
  Db.getQuestionStatus 1 (Some 1) Sample.started_single = Db.status_untried /\
  student_next Sample.world Sample.alice (fresh Sample.started_single) =
    (RespNextDone, fresh Sample.started_single).
Proof. by vm_compute. Qed.

End Next.

(** ** verify() *)

Section Verify.
Import App.

Lemma ssh_calls_fresh {A : Type} (m : M A) (d d' : Db.t) :
  ssh_calls m ->
  outcome_of m d = outcome_of m d' /\ calls_made m d = calls_made m d'.
Proof.
  intros (r & evs & _ & Hrun). unfold outcome_of, calls_made.
  by rewrite !Hrun.
Qed.

Lemma ssh_calls_run {A : Type} (m : M A) (d : Db.t) (l : list Event) :
  ssh_calls m ->
  m (mkState d l) = (outcome_of m d, mkState d (l ++ calls_made m d)).
Proof.
  intros (r & evs & _ & Hrun). unfold outcome_of, calls_made.
  by rewrite !Hrun.
Qed.

(** The course of verify(), case by case. *)
Lemma student_verify_run w u qid d :
  student_verify w u qid (fresh d) =
  let sid := Db.user_id u in
  match Db.getQuestion qid d with
  | None => (RespError 404 "題目不存在", fresh d)
  | Some q =>
      match conn_for w sid d with
      | None =>
          (RespVerify false "[dry-run] 未設定 VM 連線，模擬 fail。",
           fresh (Db.recordAttempt sid qid false "" ""
                    "[dry-run] 未設定 VM 連線" d))
      | Some c =>
          match outcome_of (check_run w c q) d with
          | Return r =>
              (RespVerify (code r =? 0)%Z (shown_output r),
               mkState
                 (Db.recordAttempt sid qid (code r =? 0)%Z (stdout r)
                    (stderr r) (shown_output r) d)
                 (calls_made (check_run w c q) d))
          | Throw msg =>
              (RespError 500 ("驗證失敗: " +:+ msg),
               mkState (Db.recordAttempt sid qid false "" msg "" d)
                 (calls_made (check_run w c q) d))
          end
      end
  end.
Proof.
  unfold student_verify, handle, verify_body, fresh. mrun.
  destruct (Db.getQuestion qid d) as [q|]; [|done].
  mrun. rewrite getStudentVmConn_run. mrun.
  destruct (conn_for w (Db.user_id u) d) as [c|]; [|done].
  unfold try_catch. mrun. fold (check_run w c q).
  rewrite (ssh_calls_run (check_run w c q) d []
             (executeScript_ssh_calls _ _ _ _ _)).
  by destruct (outcome_of (check_run w c q) d).
Qed.

(** C5, as the program has it.  verify(exerciseId) never looks at
    Progress: its response, the commands it sends and the Attempt it
    records are the same whatever Progress holds, so an exerciseId other
    than Progress.current is not rejected.  The call is rejected (404,
    nothing sent, nothing recorded) exactly when no exercise has that id;
    for an existing exercise and a resolvable connection it runs that
    exercise's check script. *)
Theorem verify_ignores_progress w u qid d :
  let sid := Db.user_id u in
  (forall p,
     student_verify w u qid (fresh (Db.set_progress d p)) =
     ((student_verify w u qid (fresh d)).1,
      mkState (Db.set_progress (db (student_verify w u qid (fresh d)).2) p)
        (log (student_verify w u qid (fresh d)).2))) /\
  ((student_verify w u qid (fresh d)).1 = RespError 404 "題目不存在"
   <-> Db.getQuestion qid d = None) /\
  (Db.getQuestion qid d = None ->
   student_verify w u qid (fresh d) = (RespError 404 "題目不存在", fresh d)) /\
  (forall q c,
     Db.getQuestion qid d = Some q -> conn_for w sid d = Some c ->
     log (student_verify w u qid (fresh d)).2
     = calls_made (executeScript w (Some c) (Db.check_script q)
                     (Db.check_path q) "check") d).
Proof.
  intros sid. subst sid.
  split; [|split; [|split]].
  - intros p. rewrite !student_verify_run. cbn zeta.
    change (Db.getQuestion qid (Db.set_progress d p))
      with (Db.getQuestion qid d).
    rewrite (conn_for_assignments w (Db.user_id u) d (Db.set_progress d p)
               eq_refl).
    destruct (Db.getQuestion qid d) as [q|]; [|done].
    destruct (conn_for w (Db.user_id u) d) as [c|]; [|done].
    destruct (ssh_calls_fresh (check_run w c q) (Db.set_progress d p) d
                (executeScript_ssh_calls _ _ _ _ _)) as [-> ->].
    by destruct (outcome_of (check_run w c q) d).
  - rewrite student_verify_run. cbn zeta.
    destruct (Db.getQuestion qid d) as [q|]; [|by split].
    destruct (conn_for w (Db.user_id u) d) as [c|];
      [destruct (outcome_of (check_run w c q) d)|];
      cbn; split; intros ?; discriminate.
  - intros Hq. rewrite student_verify_run. cbn zeta. by rewrite Hq.
  - intros q c Hq Hc. rewrite student_verify_run. cbn zeta.
    rewrite Hq, Hc. fold (check_run w c q).
    by destruct (outcome_of (check_run w c q) d).
Qed.

Lemma verify_ignores_progress_witness :
  student_verify Sample.world Sample.alice (Some 3) (fresh Sample.started)
  = (RespError 404 "題目不存在", fresh Sample.started).
Proof.
  destruct (verify_ignores_progress Sample.world Sample.alice (Some 3)
              Sample.started) as (_ & _ & Hmissing & _).
  apply Hmissing. by vm_compute.
Defined.

(** C5 as stated does not hold.  After start() alice's current exercise is
    E1; verify(E2) is not rejected: E2's check script is written to the VM
    and run, and a passed Attempt for E2 is recorded. *)
Lemma verify_other_exercise_runs_check :
  Db.current_qid (Db.getProgress 1 Sample.started) = Some 1 /\
  exists s',
    student_verify Sample.world Sample.alice (Some 2) (fresh Sample.started)
    = (RespVerify true "ok", s') /\
    In (Direct (RunSSH Sample.conn "sudo /tmp/check_1766000000000.sh"))
      (log s') /\
    Db.attempts (db s') = [Db.mkAttempt 1 (Some 2) true "ok" "" "ok"].
Proof.
  split; [by vm_compute|].
  eexists. split; [by vm_compute|]. split; [|done].
  do 2 right. by left.
Qed.

(** C6, as the program has it.  Every verify(exerciseId) call on an
    existing exercise appends exactly one Attempt, for that student and
    that exercise id, and changes nothing else in the database, Progress
    included.  When the check script ran, passed is true exactly when its
    exit code is 0 and the Attempt carries the script's stdout, stderr and
    shown output.  When the Executor fails, passed is false, stdout and
    output are empty and stderr holds the error message.  When no
    connection can be resolved, passed is false, stdout and stderr are
    empty and output holds the fixed dry-run notice. *)
Theorem verify_records_one_attempt w u qid d q :
  Db.getQuestion qid d = Some q ->
  let sid := Db.user_id u in
  let d' := db (student_verify w u qid (fresh d)).2 in
  exists a,
    d' = Db.set_attempts d (Db.attempts d ++ [a]) /\
    Db.progress d' = Db.progress d /\
    Db.attempt_student a = sid /\ Db.attempt_question a = qid /\
    match conn_for w sid d with
    | None =>
        a = Db.mkAttempt sid qid false "" "" "[dry-run] 未設定 VM 連線"
    | Some c =>
        match outcome_of (executeScript w (Some c) (Db.check_script q)
                            (Db.check_path q) "check") d with
        | Return r =>
            (Db.passed a = true <-> code r = 0%Z) /\
            Db.stdout a = stdout r /\ Db.stderr a = stderr r /\
            Db.output a = shown_output r
        | Throw msg =>
            Db.passed a = false /\ Db.stdout a = "" /\
            Db.stderr a = msg /\ Db.output a = ""
        end
    end.
Proof.
  intros Hq sid d'. subst sid d'.
  rewrite student_verify_run. cbn zeta. rewrite Hq.
  destruct (conn_for w (Db.user_id u) d) as [c|].
  - fold (check_run w c q).
    destruct (outcome_of (check_run w c q) d) as [r|msg]; eexists;
      (split; [reflexivity|]); cbn; repeat split; try done.
    + by intros ?%Z.eqb_eq.
    + by intros ->.
  - eexists. split; [reflexivity|]. done.
Qed.

Lemma verify_records_one_attempt_witness :
  exists a,
    Db.attempts
      (db (student_verify Sample.world Sample.alice (Some 1)
             (fresh Sample.started)).2)
    = Db.attempts Sample.started ++ [a] /\
    Db.attempt_question a = Some 1.
Proof.
  destruct (verify_records_one_attempt Sample.world Sample.alice (Some 1)
              Sample.started Sample.E1)
    as (a & Hd & _ & _ & Hqid & _); [by vm_compute|].
  exists a. split; [|exact Hqid].
  by rewrite Hd.
Defined.

(** C6 as stated does not hold.  Before any VM is assigned no connection
    can be resolved; verify(E1) then records an Attempt whose output is
    not empty: it holds the dry-run notice. *)
Lemma verify_without_connection_output_not_empty :
  Db.getQuestion (Some 1) Sample.installed = Some Sample.E1 /\
  conn_for Sample.world 1 Sample.installed = None /\
  Db.attempts
    (db (student_verify Sample.world Sample.alice (Some 1)
           (fresh Sample.installed)).2)
  = [Db.mkAttempt 1 (Some 1) false "" "" "[dry-run] 未設定 VM 連線"] /\
  "[dry-run] 未設定 VM 連線" <> "".
Proof. by vm_compute. Qed.

End Verify.

(** ** Strings *)

Section Strings.

Lemma append_nil_l (b : string) : "" +:+ b = b.
Proof. reflexivity. Qed.

Lemma append_cons (x : ascii) (a b : string) :
  String x a +:+ b = String x (a +:+ b).
Proof. reflexivity. Qed.

Lemma append_assoc (a b c : string) : (a +:+ b) +:+ c = a +:+ b +:+ c.
Proof.
  induction a as [|x a IH]; [done|]. by rewrite !append_cons, IH.
Qed.

Lemma append_empty_r (a : string) : a +:+ "" = a.
Proof.
  induction a as [|x a IH]; [done|]. by rewrite append_cons, IH.
Qed.

Lemma length_append (a b : string) :
  String.length (a +:+ b) = String.length a + String.length b.
Proof.
  induction a as [|x a IH]; [done|]. rewrite append_cons. simpl.
  by rewrite IH.
Qed.

Lemma append_inj_r (a b c : string) : a +:+ c = b +:+ c -> a = b.
Proof.
  revert b. induction a as [|x a IH]; intros [|y b] H;
    rewrite ?append_cons, ?append_nil_l in H.
  - done.
  - apply (f_equal String.length) in H. simpl in H.
    rewrite length_append in H. lia.
  - apply (f_equal String.length) in H. simpl in H.
    rewrite length_append in H. lia.
  - injection H as -> H. by rewrite (IH b H).
Qed.

Lemma prefix_spec (p s : string) :
  String.prefix p s = true <-> exists post, s = p +:+ post.
Proof.
  revert s. induction p as [|a p IH]; intros s.
  - split; [intros _; by exists s|intros _; by destruct s].
  - destruct s as [|b s]; simpl.
    + split; [done|]. by intros (post & [=]).
    + destruct (ascii_dec a b) as [->|Hne].
      * rewrite IH. split; intros (post & Hp); exists post;
          rewrite append_cons in *; congruence.
      * split; [done|]. intros (post & Hp). rewrite append_cons in Hp.
        congruence.
Qed.

(** [includes] is the substring test. *)
Lemma includes_spec (p s : string) :
  Js.includes p s = true <-> exists pre post, s = pre +:+ p +:+ post.
Proof.
  induction s as [|c s IH].
  - change (Js.includes p "") with (String.prefix p "" || false).
    rewrite orb_false_r, prefix_spec. split.
    + intros (post & Hp). by exists "", post.
    + intros ([|x pre] & post & Hp); [by exists post|].
      by rewrite append_cons in Hp.
  - change (Js.includes p (String c s))
      with (String.prefix p (String c s) || Js.includes p s).
    rewrite orb_true_iff, IH, prefix_spec. split.
    + intros [(post & Hp)|(pre & post & ->)].
      * by exists "", post.
      * by exists (String c pre), post.
    + intros ([|x pre] & post & Hp).
      * left. by exists post.
      * right. exists pre, post. rewrite append_cons in Hp. congruence.
Qed.

End Strings.

(** ** login *)

Section Login.
Import App.

Lemma find_username_eq name us u :
  List.find (fun x => String.eqb (Db.username x) name) us = Some u ->
  In u us /\ Db.username u = name.
Proof.
  intros H. apply find_some in H as [Hin Heq].
  split; [done|]. by apply String.eqb_eq.
Qed.

(** C9.  In every database that sequential requests can reach, a login
    with a (non-empty) username answers with a session whose role is
    teacher if and only if the username contains "teacher", and student
    otherwise; a username that was not known is added to the users with
    that role; and a session obtained with a username that contains
    "teacher" passes both guards of the teacher-only routes. *)
Theorem login_role_from_username d name sess :
  reachable d -> name <> "" ->
  exists u,
    post_auth_login (Some name) sess (fresh d)
      = (RespLogin u, Some u,
         fresh (match List.find (fun x => String.eqb (Db.username x) name)
                        (Db.users d) with
                | Some _ => d
                | None => Db.set_users d (Db.users d ++ [u])
                end)) /\
    Db.username u = name /\
    (Db.role u = Db.teacher <->
     exists pre post, name = pre +:+ "teacher" +:+ post) /\
    (Db.role u = Db.student <->
     ~ exists pre post, name = pre +:+ "teacher" +:+ post) /\
    ((exists pre post, name = pre +:+ "teacher" +:+ post) ->
     requireAuth (Some u) = None /\ requireRole Db.teacher (Some u) = None).
Proof.
  intros Hreach Hname.
  pose proof (reachable_invariant d Hreach) as [_ _ _ Hroles].
  assert (Hrole : forall u, Db.username u = name ->
                  Db.role u = role_of name ->
    (Db.role u = Db.teacher <->
     exists pre post, name = pre +:+ "teacher" +:+ post) /\
    (Db.role u = Db.student <->
     ~ exists pre post, name = pre +:+ "teacher" +:+ post) /\
    ((exists pre post, name = pre +:+ "teacher" +:+ post) ->
     requireAuth (Some u) = None /\ requireRole Db.teacher (Some u) = None)).
  { intros u _ Hu. unfold role_of in Hu. rewrite <- includes_spec.
    unfold requireRole. rewrite Hu.
    destruct (Js.includes "teacher" name); cbn;
      (split; [|split]); try (intuition congruence). }
  unfold post_auth_login, login_body, fresh, Db.getOrCreateUser.
  destruct name as [|c name]; [done|]. cbn [Js.truthy negb Js.or_else db log].
  destruct (find _ (Db.users d)) as [u|] eqn:Hfind; cbn [db log].
  - apply find_username_eq in Hfind as [Hin Heq].
    exists u. destruct u as [i n r]. cbn in *. subst n.
    split; [done|]. split; [done|].
    apply (Hrole (Db.mkUser i (String c name) r)); [done|].
    by apply (Hroles _ Hin).
  - eexists. split; [reflexivity|]. split; [done|]. by apply Hrole.
Qed.

Lemma login_role_from_username_witness :
  exists u,
    post_auth_login (Some "teacher_bob") None (fresh (Db.initial []))
      = (RespLogin u, Some u, fresh (Db.set_users (Db.initial []) [u])) /\
    Db.role u = Db.teacher /\
    requireRole Db.teacher (Some u) = None.
Proof.
  destruct (login_role_from_username (Db.initial []) "teacher_bob" None
              (reach_initial []) ltac:(done))
    as (u & Hlogin & _ & Hteacher & _ & Hguards).
  exists u. split; [exact Hlogin|].
  assert (exists pre post, "teacher_bob" = pre +:+ "teacher" +:+ post)
    as Hsub by (by exists "", "_bob").
  split; [by apply Hteacher|by apply Hguards].
Defined.

End Login.

(** ** executeScript *)

Section ExecuteScript.
Import App.

Lemma lines_cons c s :
  Shell.lines (String c s) =
  if Ascii.eqb c Js.LF then "" :: Shell.lines s
  else match Shell.lines s with
       | l :: ls => String c l :: ls
       | [] => [String c ""]
       end.
Proof. reflexivity. Qed.

Lemma lines_nonempty s : Shell.lines s <> [].
Proof.
  destruct s as [|c s]; [done|]. rewrite lines_cons.
  destruct (Ascii.eqb c Js.LF); [done|]. by destruct (Shell.lines s).
Qed.

Lemma lines_append a b :
  Shell.lines (a +:+ Js.nl +:+ b) = Shell.lines a ++ Shell.lines b.
Proof.
  induction a as [|c a IH].
  - rewrite append_nil_l. unfold Js.nl. rewrite append_cons, append_nil_l.
    rewrite lines_cons. by rewrite Ascii.eqb_refl.
  - rewrite append_cons, !lines_cons, IH.
    destruct (Ascii.eqb c Js.LF); [done|].
    pose proof (lines_nonempty a). by destruct (Shell.lines a).
Qed.

Lemma no_LF_cons c s :
  Shell.no_LF (String c s) <-> c <> Js.LF /\ Shell.no_LF s.
Proof.
  unfold Shell.no_LF. simpl. split.
  - intros H. split; [intros ->; apply H; by left|].
    intros Hin. apply H. by right.
  - intros [Hc Hs] [Heq|Hin]; [by apply Hc|by apply Hs].
Qed.

Lemma no_LF_append a b :
  Shell.no_LF a -> Shell.no_LF b -> Shell.no_LF (a +:+ b).
Proof.
  intros Ha Hb. induction a as [|c a IH]; [done|].
  rewrite append_cons. apply no_LF_cons. apply no_LF_cons in Ha as [Hc Ha].
  split; [done|by apply IH].
Qed.

Lemma lines_no_LF s : Shell.no_LF s -> Shell.lines s = [s].
Proof.
  induction s as [|c s IH]; [done|].
  intros [Hc Hs]%no_LF_cons. rewrite lines_cons, (IH Hs).
  by rewrite (proj2 (Ascii.eqb_neq c Js.LF) Hc).
Qed.

Lemma unlines_lines s : Shell.unlines (Shell.lines s) = s +:+ Js.nl.
Proof.
  induction s as [|c s IH]; [done|].
  rewrite lines_cons, append_cons.
  destruct (Ascii.eqb_spec c Js.LF) as [->|Hc].
  - cbn [Shell.unlines]. by rewrite IH.
  - pose proof (lines_nonempty s).
    destruct (Shell.lines s) as [|l ls]; [done|].
    cbn [Shell.unlines] in *. by rewrite append_cons, IH.
Qed.

Lemma pretty_N_char_no_LF x : pretty_N_char x <> Js.LF.
Proof. unfold pretty_N_char. by repeat case_match. Qed.

Lemma pretty_N_go_no_LF x s :
  Shell.no_LF s -> Shell.no_LF (pretty_N_go x s).
Proof.
  revert s. induction (N.lt_wf_0 x) as [x _ IH]. intros s Hs.
  destruct (decide (x = 0%N)) as [->|Hx].
  - by rewrite pretty_N_go_0.
  - rewrite pretty_N_go_step by lia. apply IH.
    + apply N.div_lt; lia.
    + apply no_LF_cons. split; [apply pretty_N_char_no_LF|done].
Qed.

Lemma show_no_LF n : Shell.no_LF (Js.show n).
Proof.
  unfold Js.show, pretty, pretty_N. case_decide.
  - by intros [[=]|[]].
  - apply pretty_N_go_no_LF. by intros [].
Qed.

Lemma tempPath_no_LF scriptType now :
  Shell.no_LF scriptType -> Shell.no_LF (tempPath scriptType now).
Proof.
  intros Hty. unfold tempPath.
  repeat apply no_LF_append; try done; try apply show_no_LF;
    unfold Shell.no_LF; cbn; intros H; decompose [or] H; done.
Qed.

Lemma take_until_closing delimiter ls :
  ~ In delimiter ls ->
  Shell.take_until delimiter (ls ++ [delimiter]) = ls.
Proof.
  induction ls as [|l ls IH]; intros Hin; cbn.
  - by rewrite String.eqb_refl.
  - destruct (String.eqb_spec l delimiter) as [->|Hne].
    + exfalso. apply Hin. by left.
    + rewrite IH; [done|]. intros H. apply Hin. by right.
Qed.

(** The here-document of the write command carries the content line for
    line when no line of the content is the delimiter. *)
Lemma here_document_writeCmd path content :
  Shell.no_LF path ->
  ~ In "EOFSCRIPT" (Shell.lines content) ->
  Shell.here_document "EOFSCRIPT" (writeCmd path content)
  = (content +:+ Js.nl, []).
Proof.
  intros Hpath Hlines. unfold Shell.here_document, writeCmd.
  rewrite <- (append_assoc path), <- (append_assoc "cat > ").
  rewrite lines_append, lines_append.
  rewrite (lines_no_LF ("cat > " +:+ path +:+ " << 'EOFSCRIPT'")).
  2:{ repeat apply no_LF_append; try done;
        unfold Shell.no_LF; cbn; intros H; decompose [or] H; done. }
  rewrite (lines_no_LF "EOFSCRIPT").
  2:{ unfold Shell.no_LF; cbn; intros H; decompose [or] H; done. }
  cbn [app]. rewrite take_until_closing by done.
  rewrite unlines_lines. f_equal.
  apply skipn_all2. rewrite length_app. simpl. lia.
Qed.

Lemma tempPath_inj scriptType t1 t2 :
  tempPath scriptType t1 = tempPath scriptType t2 <-> t1 = t2.
Proof.
  split; [|by intros ->]. unfold tempPath, Js.show. intros H.
  do 3 apply String.app_inj in H. apply append_inj_r in H.
  by apply (inj pretty).
Qed.

(** C7, as the program has it.  Given inline content, [executeScript]
    sends four commands: the content in a here-document closed by the line
    EOFSCRIPT, redirected to /tmp/<type>_<Date.now()>.sh; chmod +x of that
    path; sudo of that path; rm -f of that path.  When the first three
    succeed, the result of the sudo command is returned whatever the rm
    command does (its failure is swallowed); when one of the first three
    fails, the call fails with the wrapped message and the later commands
    are not sent.  The path depends on the script type and the millisecond
    clock only: for one type, two paths are equal exactly when the clock
    readings are equal.  The here-document reproduces the content, line
    for line, provided no line of the content is EOFSCRIPT (the script
    type holding no line break). *)
Theorem executeScript_inline w c content scriptPath scriptType d :
  content <> "" ->
  let path := tempPath scriptType (Date_now w) in
  let write_cmd := RunSSH c (writeCmd path content) in
  let chmod_cmd := RunSSH c ("chmod +x " +:+ path) in
  let sudo_cmd := RunSSH c ("sudo " +:+ path) in
  let rm_cmd := RunSSH c ("rm -f " +:+ path) in
  let run := executeScript w (Some c) (Some content) scriptPath scriptType in
  (forall r1 r2 r,
     runSSH w c (writeCmd path content) = Return r1 ->
     runSSH w c ("chmod +x " +:+ path) = Return r2 ->
     runSSH w c ("sudo " +:+ path) = Return r ->
     run (fresh d) =
       (Return r,
        mkState d [Direct write_cmd; Direct chmod_cmd; Direct sudo_cmd;
                   Direct rm_cmd])) /\
  (forall e,
     runSSH w c (writeCmd path content) = Throw e ->
     run (fresh d) =
       (Throw ("腳本執行失敗: " +:+ e), mkState d [Direct write_cmd])) /\
  (forall r1 e,
     runSSH w c (writeCmd path content) = Return r1 ->
     runSSH w c ("chmod +x " +:+ path) = Throw e ->
     run (fresh d) =
       (Throw ("腳本執行失敗: " +:+ e),
        mkState d [Direct write_cmd; Direct chmod_cmd])) /\
  (forall r1 r2 e,
     runSSH w c (writeCmd path content) = Return r1 ->
     runSSH w c ("chmod +x " +:+ path) = Return r2 ->
     runSSH w c ("sudo " +:+ path) = Throw e ->
     run (fresh d) =
       (Throw ("腳本執行失敗: " +:+ e),
        mkState d [Direct write_cmd; Direct chmod_cmd; Direct sudo_cmd])) /\
  (forall t1 t2,
     tempPath scriptType t1 = tempPath scriptType t2 <-> t1 = t2) /\
  (Shell.no_LF scriptType ->
   ~ In "EOFSCRIPT" (Shell.lines content) ->
   Shell.here_document "EOFSCRIPT" (writeCmd path content)
   = (content +:+ Js.nl, [])).
Proof.
  intros Hcontent path write_cmd chmod_cmd sudo_cmd rm_cmd run.
  subst write_cmd chmod_cmd sudo_cmd rm_cmd run.
  assert (Htruthy : Js.truthy (Some content) = true)
    by (by destruct content).
  assert (Hor : Js.or_else (Some content) "" = content)
    by (by destruct content).
  unfold executeScript, fresh, try_catch, ssh. rewrite Htruthy, Hor.
  fold path.
  split; [|split; [|split; [|split; [|split]]]].
  - intros r1 r2 r H1 H2 H3. mrun; try congruence;
      cbn; congruence.
  - intros e H1. mrun; try congruence. cbn. congruence.
  - intros r1 e H1 H2. mrun; try congruence. cbn. congruence.
  - intros r1 r2 e H1 H2 H3. mrun; try congruence. cbn. congruence.
  - apply tempPath_inj.
  - intros Hty Hlines.
    apply here_document_writeCmd; [by apply tempPath_no_LF|done].
Qed.

Lemma executeScript_inline_witness :
  executeScript Sample.world (Some Sample.conn) (Some "systemctl stop nginx")
    None "fault" (fresh Sample.started)
  = (Return (mkSshResult 0 "ok" ""),
     mkState Sample.started
       [ Direct (RunSSH Sample.conn
                   (writeCmd (tempPath "fault" 1766000000000)
                      "systemctl stop nginx"));
         Direct (RunSSH Sample.conn
                   ("chmod +x " +:+ tempPath "fault" 1766000000000));
         Direct (RunSSH Sample.conn
                   ("sudo " +:+ tempPath "fault" 1766000000000));
         Direct (RunSSH Sample.conn
                   ("rm -f " +:+ tempPath "fault" 1766000000000)) ]) /\
  Shell.here_document "EOFSCRIPT"
    (writeCmd (tempPath "fault" 1766000000000) "systemctl stop nginx")
  = ("systemctl stop nginx" +:+ Js.nl, []).
Proof.
  destruct (executeScript_inline Sample.world Sample.conn
              "systemctl stop nginx" None "fault" Sample.started
              ltac:(done))
    as (Hrun & _ & _ & _ & _ & Hdoc).
  split.
  - by apply (Hrun (mkSshResult 0 "ok" "") (mkSshResult 0 "ok" "")).
  - apply Hdoc.
    + unfold Shell.no_LF. vm_compute. intros H. decompose [or] H; done.
    + vm_compute. intros H. decompose [or] H; done.
Defined.

(** C7 as stated does not hold.  Two different check scripts executed at
    the same millisecond are run from one and the same path; and a script
    one of whose lines is EOFSCRIPT is cut at that line, the lines after it
    being left to the shell as commands. *)
Lemma executeScript_collision_and_truncation :
  calls_made (executeScript Sample.world (Some Sample.conn) (Some "echo A")
                None "check") Sample.started !! 2
    = Some (Direct (RunSSH Sample.conn "sudo /tmp/check_1766000000000.sh")) /\
  calls_made (executeScript Sample.world (Some Sample.conn) (Some "echo B")
                None "check") Sample.started !! 2
    = Some (Direct (RunSSH Sample.conn "sudo /tmp/check_1766000000000.sh")) /\
  Shell.here_document "EOFSCRIPT"
    (writeCmd (tempPath "fault" 1766000000000) Sample.delimiter_script)
  = ("echo a" +:+ Js.nl, ["reboot"; "EOFSCRIPT"]).
Proof. by vm_compute. Qed.

End ExecuteScript.

(** ** start() by a student who has an assignment *)

Section StartAgain.
Import App.

(** The connection an assignment resolves to. *)
Lemma conn_for_assigned w sid d a :
  Db.getVmAssignment sid d = Some a ->
  conn_for w sid d =
  if Js.truthy (Db.vm_ip a) && Js.truthy (VM_SSH_KEY_PATH (env w))
  then Some (mkConn (Js.or_else (Db.vm_ip a) "") (VM_SSH_PORT (env w))
               (Js.or_else (VM_SSH_USER (env w)) "trainer")
               (Js.or_else (VM_SSH_KEY_PATH (env w)) ""))
  else None.
Proof.
  intros Hass. unfold conn_for, getStudentVmConn, fresh. rewrite bind_run.
  unfold read. cbn [db]. rewrite Hass.
  destruct (Js.truthy (Db.vm_ip a)); [|done].
  by destruct (Js.truthy (VM_SSH_KEY_PATH (env w))).
Qed.

Lemma inject_outcome w c q warning d :
  outcome_of (inject w (Some c) q warning) d =
  Return (match outcome_of (executeScript w (Some c) (Db.fault_script q)
                              (Db.fault_path q) "fault") d with
          | Return r => shown_output r
          | Throw e => "注入失敗: " +:+ e
          end).
Proof.
  destruct (executeScript_ssh_calls w (Some c) (Db.fault_script q)
              (Db.fault_path q) "fault") as (r & evs & _ & Hrun).
  unfold outcome_of, inject, try_catch. rewrite bind_run, !Hrun.
  by destruct r.
Qed.

(** The inline branch always begins with the command that writes the
    script. *)
Lemma executeScript_inline_first w c content scriptPath scriptType d :
  content <> "" ->
  exists more,
    calls_made (executeScript w (Some c) (Some content) scriptPath scriptType)
      d
    = Direct (RunSSH c (writeCmd (tempPath scriptType (Date_now w)) content))
      :: more.
Proof.
  intros Hcontent. destruct content as [|ch content]; [done|].
  unfold calls_made, executeScript, fresh, try_catch, ssh.
  cbn [Js.truthy Js.or_else].
  mrun; cbn [log app]; by eexists.
Qed.

(** The inline branch when writing, chmod and the run succeed. *)
Lemma executeScript_inline_run w c content scriptPath scriptType d r1 r2 r :
  content <> "" ->
  let path := tempPath scriptType (Date_now w) in
  runSSH w c (writeCmd path content) = Return r1 ->
  runSSH w c ("chmod +x " +:+ path) = Return r2 ->
  runSSH w c ("sudo " +:+ path) = Return r ->
  executeScript w (Some c) (Some content) scriptPath scriptType (fresh d) =
    (Return r,
     mkState d [Direct (RunSSH c (writeCmd path content));
                Direct (RunSSH c ("chmod +x " +:+ path));
                Direct (RunSSH c ("sudo " +:+ path));
                Direct (RunSSH c ("rm -f " +:+ path))]).
Proof.
  intros Hcontent path H1 H2 H3. destruct content as [|ch content]; [done|].
  unfold executeScript, fresh, try_catch, ssh.
  cbn [Js.truthy Js.or_else]. fold path.
  mrun; try congruence; cbn; congruence.
Qed.

(** The branch that runs the script by its path. *)
Lemma executeScript_path_run w c scriptContent p scriptType d :
  Js.truthy scriptContent = false -> p <> "" ->
  executeScript w (Some c) scriptContent (Some p) scriptType (fresh d)
  = (match runSSH w c ("sudo " +:+ p) with
     | Return r => Return r
     | Throw e => Throw ("腳本執行失敗: " +:+ e)
     end,
     mkState d [Direct (RunSSH c ("sudo " +:+ p))]).
Proof.
  intros Hcontent Hp.
  unfold executeScript, try_catch, ssh, fresh. rewrite Hcontent.
  destruct p as [|ch p]; [done|]. cbn [Js.truthy Js.or_else].
  unfold call. cbn [db log app].
  by destruct (runSSH w c ("sudo " +:+ String ch p)).
Qed.

(** Neither inline content nor a path. *)
Lemma executeScript_no_script w c scriptContent scriptPath scriptType d :
  Js.truthy scriptContent = false -> Js.truthy scriptPath = false ->
  executeScript w (Some c) scriptContent scriptPath scriptType (fresh d)
  = (Throw "腳本執行失敗: 沒有可執行的腳本內容或路徑", fresh d).
Proof.
  intros Hcontent Hpath.
  unfold executeScript, try_catch, fresh. by rewrite Hcontent, Hpath.
Qed.

(** C10, as the program has it.  When a student who already has a
    VmAssignment calls start() (the exercise list not being empty), the
    call runs no queue unit and makes no hypervisor call: all it sends
    are SSH commands.  Progress is set to the first enabled exercise with
    started = true, whatever it was before, and nothing else in the
    database changes.  Whether the fault is injected again depends on the
    connection.  When the assignment has no vm_ip, or no key path is
    configured, nothing is sent and inject_output is the warning.
    Otherwise the commands go to the assignment's address: for an inline
    fault script the first is the command that writes it and, when
    writing, chmod and the run succeed, the four commands write, chmod,
    sudo, rm are sent and inject_output is the shown output of the run;
    for a fault given by path only, the single command sudo <path> is
    sent; for a fault with neither, nothing is sent and inject_output
    reports the failure. *)
Theorem start_again_resets_progress w u d a first rest :
  Db.getVmAssignment (Db.user_id u) d = Some a ->
  Db.getQuestions true d = first :: rest ->
  let sid := Db.user_id u in
  let warning := "[警告] 無法連線到 VM，請檢查 VM_SSH_KEY_PATH 和 VM IP 配置" in
  exists out calls,
    student_start w u (fresh d) =
      (RespStart (Db.q_id first) (Db.fault_id first) out
         (Db.vmid a) (Db.vm_ip a),
       mkState (Db.updateProgress sid (Db.q_id first) true d) calls) /\
    Db.getProgress sid (Db.updateProgress sid (Db.q_id first) true d)
      = Db.mkProgress (Some (Db.q_id first)) true /\
    ssh_only calls /\
    queue_units calls = [] /\
    (Js.truthy (Db.vm_ip a) = false \/
     Js.truthy (VM_SSH_KEY_PATH (env w)) = false ->
     calls = [] /\ out = warning) /\
    (Js.truthy (Db.vm_ip a) = true ->
     Js.truthy (VM_SSH_KEY_PATH (env w)) = true ->
     let c := mkConn (Js.or_else (Db.vm_ip a) "") (VM_SSH_PORT (env w))
                (Js.or_else (VM_SSH_USER (env w)) "trainer")
                (Js.or_else (VM_SSH_KEY_PATH (env w)) "") in
     (forall script,
        Db.fault_script first = Some script -> script <> "" ->
        let path := tempPath "fault" (Date_now w) in
        (exists more,
           calls = Direct (RunSSH c (writeCmd path script)) :: more) /\
        (forall r1 r2 r,
           runSSH w c (writeCmd path script) = Return r1 ->
           runSSH w c ("chmod +x " +:+ path) = Return r2 ->
           runSSH w c ("sudo " +:+ path) = Return r ->
           calls = [Direct (RunSSH c (writeCmd path script));
                    Direct (RunSSH c ("chmod +x " +:+ path));
                    Direct (RunSSH c ("sudo " +:+ path));
                    Direct (RunSSH c ("rm -f " +:+ path))] /\
           out = shown_output r)) /\
     (forall p,
        Js.truthy (Db.fault_script first) = false ->
        Db.fault_path first = Some p -> p <> "" ->
        calls = [Direct (RunSSH c ("sudo " +:+ p))] /\
        out = match runSSH w c ("sudo " +:+ p) with
              | Return r => shown_output r
              | Throw e => "注入失敗: 腳本執行失敗: " +:+ e
              end) /\
     (Js.truthy (Db.fault_script first) = false ->
      Js.truthy (Db.fault_path first) = false ->
      calls = [] /\
      out = "注入失敗: 腳本執行失敗: 沒有可執行的腳本內容或路徑")).
Proof.
  intros Hass Hqs sid warning.
  destruct (start_progress_run w sid (Some a) d [] first rest Hqs)
    as (out & Hout & Hssh & Hrun).
  rewrite (conn_for_assigned w sid d a Hass) in Hout, Hssh, Hrun.
  fold warning in Hout, Hssh, Hrun.
  exists out. eexists.
  split.
  { unfold student_start, handle, start_body, fresh.
    rewrite bind_run. unfold read at 1. cbn [db].
    rewrite Hass. cbn [app] in Hrun. fold sid. by rewrite Hrun. }
  split.
  { unfold Db.getProgress, Db.updateProgress. cbn.
    by rewrite lookup_insert_eq. }
  split; [exact Hssh|]. split; [by apply ssh_only_no_queue_units|].
  split.
  - intros Hnone.
    assert (Js.truthy (Db.vm_ip a) && Js.truthy (VM_SSH_KEY_PATH (env w))
            = false) as Hc.
    { destruct Hnone as [-> | ->]; [done|apply andb_false_r]. }
    rewrite Hc in Hout |- *. split; [done|].
    unfold outcome_of, inject in Hout. cbn in Hout. congruence.
  - intros Hip Hkey c.
    assert (Js.truthy (Db.vm_ip a) && Js.truthy (VM_SSH_KEY_PATH (env w))
            = true) as Hc by (by rewrite Hip, Hkey).
    rewrite Hc in Hout |- *. fold c in Hout |- *. rewrite inject_calls.
    rewrite inject_outcome in Hout.
    assert (out = match outcome_of (executeScript w (Some c)
                                      (Db.fault_script first)
                                      (Db.fault_path first) "fault") d with
                  | Return r => shown_output r
                  | Throw e => "注入失敗: " +:+ e
                  end) as -> by congruence.
    clear Hout. split; [|split].
    + intros script Hscript Hne path. rewrite Hscript. split.
      * apply executeScript_inline_first, Hne.
      * intros r1 r2 r H1 H2 H3. unfold calls_made, outcome_of.
        by rewrite (executeScript_inline_run w c script _ "fault" d r1 r2 r
                      Hne H1 H2 H3).
    + intros p Hscript Hpath Hne. rewrite Hpath. unfold calls_made, outcome_of.
      rewrite (executeScript_path_run w c _ p "fault" d Hscript Hne).
      split; [done|]. by destruct (runSSH w c ("sudo " +:+ p)).
    + intros Hscript Hpath. unfold calls_made, outcome_of.
      by rewrite (executeScript_no_script w c _ _ "fault" d Hscript Hpath).
Qed.

Lemma start_again_resets_progress_witness :
  student_start Sample.world Sample.alice (fresh Sample.advanced) =
    (RespStart 1 (Some "f1") "ok" 101%N (Some "10.0.0.5"),
     mkState (Db.updateProgress 1 1 true Sample.advanced)
       [Direct (RunSSH Sample.conn "sudo /opt/faults/f1.sh")]).
Proof.
  destruct (start_again_resets_progress Sample.world Sample.alice
              Sample.advanced
              (Db.mkVmAssignment 1 101 "student-alice-1" (Some "10.0.0.5")
                 "clean_start")
              Sample.E1 [Sample.E2])
    as (out & calls & Hrun & _ & _ & _ & _ & Hconn); [by vm_compute..|].
  destruct (Hconn eq_refl eq_refl) as (_ & Hpath & _).
  destruct (Hpath "/opt/faults/f1.sh" eq_refl eq_refl ltac:(done))
    as [-> ->].
  exact Hrun.
Defined.

(** C10 as stated does not hold: the fault is not always injected again.
    Alice's VM was provisioned without a resolvable address (no guest
    agent, no address template), a database that requests reach.  Her
    next start() answers success and resets Progress, but sends nothing
    to the VM: inject_output is the warning. *)
Lemma start_again_without_address_sends_nothing :
  reachable Sample.started_without_address /\
  Db.getVmAssignment 1 Sample.started_without_address
  = Some (Db.mkVmAssignment 1 101 "student-alice-1" None "clean_start") /\
  student_start Sample.world Sample.alice
    (fresh Sample.started_without_address) =
    (RespStart 1 (Some "f1")
       "[警告] 無法連線到 VM，請檢查 VM_SSH_KEY_PATH 和 VM IP 配置"
       101%N None,
     mkState (Db.updateProgress 1 1 true Sample.started_without_address) []).
Proof.
  split; [apply reach_start, reach_initial|].
  split; by vm_compute.
Qed.

End StartAgain.

(** ** A session on the sample installation

    start() provisions and injects f1; verify(E1) passes; next() rolls back
    and injects f2; a second next() right away finds no exercise after E2
    and answers "done". *)

Section SampleSession.
Import App.

Lemma sample_session :
  student_start Sample.world Sample.alice (fresh Sample.installed)
  = (RespStart 1 (Some "f1") "ok" 101 (Some "10.0.0.5"),
     mkState Sample.started
       [ Queued [ CloneVM "student-alice-1"; StartVM 101; SetTimeout 10000;
                  GetVMIP 101; CreateSnapshot 101 "clean_start" ];
         Direct (RunSSH Sample.conn "sudo /opt/faults/f1.sh") ]) /\
  student_verify Sample.world Sample.alice (Some 1) (fresh Sample.started)
  = (RespVerify true "ok",
     mkState Sample.verified
       [ Direct (RunSSH Sample.conn "sudo /opt/checks/c1.sh") ]) /\
  (student_next Sample.world Sample.alice (fresh Sample.verified)).1
  = RespNext 2 (Some "f2") "ok" /\
  queue_units
    (log (student_next Sample.world Sample.alice (fresh Sample.verified)).2)
  = [[RollbackToSnapshot 101 "clean_start"]] /\
  Db.getProgress 1 Sample.advanced = Db.mkProgress (Some 2) true /\
  student_next Sample.world Sample.alice (fresh Sample.advanced)
  = (RespNextDone, fresh Sample.advanced).
Proof. by vm_compute. Qed.

End SampleSession.

(** * Further properties *)

(** ** start(): first provisioning *)

Section Provisioning.
Import App AppMore.

Lemma find_app_none {A : Type} (f : A -> bool) (l : list A) (x : A) :
  List.find f l = None ->
  List.find f (l ++ [x]) = if f x then Some x else None.
Proof.
  induction l as [|y l IH]; simpl; [done|].
  destruct (f y); [done|exact IH].
Qed.

Lemma getVmAssignment_created sid v name ip snap d :
  Db.getVmAssignment sid d = None ->
  Db.getVmAssignment sid (Db.createVmAssignment sid v name ip snap d)
  = Some (Db.mkVmAssignment sid v name ip snap).
Proof.
  intros Hnone. unfold Db.getVmAssignment in *. cbn.
  rewrite (find_app_none _ _ _ Hnone). cbn. by rewrite Nat.eqb_refl.
Qed.

(** The provisioning unit, outcome by outcome. *)
Lemma provision_run w sid name d :
  let vm := vm_name_of name sid in
  provision w sid name (mkState d []) =
  match cloneVM w vm with
  | Throw e => (Throw e, mkState d [Direct (CloneVM vm)])
  | Return v =>
      match startVM w v with
      | Throw e => (Throw e, mkState d [Direct (CloneVM vm); Direct (StartVM v)])
      | Return _ =>
          match createSnapshot w v "clean_start" with
          | Throw e =>
              (Throw e, mkState d (map Direct (provisioning_calls vm v)))
          | Return _ =>
              (Return tt,
               mkState (Db.createVmAssignment sid v vm (resolved_ip w v)
                          "clean_start" d)
                 (map Direct (provisioning_calls vm v)))
          end
      end
  end.
Proof.
  intros vm. subst vm. unfold provision.
  destruct (cloneVM w (vm_name_of name sid)) as [v|e] eqn:Hc.
  - destruct (startVM w v) as [[]|e] eqn:Hs.
    + destruct (createSnapshot w v "clean_start") as [[]|e] eqn:Hn;
        mrun; simplify_eq; reflexivity.
    + mrun; simplify_eq; reflexivity.
  - mrun; simplify_eq; reflexivity.
Qed.

Lemma calls_of_direct (cs : list Call) :
  concat (map calls_of (map Direct cs)) = cs.
Proof. induction cs as [|c cs IH]; [done|]. cbn. by rewrite IH. Qed.

(** start() for a student without assignment, up to the end of the queue
    unit. *)
Lemma start_body_first w sid name d first rest :
  Db.getVmAssignment sid d = None ->
  Db.getQuestions true d = first :: rest ->
  start_body w sid name (fresh d) =
  match provision w sid name (mkState d []) with
  | (Return _, s1) =>
      start_progress w sid (Db.getVmAssignment sid (db s1))
        (mkState (db s1) [Queued (concat (map calls_of (log s1)))])
  | (Throw e, s1) =>
      (Throw e, mkState (db s1) [Queued (concat (map calls_of (log s1)))])
  end.
Proof.
  intros Hass Hqs. unfold start_body, fresh.
  rewrite bind_run. unfold read at 1. cbn [db]. rewrite Hass.
  rewrite bind_run. unfold read at 1. cbn [db]. rewrite Hqs. cbn [head].
  rewrite bind_run. unfold pveQueue_add. cbn [db log].
  destruct (provision w sid name (mkState d [])) as [[[]|e] s1]; [|done].
  cbn [app]. by rewrite bind_run.
Qed.

(** The course of a first start() on which the hypervisor succeeds. *)
Lemma start_provisions_then_injects_aux w u d first rest v :
  let sid := Db.user_id u in
  let vm := vm_name_of (Db.username u) sid in
  Db.getVmAssignment sid d = None ->
  Db.getQuestions true d = first :: rest ->
  cloneVM w vm = Return v ->
  startVM w v = Return tt ->
  createSnapshot w v "clean_start" = Return tt ->
  let ip := resolved_ip w v in
  let d1 := Db.createVmAssignment sid v vm ip "clean_start" d in
  let injection :=
    inject w (conn_for w sid d1) first
      "[警告] 無法連線到 VM，請檢查 VM_SSH_KEY_PATH 和 VM IP 配置" in
  exists out,
    outcome_of injection d1 = Return out /\
    ssh_only (calls_made injection d1) /\
    student_start w u (fresh d) =
      (RespStart (Db.q_id first) (Db.fault_id first) out v ip,
       mkState (Db.updateProgress sid (Db.q_id first) true d1)
         (Queued (provisioning_calls vm v) :: calls_made injection d1)).
Proof.
  intros sid vm Hass Hqs Hclone Hstart Hsnap ip d1 injection.
  destruct (start_progress_run w sid
              (Some (Db.mkVmAssignment sid v vm ip "clean_start")) d1
              [Queued (provisioning_calls vm v)] first rest Hqs)
    as (out & Hout & Hssh & Hrun).
  exists out. split; [exact Hout|]. split; [exact Hssh|].
  unfold student_start, handle. fold sid.
  rewrite (start_body_first w sid (Db.username u) d first rest Hass Hqs).
  pose proof (provision_run w sid (Db.username u) d) as Hprov.
  cbn zeta in Hprov. fold vm in Hprov.
  rewrite Hclone, Hstart, Hsnap in Hprov. fold ip in Hprov. fold d1 in Hprov.
  rewrite Hprov. cbn [db log]. rewrite calls_of_direct.
  unfold d1 at 1. rewrite (getVmAssignment_created sid v vm ip _ d Hass).
  fold d1. by rewrite Hrun.
Qed.


(** X1.  The first start() of a student, when cloning, powering on and
    the snapshot succeed: one unit of work goes to the queue, made of
    clone, start, the 10 s delay, the IP lookup and the "clean_start"
    snapshot, in this order; the assignment row carries the new id, the
    name student-<username>-<id> and the resolved address; Progress is set
    to the first enabled exercise; and only then, after the snapshot, is
    the first fault injected: everything after the queue unit is an SSH
    command. *)
Theorem start_provisions_then_injects w u d first rest v :
  let sid := Db.user_id u in
  let vm := vm_name_of (Db.username u) sid in
  Db.getVmAssignment sid d = None ->
  Db.getQuestions true d = first :: rest ->
  cloneVM w vm = Return v ->
  startVM w v = Return tt ->
  createSnapshot w v "clean_start" = Return tt ->
  let ip := resolved_ip w v in
  let d1 := Db.createVmAssignment sid v vm ip "clean_start" d in
  let injection :=
    inject w (conn_for w sid d1) first
      "[警告] 無法連線到 VM，請檢查 VM_SSH_KEY_PATH 和 VM IP 配置" in
  exists out,
    outcome_of injection d1 = Return out /\
    ssh_only (calls_made injection d1) /\
    student_start w u (fresh d) =
      (RespStart (Db.q_id first) (Db.fault_id first) out v ip,
       mkState (Db.updateProgress sid (Db.q_id first) true d1)
         (Queued (provisioning_calls vm v) :: calls_made injection d1)).
Proof. apply start_provisions_then_injects_aux. Qed.

Lemma start_provisions_then_injects_witness :
  student_start Sample.world Sample.alice (fresh Sample.installed)
  = (RespStart 1 (Some "f1") "ok" 101 (Some "10.0.0.5"),
     mkState Sample.started
       [ Queued (provisioning_calls "student-alice-1" 101);
         Direct (RunSSH Sample.conn "sudo /opt/faults/f1.sh") ]).
Proof.
  destruct (start_provisions_then_injects Sample.world Sample.alice
              Sample.installed Sample.E1 [Sample.E2] 101)
    as (out & Hout & _ & Hrun); [by vm_compute..|].
  rewrite Hrun. vm_compute in Hout. injection Hout as <-.
  by vm_compute.
Defined.

(** X2.  A first start() on which the hypervisor fails: whichever of
    clone, power-on or snapshot throws, the answer is the 500 error with
    the upstream message, the database is left exactly as it was (no
    assignment row, Progress untouched) and no SSH command is sent, even
    though a clone that had succeeded is not undone. *)
Theorem start_provisioning_failure w u d first rest :
  let sid := Db.user_id u in
  let vm := vm_name_of (Db.username u) sid in
  Db.getVmAssignment sid d = None ->
  Db.getQuestions true d = first :: rest ->
  (forall e, cloneVM w vm = Throw e ->
     student_start w u (fresh d)
     = (RespError 500 e, mkState d [Queued [CloneVM vm]])) /\
  (forall v e, cloneVM w vm = Return v -> startVM w v = Throw e ->
     student_start w u (fresh d)
     = (RespError 500 e, mkState d [Queued [CloneVM vm; StartVM v]])) /\
  (forall v e,
     cloneVM w vm = Return v -> startVM w v = Return tt ->
     createSnapshot w v "clean_start" = Throw e ->
     student_start w u (fresh d)
     = (RespError 500 e, mkState d [Queued (provisioning_calls vm v)])).
Proof.
  intros sid vm Hass Hqs.
  pose proof (provision_run w sid (Db.username u) d) as Hprov.
  cbn zeta in Hprov. fold vm in Hprov.
  unfold student_start, handle. fold sid.
  rewrite (start_body_first w sid (Db.username u) d first rest Hass Hqs).
  split; [|split].
  - intros e Hclone. rewrite Hclone in Hprov. by rewrite Hprov.
  - intros v e Hclone Hstart. rewrite Hclone, Hstart in Hprov.
    by rewrite Hprov.
  - intros v e Hclone Hstart Hsnap. rewrite Hclone, Hstart, Hsnap in Hprov.
    rewrite Hprov. cbn [db log]. by rewrite calls_of_direct.
Qed.

Lemma start_provisioning_failure_witness :
  student_start SampleMore.snapshot_fails Sample.alice (fresh Sample.installed)
  = (RespError 500 "PVE API 錯誤: snapshot feature is not available",
     mkState Sample.installed
       [Queued (provisioning_calls "student-alice-1" 101)]).
Proof.
  destruct (start_provisioning_failure SampleMore.snapshot_fails Sample.alice
              Sample.installed Sample.E1 [Sample.E2])
    as (_ & _ & Hsnap); [by vm_compute..|].
  by apply Hsnap.
Defined.

Lemma conn_for_no_ip w sid d a :
  Db.getVmAssignment sid d = Some a ->
  Js.truthy (Db.vm_ip a) = false ->
  conn_for w sid d = None.
Proof.
  intros Hass Hip. unfold conn_for, getStudentVmConn, fresh.
  rewrite bind_run. unfold read. cbn [db]. by rewrite Hass, Hip.
Qed.

(** X3.  A first start() on which no address can be found (the guest
    agent reports none and no template is configured) still completes: the
    assignment is recorded with a null address, the answer carries
    vm_ip = null and the connection warning instead of an injection
    output, Progress is set, and no SSH command is sent.  From then on
    verify() for that student, on any existing exercise and whatever the
    environment, records the dry-run failure without sending anything. *)
Theorem start_without_address w u d first rest v :
  let sid := Db.user_id u in
  let vm := vm_name_of (Db.username u) sid in
  Db.getVmAssignment sid d = None ->
  Db.getQuestions true d = first :: rest ->
  cloneVM w vm = Return v ->
  startVM w v = Return tt ->
  createSnapshot w v "clean_start" = Return tt ->
  Js.truthy (Pve.getVMIP (getVMStatus w v)) = false ->
  Js.truthy (VM_IP_TEMPLATE (env w)) = false ->
  let d2 :=
    Db.updateProgress sid (Db.q_id first) true
      (Db.createVmAssignment sid v vm None "clean_start" d) in
  student_start w u (fresh d) =
    (RespStart (Db.q_id first) (Db.fault_id first)
       "[警告] 無法連線到 VM，請檢查 VM_SSH_KEY_PATH 和 VM IP 配置" v None,
     mkState d2 [Queued (provisioning_calls vm v)]) /\
  (forall w' qid q,
     Db.getQuestion qid d = Some q ->
     student_verify w' u qid (fresh d2) =
       (RespVerify false "[dry-run] 未設定 VM 連線，模擬 fail。",
        fresh (Db.recordAttempt sid qid false "" ""
                 "[dry-run] 未設定 VM 連線" d2))).
Proof.
  intros sid vm Hass Hqs Hclone Hstart Hsnap Hguest Htemplate d2.
  assert (Hip : resolved_ip w v = None)
    by (unfold resolved_ip; by rewrite Hguest, Htemplate).
  assert (Hconn : forall w', conn_for w' sid
            (Db.createVmAssignment sid v vm None "clean_start" d) = None).
  { intros w'. eapply conn_for_no_ip; [by apply getVmAssignment_created|done]. }
  split.
  - destruct (start_provisions_then_injects_aux w u d first rest v Hass Hqs
                Hclone Hstart Hsnap) as (out & Hout & _ & Hrun).
    fold sid vm in Hout, Hrun. rewrite Hip in Hout, Hrun.
    rewrite Hconn in Hout, Hrun.
    unfold outcome_of, inject in Hout. cbn in Hout. injection Hout as <-.
    rewrite Hrun. unfold calls_made, inject. done.
  - intros w' qid q Hq. rewrite student_verify_run. cbn zeta.
    change (Db.getQuestion qid d2) with (Db.getQuestion qid d). rewrite Hq.
    fold sid.
    rewrite (conn_for_assignments w' sid
               (Db.createVmAssignment sid v vm None "clean_start" d) d2
               eq_refl).
    by rewrite Hconn.
Qed.

Lemma start_without_address_witness :
  student_start SampleMore.no_address Sample.alice (fresh Sample.installed)
  = (RespStart 1 (Some "f1")
       "[警告] 無法連線到 VM，請檢查 VM_SSH_KEY_PATH 和 VM IP 配置" 101 None,
     mkState
       (Db.updateProgress 1 1 true
          (Db.createVmAssignment 1 101 "student-alice-1" None "clean_start"
             Sample.installed))
       [Queued (provisioning_calls "student-alice-1" 101)]).
Proof.
  destruct (start_without_address SampleMore.no_address Sample.alice
              Sample.installed Sample.E1 [Sample.E2] 101)
    as [Hrun _]; [by vm_compute..|].
  exact Hrun.
Defined.

Lemma prefix_other_head (c : ascii) (p s : string) (a : ascii) :
  a <> c -> String.prefix (String a p) (String c s) = false.
Proof. intros Hne. simpl. by destruct (ascii_dec a c). Qed.

Lemma prefix_append (p s : string) : String.prefix p (p +:+ s) = true.
Proof. apply prefix_spec. by exists s. Qed.

Lemma skip_append (p s : string) : Js.skip (String.length p) (p +:+ s) = s.
Proof. induction p as [|a p IH]; [by destruct s|]. exact IH. Qed.

Lemma replace_cons (p r : string) (c : ascii) (s : string) :
  Js.replace p r (String c s) =
  if String.prefix p (String c s)
  then r +:+ Js.skip (String.length p) (String c s)
  else String c (Js.replace p r s).
Proof. reflexivity. Qed.

Lemma replace_nil (p r : string) :
  Js.replace p r "" =
  if String.prefix p "" then r +:+ Js.skip (String.length p) "" else "".
Proof. reflexivity. Qed.

(** [replace] puts the replacement where the pattern first stands, when
    the text before it does not hold the pattern's first character. *)
Lemma replace_first (a : ascii) (p r pre post : string) :
  ~ In a (list_ascii_of_string pre) ->
  Js.replace (String a p) r (pre +:+ String a p +:+ post)
  = pre +:+ r +:+ post.
Proof.
  induction pre as [|c pre IH]; intros Hpre.
  - rewrite !append_nil_l.
    rewrite (append_cons a p post), replace_cons, <- (append_cons a p post).
    by rewrite prefix_append, skip_append.
  - rewrite !(append_cons c pre), replace_cons.
    rewrite prefix_other_head by (intros ->; apply Hpre; by left).
    rewrite IH; [done|]. intros Hin. apply Hpre. by right.
Qed.

(** [replace] leaves a text without the pattern as it is. *)
Lemma replace_absent (p r s : string) :
  Js.includes p s = false -> Js.replace p r s = s.
Proof.
  induction s as [|c s IH].
  - change (Js.includes p "") with (String.prefix p "" || false).
    rewrite orb_false_r. intros Hp. by rewrite replace_nil, Hp.
  - change (Js.includes p (String c s))
      with (String.prefix p (String c s) || Js.includes p s).
    intros [Hp Hs]%orb_false_elim.
    by rewrite replace_cons, Hp, (IH Hs).
Qed.

(** X4.  The address recorded for a new VM.  An address reported by the
    guest agent wins.  Without one, a configured template is used with its
    first [{vmid}] replaced by the decimal VM id: a template
    pre{vmid}post (no brace in pre) gives pre<id>post, and a template
    that does not hold [{vmid}] is recorded as it stands, the same address
    for every VM.  With neither, the address is null. *)
Theorem resolved_ip_cases w v :
  (forall ip, Pve.getVMIP (getVMStatus w v) = Some ip -> ip <> "" ->
     resolved_ip w v = Some ip) /\
  (forall pre post,
     Js.truthy (Pve.getVMIP (getVMStatus w v)) = false ->
     VM_IP_TEMPLATE (env w) = Some (pre +:+ "{vmid}" +:+ post) ->
     ~ In "{"%char (list_ascii_of_string pre) ->
     resolved_ip w v = Some (pre +:+ Js.show v +:+ post)) /\
  (forall t,
     Js.truthy (Pve.getVMIP (getVMStatus w v)) = false ->
     VM_IP_TEMPLATE (env w) = Some t -> t <> "" ->
     Js.includes "{vmid}" t = false ->
     resolved_ip w v = Some t) /\
  (Js.truthy (Pve.getVMIP (getVMStatus w v)) = false ->
   Js.truthy (VM_IP_TEMPLATE (env w)) = false ->
   resolved_ip w v = None).
Proof.
  unfold resolved_ip. split; [|split; [|split]].
  - intros ip -> Hip. by destruct ip.
  - intros pre post -> Ht Hpre. rewrite Ht.
    assert (Htruthy : Js.truthy (Some (pre +:+ "{vmid}" +:+ post)) = true)
      by (by destruct pre).
    assert (Hor : Js.or_else (Some (pre +:+ "{vmid}" +:+ post)) ""
                  = pre +:+ "{vmid}" +:+ post) by (by destruct pre).
    rewrite Htruthy, Hor. cbn [negb]. f_equal.
    by apply (replace_first "{"%char "vmid}").
  - intros t -> Ht Hne Hinc. rewrite Ht.
    destruct t as [|c t]; [done|]. cbn [Js.truthy negb Js.or_else].
    f_equal. by apply replace_absent.
  - by intros -> ->.
Qed.

Lemma resolved_ip_cases_witness :
  resolved_ip SampleMore.by_template 101 = Some "192.168.1.101".
Proof.
  destruct (resolved_ip_cases SampleMore.by_template 101)
    as (_ & Htemplate & _).
  apply (Htemplate "192.168.1." ""); [done|done|].
  cbn. intros H. decompose [or] H; done.
Defined.

End Provisioning.

(** ** executeScript and the injection step: the other branches *)

Section ScriptBranches.
Import App AppMore.

(** X5.  [executeScript] without inline content.  Without a connection it
    fails with the unwrapped message "VM 連線資訊不存在" (whatever script is
    given) and sends nothing.  With a path only, it sends the single
    command sudo <path> and returns its result, a failure coming back
    wrapped as "腳本執行失敗: ...".  With neither content nor path, it
    fails with the wrapped "沒有可執行的腳本內容或路徑" and sends nothing. *)
Theorem executeScript_without_inline w scriptContent scriptPath scriptType d :
  executeScript w None scriptContent scriptPath scriptType (fresh d)
    = (Throw "VM 連線資訊不存在", fresh d) /\
  (forall c p,
     Js.truthy scriptContent = false -> scriptPath = Some p -> p <> "" ->
     executeScript w (Some c) scriptContent scriptPath scriptType (fresh d)
     = (match runSSH w c ("sudo " +:+ p) with
        | Return r => Return r
        | Throw e => Throw ("腳本執行失敗: " +:+ e)
        end,
        mkState d [Direct (RunSSH c ("sudo " +:+ p))])) /\
  (forall c,
     Js.truthy scriptContent = false -> Js.truthy scriptPath = false ->
     executeScript w (Some c) scriptContent scriptPath scriptType (fresh d)
     = (Throw "腳本執行失敗: 沒有可執行的腳本內容或路徑", fresh d)).
Proof.
  split; [done|]. split.
  - intros c p Hcontent -> Hp.
    unfold executeScript, try_catch, ssh, fresh. rewrite Hcontent.
    destruct p as [|a p]; [done|]. cbn [Js.truthy Js.or_else].
    unfold call. cbn [db log app].
    by destruct (runSSH w c ("sudo " +:+ String a p)).
  - intros c Hcontent Hpath.
    unfold executeScript, try_catch, fresh. by rewrite Hcontent, Hpath.
Qed.

Lemma executeScript_without_inline_witness :
  executeScript SampleMore.unreachable_target (Some Sample.conn) None
    (Some "/opt/checks/c1.sh") "check" (fresh Sample.started)
  = (Throw "腳本執行失敗: connect ETIMEDOUT",
     mkState Sample.started
       [Direct (RunSSH Sample.conn "sudo /opt/checks/c1.sh")]).
Proof.
  destruct (executeScript_without_inline SampleMore.unreachable_target None
              (Some "/opt/checks/c1.sh") "check" Sample.started)
    as (_ & Hpath & _).
  by apply (Hpath Sample.conn "/opt/checks/c1.sh").
Defined.

(** X6.  Injection in start() fails softly.  When the Executor fails on
    the first exercise's fault, start() answers with success all the
    same: inject_output is the text "注入失敗: " followed by the
    Executor's message, and the database is left as a successful start
    leaves it.  For a student who has an assignment, Progress is set to
    the first exercise; on a first start, after the hypervisor calls have
    succeeded, the assignment is recorded and Progress set.  The Executor
    fails when the fault is given by path and the command sudo <path>
    cannot be sent or run, the message being "腳本執行失敗: " and the
    cause; and when the exercise has neither a fault script nor a fault
    path, in which case nothing is sent. *)
Theorem start_injection_fails_softly w u d first rest :
  let sid := Db.user_id u in
  let vm := vm_name_of (Db.username u) sid in
  let fault c :=
    executeScript w (Some c) (Db.fault_script first) (Db.fault_path first)
      "fault" in
  Db.getQuestions true d = first :: rest ->
  (forall a c e,
     Db.getVmAssignment sid d = Some a ->
     conn_for w sid d = Some c ->
     outcome_of (fault c) d = Throw e ->
     student_start w u (fresh d) =
       (RespStart (Db.q_id first) (Db.fault_id first) ("注入失敗: " +:+ e)
          (Db.vmid a) (Db.vm_ip a),
        mkState (Db.updateProgress sid (Db.q_id first) true d)
          (calls_made (fault c) d))) /\
  (forall v c e,
     Db.getVmAssignment sid d = None ->
     cloneVM w vm = Return v ->
     startVM w v = Return tt ->
     createSnapshot w v "clean_start" = Return tt ->
     let d1 :=
       Db.createVmAssignment sid v vm (resolved_ip w v) "clean_start" d in
     conn_for w sid d1 = Some c ->
     outcome_of (fault c) d1 = Throw e ->
     student_start w u (fresh d) =
       (RespStart (Db.q_id first) (Db.fault_id first) ("注入失敗: " +:+ e)
          v (resolved_ip w v),
        mkState (Db.updateProgress sid (Db.q_id first) true d1)
          (Queued (provisioning_calls vm v) :: calls_made (fault c) d1))) /\
  (forall c p e d',
     Js.truthy (Db.fault_script first) = false ->
     Db.fault_path first = Some p -> p <> "" ->
     runSSH w c ("sudo " +:+ p) = Throw e ->
     outcome_of (fault c) d' = Throw ("腳本執行失敗: " +:+ e) /\
     calls_made (fault c) d' = [Direct (RunSSH c ("sudo " +:+ p))]) /\
  (forall c d',
     Js.truthy (Db.fault_script first) = false ->
     Js.truthy (Db.fault_path first) = false ->
     outcome_of (fault c) d'
     = Throw "腳本執行失敗: 沒有可執行的腳本內容或路徑" /\
     calls_made (fault c) d' = []).
Proof.
  intros sid vm fault Hqs. split; [|split; [|split]].
  - intros a c e Hass Hconn Hfail.
    destruct (start_progress_run w sid (Some a) d [] first rest Hqs)
      as (out & Hout & _ & Hrun).
    rewrite Hconn in Hout, Hrun. rewrite inject_outcome in Hout.
    fold (fault c) in Hout. rewrite Hfail in Hout.
    assert (out = "注入失敗: " +:+ e) as -> by congruence.
    unfold student_start, handle, start_body, fresh.
    rewrite bind_run. unfold read at 1. cbn [db]. fold sid. rewrite Hass.
    cbn [app] in Hrun. rewrite Hrun. by rewrite inject_calls.
  - intros v c e Hass Hclone Hstart Hsnap d1 Hconn Hfail.
    destruct (start_provisions_then_injects_aux w u d first rest v
                Hass Hqs Hclone Hstart Hsnap) as (out & Hout & _ & Hrun).
    fold sid vm d1 in Hout, Hrun.
    rewrite Hconn in Hout, Hrun. rewrite inject_outcome in Hout.
    fold (fault c) in Hout. rewrite Hfail in Hout.
    assert (out = "注入失敗: " +:+ e) as -> by congruence.
    rewrite Hrun. by rewrite inject_calls.
  - intros c p e d' Hscript Hpath Hne Hssh.
    unfold outcome_of, calls_made, fault. rewrite Hpath.
    rewrite (executeScript_path_run w c _ p "fault" d' Hscript Hne).
    by rewrite Hssh.
  - intros c d' Hscript Hpath. unfold outcome_of, calls_made, fault.
    by rewrite (executeScript_no_script w c _ _ "fault" d' Hscript Hpath).
Qed.

Lemma start_injection_fails_softly_witness :
  student_start SampleMore.unreachable_target Sample.alice
    (fresh Sample.installed)
  = (RespStart 1 (Some "f1") "注入失敗: 腳本執行失敗: connect ETIMEDOUT" 101
       (Some "10.0.0.5"),
     mkState
       (Db.updateProgress 1 1 true
          (Db.createVmAssignment 1 101 "student-alice-1" (Some "10.0.0.5")
             "clean_start" Sample.installed))
       [Queued (provisioning_calls "student-alice-1" 101);
        Direct (RunSSH Sample.conn "sudo /opt/faults/f1.sh")]).
Proof.
  destruct (start_injection_fails_softly SampleMore.unreachable_target
              Sample.alice Sample.installed Sample.E1 [Sample.E2] eq_refl)
    as (_ & Hfirst & _).
  apply (Hfirst 101%N Sample.conn "腳本執行失敗: connect ETIMEDOUT");
    vm_compute; reflexivity.
Defined.

End ScriptBranches.

(** ** The guards in front of the student routes *)

Section Guards.
Import App AppMore.

(** The session a successful login opens. *)
Lemma login_session d name sess :
  reachable d -> name <> "" ->
  exists u,
    (post_auth_login (Some name) sess (fresh d)).1.2 = Some u /\
    Db.username u = name /\ Db.role u = role_of name.
Proof.
  intros Hreach Hname.
  pose proof (reachable_invariant d Hreach) as [_ _ _ Hroles].
  unfold post_auth_login, login_body, fresh, Db.getOrCreateUser.
  destruct name as [|c name]; [done|]. cbn [Js.truthy negb Js.or_else db log].
  destruct (find _ (Db.users d)) as [u|] eqn:Hfind; cbn [db log fst snd].
  - apply find_username_eq in Hfind as [Hin Heq].
    exists (Db.mkUser (Db.user_id u) (Db.username u) (Db.role u)).
    split; [done|]. split; [done|]. cbn. rewrite <- Heq. by apply Hroles.
  - by eexists.
Qed.

(** X7.  Who gets through to the student routes.  Without a session the
    three routes answer 401 and touch nothing.  In every database that
    sequential requests can reach, the session opened by a login whose
    username contains "teacher" is turned away from all three with 403,
    nothing touched; the session of any other (non-empty) username is let
    through to the handlers under that username. *)
Theorem student_routes_guarded :
  (forall w qid s,
     post_student_start w None s = (RespError 401 "未登入", s) /\
     post_student_verify w None qid s = (RespError 401 "未登入", s) /\
     post_student_next w None s = (RespError 401 "未登入", s)) /\
  (forall d name sess,
     reachable d -> name <> "" ->
     let session := (post_auth_login (Some name) sess (fresh d)).1.2 in
     (Js.includes "teacher" name = true ->
      forall w qid s,
        post_student_start w session s = (RespError 403 "權限不足", s) /\
        post_student_verify w session qid s = (RespError 403 "權限不足", s) /\
        post_student_next w session s = (RespError 403 "權限不足", s)) /\
     (Js.includes "teacher" name = false ->
      exists u,
        session = Some u /\ Db.username u = name /\
        forall w qid s,
          post_student_start w session s = student_start w u s /\
          post_student_verify w session qid s = student_verify w u qid s /\
          post_student_next w session s = student_next w u s)).
Proof.
  split; [done|].
  intros d name sess Hreach Hname session.
  destruct (login_session d name sess Hreach Hname) as (u & Hsess & Hu & Hrole).
  fold session in Hsess. rewrite Hsess. unfold role_of in Hrole.
  split; intros Hinc; rewrite Hinc in Hrole.
  - intros w qid s.
    unfold post_student_start, post_student_verify, post_student_next,
      guarded, requireAuth, requireRole.
    by rewrite Hrole.
  - exists u. split; [done|]. split; [done|]. intros w qid s.
    unfold post_student_start, post_student_verify, post_student_next,
      guarded, requireAuth, requireRole.
    by rewrite Hrole.
Qed.

Lemma student_routes_guarded_witness :
  post_student_start Sample.world
    (post_auth_login (Some "teacher_bob") None (fresh Sample.installed)).1.2
    (fresh Sample.installed)
  = (RespError 403 "權限不足", fresh Sample.installed).
Proof.
  destruct student_routes_guarded as [_ Hlogin].
  destruct (Hlogin Sample.installed "teacher_bob" None (reach_initial _)
              ltac:(done)) as [Hteacher _].
  by apply (Hteacher eq_refl Sample.world None (fresh Sample.installed)).
Defined.

End Guards.

(** ** What a request may call *)

Section CallDiscipline.
Import App AppMore.

(** X8.  Hypervisor calls go through the queue, one unit per request at
    most, and before any SSH command.  verify() only sends SSH commands.
    next() hands the queue at most one unit, the rollback of the student's
    own VM to the snapshot of its assignment, and otherwise only sends SSH
    commands.  start() hands the queue at most one unit, and only for a
    student who has no assignment; whatever else it calls is an SSH
    command and comes after the unit. *)
Theorem hypervisor_calls_through_queue w u d :
  let sid := Db.user_id u in
  (forall qid, ssh_only (log (student_verify w u qid (fresh d)).2)) /\
  (exists evs,
     ssh_only evs /\
     (log (student_next w u (fresh d)).2 = evs \/
      exists a,
        Db.getVmAssignment sid d = Some a /\
        log (student_next w u (fresh d)).2
        = Queued [RollbackToSnapshot (Db.vmid a) (Db.snapshot_name a)]
            :: evs)) /\
  (exists evs,
     ssh_only evs /\
     (log (student_start w u (fresh d)).2 = evs \/
      exists cs,
        Db.getVmAssignment sid d = None /\
        log (student_start w u (fresh d)).2 = Queued cs :: evs)).
Proof.
  intros sid. split; [|split].
  - intros qid. rewrite student_verify_run. cbn zeta.
    destruct (Db.getQuestion qid d) as [q|]; [|constructor].
    destruct (conn_for w (Db.user_id u) d) as [c|]; [|constructor].
    destruct (executeScript_ssh_calls w (Some c) (Db.check_script q)
                (Db.check_path q) "check") as (r & evs & Hssh & Hrun).
    assert (calls_made (check_run w c q) d = evs) as Hcalls
      by (unfold calls_made, check_run; by rewrite Hrun).
    destruct (outcome_of (check_run w c q) d); cbn [snd log];
      by rewrite Hcalls.
  - set (p := Db.getProgress sid d).
    destruct (Db.started p) eqn:Hst;
      [|rewrite (next_not_started w u d Hst); exists []; split;
        [constructor|by left]].
    destruct (next_question (Db.getQuestions true d) (Db.current_qid p))
      as [nxt|] eqn:Hnext;
      [|rewrite (next_done w u d Hst Hnext); exists []; split;
        [constructor|by left]].
    destruct (decide (Db.getQuestionStatus sid (Db.current_qid p) d
                      = Db.status_passed)) as [Hpass|Hpass];
      [|rewrite (next_not_passed w u d nxt Hst Hnext Hpass); exists [];
        split; [constructor|by left]].
    destruct (Db.getVmAssignment sid d) as [a|] eqn:Hass;
      [|rewrite (next_unassigned w u d nxt Hst Hnext Hpass Hass); exists [];
        split; [constructor|by left]].
    destruct (next_body_run w sid d nxt a Hst Hnext Hpass Hass)
      as (out & _ & Hssh & Hok & Hfail).
    unfold student_next, handle. fold sid.
    destruct (rollbackToSnapshot w (Db.vmid a) (Db.snapshot_name a))
      as [[]|e] eqn:Hrb.
    + rewrite (Hok eq_refl). eexists. split; [exact Hssh|].
      right. by exists a.
    + rewrite (Hfail e eq_refl). exists []. split; [constructor|].
      right. by exists a.
  - unfold student_start, handle. fold sid.
    destruct (Db.getVmAssignment sid d) as [a|] eqn:Hass.
    + unfold start_body, fresh. rewrite bind_run. unfold read at 1.
      cbn [db]. rewrite Hass.
      destruct (Db.getQuestions true d) as [|first rest] eqn:Hqs.
      * unfold start_progress. rewrite bind_run. unfold read at 1.
        cbn [db]. rewrite Hqs. exists []. split; [constructor|by left].
      * destruct (start_progress_run w sid (Some a) d [] first rest Hqs)
          as (out & _ & Hssh & ->).
        eexists. split; [exact Hssh|]. by left.
    + destruct (Db.getQuestions true d) as [|first rest] eqn:Hqs.
      * unfold start_body, fresh. rewrite bind_run. unfold read at 1.
        cbn [db]. rewrite Hass. rewrite bind_run. unfold read at 1.
        cbn [db]. rewrite Hqs. exists []. split; [constructor|by left].
      * rewrite (start_body_first w sid (Db.username u) d first rest Hass Hqs).
        destruct (provision w sid (Db.username u) (mkState d []))
          as [[[]|e] s1] eqn:Hprov.
        -- pose proof (provision_effect _ _ _ _ _ _ Hprov)
             as [(e & [=] & _)|(_ & v & ip & Hdb)].
           cbn [db] in Hdb.
           destruct (start_progress_run w sid
                       (Db.getVmAssignment sid (db s1)) (db s1)
                       [Queued (concat (map calls_of (log s1)))]
                       first rest) as (out & _ & Hssh & ->).
           { by rewrite Hdb. }
           eexists. split; [exact Hssh|]. right. eexists. split; [done|].
           by destruct (Db.getVmAssignment sid (db s1)).
        -- exists []. split; [constructor|]. right. by eexists.
Qed.

End CallDiscipline.

(** ** GET /api/student/vm-info *)

Section VmInfo.
Import App AppMore.

Lemma student_vm_info_run u d l :
  student_vm_info u (mkState d l) =
  (inr match Db.getVmAssignment (Db.user_id u) d with
       | None => NotAssigned "尚未分配 VM，請先按「開始訓練」"
       | Some a => Assigned (Db.vmid a) (Db.vm_name a) (Db.vm_ip a)
                     (Db.snapshot_name a)
       end, mkState d l).
Proof.
  unfold student_vm_info, vm_info_body. rewrite bind_run.
  unfold read at 1. cbn [db].
  by destruct (Db.getVmAssignment (Db.user_id u) d).
Qed.

(** X9.  vm-info after start.  When start() has answered with a VM id and
    an address, vm-info on the database it leaves reports that same VM id
    and address, and changes nothing.  If the student had no assignment
    before, the reported VM name is student-<username>-<id> and the
    snapshot is clean_start. *)
Theorem vm_info_after_start w u d qid fid out v ip s' :
  student_start w u (fresh d) = (RespStart qid fid out v ip, s') ->
  exists name snap,
    student_vm_info u (fresh (db s'))
    = (inr (Assigned v name ip snap), fresh (db s')) /\
    (Db.getVmAssignment (Db.user_id u) d = None ->
     name = vm_name_of (Db.username u) (Db.user_id u) /\
     snap = "clean_start").
Proof.
  set (sid := Db.user_id u). unfold student_start, handle. fold sid.
  unfold fresh at 2 3. rewrite student_vm_info_run. fold sid.
  destruct (Db.getVmAssignment sid d) as [a|] eqn:Hass.
  - unfold start_body, fresh. rewrite bind_run. unfold read at 1.
    cbn [db]. rewrite Hass.
    destruct (Db.getQuestions true d) as [|first rest] eqn:Hqs.
    + unfold start_progress. rewrite bind_run. unfold read at 1.
      cbn [db]. rewrite Hqs. cbn [head]. intros [=].
    + destruct (start_progress_run w sid (Some a) d [] first rest Hqs)
        as (o & _ & _ & ->).
      intros [= <- <- <- <- <- <-]. cbn [db].
      change (Db.getVmAssignment sid (Db.updateProgress _ _ _ d))
        with (Db.getVmAssignment sid d).
      rewrite Hass. by exists (Db.vm_name a), (Db.snapshot_name a).
  - destruct (Db.getQuestions true d) as [|first rest] eqn:Hqs.
    + unfold start_body, fresh. rewrite bind_run. unfold read at 1.
      cbn [db]. rewrite Hass. rewrite bind_run. unfold read at 1.
      cbn [db]. rewrite Hqs. cbn [head]. intros [=].
    + rewrite (start_body_first w sid (Db.username u) d first rest Hass Hqs).
      destruct (provision w sid (Db.username u) (mkState d []))
        as [[[]|e] s1] eqn:Hprov; [|intros [=]].
      pose proof (provision_effect _ _ _ _ _ _ Hprov)
        as [(e & [=] & _)|(_ & v1 & ip1 & Hdb)].
      cbn [db] in Hdb.
      pose proof (getVmAssignment_created sid v1
                    (vm_name_of (Db.username u) sid) ip1 "clean_start" d Hass)
        as Hnew.
      rewrite <- Hdb in Hnew.
      destruct (start_progress_run w sid
                  (Db.getVmAssignment sid (db s1)) (db s1)
                  [Queued (concat (map calls_of (log s1)))]
                  first rest) as (o & _ & _ & ->).
      { by rewrite Hdb. }
      rewrite Hnew. intros [= <- <- <- <- <- <-]. cbn [db].
      change (Db.getVmAssignment sid (Db.updateProgress _ _ _ (db s1)))
        with (Db.getVmAssignment sid (db s1)).
      rewrite Hnew. cbn. by eexists _, _.
Qed.

Lemma vm_info_after_start_witness :
  exists name snap,
    student_vm_info Sample.alice (fresh Sample.started)
    = (inr (Assigned 101 name (Some "10.0.0.5") snap), fresh Sample.started) /\
    (Db.getVmAssignment 1 Sample.installed = None ->
     name = "student-alice-1" /\ snap = "clean_start").
Proof.
  apply (vm_info_after_start Sample.world Sample.alice Sample.installed
           1 (Some "f1")
           (fst (fst (match (student_start Sample.world Sample.alice
                               (fresh Sample.installed)).1 with
                      | RespStart _ _ o _ _ => (o, 0, 0)
                      | _ => ("", 0, 0)
                      end)))
           101 (Some "10.0.0.5")).
  vm_compute. reflexivity.
Defined.

End VmInfo.

(** ** What a request leaves in the database *)

Section Changes.
Import App AppMore.

Lemma serve_change w u r d : student_change (Db.user_id u) d (serve w u r d).
Proof.
  set (sid := Db.user_id u). destruct r as [|qid|]; unfold serve.
  - unfold student_start, handle. fold sid.
    destruct (Db.getQuestions true d) as [|first rest] eqn:Hqs.
    + unfold start_body, fresh. rewrite bind_run. unfold read at 1.
      cbn [db].
      destruct (Db.getVmAssignment sid d) as [a|].
      * unfold start_progress. rewrite bind_run. unfold read at 1.
        cbn [db]. rewrite Hqs. constructor.
      * rewrite bind_run. unfold read at 1. cbn [db]. rewrite Hqs.
        constructor.
    + assert (In first (Db.getQuestions true d)) as Hin
        by (rewrite Hqs; by left).
      destruct (Db.getVmAssignment sid d) as [a|] eqn:Hass.
      * unfold start_body, fresh. rewrite bind_run. unfold read at 1.
        cbn [db]. rewrite Hass.
        destruct (start_progress_run w sid (Some a) d [] first rest Hqs)
          as (out & _ & _ & ->).
        by eapply change_progress.
      * rewrite (start_body_first w sid (Db.username u) d first rest Hass Hqs).
        destruct (provision w sid (Db.username u) (mkState d []))
          as [[[]|e] s1] eqn:Hprov.
        -- pose proof (provision_effect _ _ _ _ _ _ Hprov)
             as [(e & [=] & _)|(_ & v & ip & Hdb)].
           cbn [db] in Hdb.
           destruct (start_progress_run w sid
                       (Db.getVmAssignment sid (db s1)) (db s1)
                       [Queued (concat (map calls_of (log s1)))]
                       first rest) as (out & _ & _ & ->).
           { by rewrite Hdb. }
           rewrite Hdb.
           destruct (Db.getVmAssignment sid (Db.createVmAssignment _ _ _ _ _ _));
             by apply change_provisioned.
        -- pose proof (provision_effect _ _ _ _ _ _ Hprov)
             as [(e' & _ & Hdb)|([=] & _)].
           cbn [db] in *. rewrite Hdb. constructor.
  - rewrite student_verify_run. cbn zeta. fold sid.
    destruct (Db.getQuestion qid d) as [q|]; [|constructor].
    destruct (conn_for w sid d) as [c|]; [|constructor].
    destruct (outcome_of (check_run w c q) d); constructor.
  - set (p := Db.getProgress sid d).
    destruct (Db.started p) eqn:Hst;
      [|rewrite (next_not_started w u d Hst); constructor].
    destruct (next_question (Db.getQuestions true d) (Db.current_qid p))
      as [nxt|] eqn:Hnext;
      [|rewrite (next_done w u d Hst Hnext); constructor].
    destruct (decide (Db.getQuestionStatus sid (Db.current_qid p) d
                      = Db.status_passed)) as [Hpass|Hpass];
      [|rewrite (next_not_passed w u d nxt Hst Hnext Hpass); constructor].
    destruct (Db.getVmAssignment sid d) as [a|] eqn:Hass;
      [|rewrite (next_unassigned w u d nxt Hst Hnext Hpass Hass);
        constructor].
    destruct (next_body_run w sid d nxt a Hst Hnext Hpass Hass)
      as (out & _ & _ & Hok & Hfail).
    unfold student_next, handle. fold sid.
    destruct (rollbackToSnapshot w (Db.vmid a) (Db.snapshot_name a))
      as [[]|e] eqn:Hrb.
    + rewrite (Hok eq_refl). eapply change_progress; [|exact Hass].
      by eapply next_question_In.
    + rewrite (Hfail e eq_refl). constructor.
Qed.

Lemma find_app_some {A : Type} (f : A -> bool) (l l' : list A) (x : A) :
  List.find f l = Some x -> List.find f (l ++ l') = Some x.
Proof.
  induction l as [|y l IH]; simpl; [done|]. destruct (f y); [done|exact IH].
Qed.

Lemma find_app_other {A : Type} (f : A -> bool) (l : list A) (x : A) :
  f x = false -> List.find f (l ++ [x]) = List.find f l.
Proof.
  intros Hx. induction l as [|y l IH]; simpl; [by rewrite Hx|].
  destruct (f y); [done|exact IH].
Qed.

Lemma filter_app_other {A : Type} (f : A -> bool) (l : list A) (x : A) :
  f x = false -> List.filter f (l ++ [x]) = List.filter f l.
Proof.
  intros Hx. rewrite List.filter_app. simpl. rewrite Hx. apply app_nil_r.
Qed.

(** X10.  Students do not interfere.  A request of one student (start,
    verify or next), whatever the outside world answers, leaves every
    other student's assignment, progress, attempts and question statuses
    as they were, and leaves the users and the questions alone. *)
Theorem requests_leave_other_students_alone w u r d other :
  other <> Db.user_id u ->
  let d' := serve w u r d in
  Db.getVmAssignment other d' = Db.getVmAssignment other d /\
  Db.getProgress other d' = Db.getProgress other d /\
  (forall qid,
     Db.attempts_of other qid d' = Db.attempts_of other qid d /\
     Db.getQuestionStatus other qid d' = Db.getQuestionStatus other qid d) /\
  Db.users d' = Db.users d /\
  Db.questions d' = Db.questions d.
Proof.
  intros Hother d'. subst d'.
  destruct (serve_change w u r d) as [|q a _ _|q v name ip _ _|qid p out err o].
  - done.
  - repeat split. unfold Db.getProgress, Db.updateProgress. cbn.
    by rewrite lookup_insert_ne.
  - repeat split.
    + unfold Db.getVmAssignment. cbn. apply find_app_other. cbn.
      by apply Nat.eqb_neq.
    + unfold Db.getProgress, Db.updateProgress. cbn.
      by rewrite lookup_insert_ne.
  - assert (forall qid',
              Db.attempts_of other qid'
                (Db.recordAttempt (Db.user_id u) qid p out err o d)
              = Db.attempts_of other qid' d) as Hatt.
    { intros qid'. unfold Db.attempts_of. cbn. apply filter_app_other. cbn.
      apply andb_false_intro1. apply Nat.eqb_neq. congruence. }
    repeat split; [apply Hatt|].
    unfold Db.getQuestionStatus. by rewrite Hatt.
Qed.

Lemma requests_leave_other_students_alone_witness :
  let d' := serve Sample.world Sample.alice Start Sample.installed in
  Db.getVmAssignment 2 d' = Db.getVmAssignment 2 Sample.installed /\
  Db.getProgress 2 d' = Db.getProgress 2 Sample.installed /\
  (forall qid,
     Db.attempts_of 2 qid d' = Db.attempts_of 2 qid Sample.installed /\
     Db.getQuestionStatus 2 qid d'
     = Db.getQuestionStatus 2 qid Sample.installed) /\
  Db.users d' = Db.users Sample.installed /\
  Db.questions d' = Db.questions Sample.installed.
Proof.
  apply (requests_leave_other_students_alone Sample.world Sample.alice Start
           Sample.installed 2).
  vm_compute. discriminate.
Defined.

Lemma change_keeps_assignment sid d d' other a :
  student_change sid d d' ->
  Db.getVmAssignment other d = Some a ->
  Db.getVmAssignment other d' = Some a.
Proof.
  intros [|q a' _ _|q v name ip _ _|qid p out err o] Ha; try done.
  unfold Db.getVmAssignment. cbn. by apply find_app_some.
Qed.

(** X11.  An assignment is for good.  Once a student has an assignment,
    no sequence of start, verify and next requests, by that student or by
    anyone else and whatever the outside world answers, changes it: the
    VM id, name, address and snapshot read for the student stay the
    same. *)
Theorem assignment_is_permanent rs d studentId a :
  Db.getVmAssignment studentId d = Some a ->
  Db.getVmAssignment studentId (serve_all rs d) = Some a.
Proof.
  revert d. induction rs as [|[[w u] r] rs IH]; intros d Ha; [done|].
  cbn. apply IH. eapply change_keeps_assignment; [apply serve_change|done].
Qed.

Lemma assignment_is_permanent_witness :
  Db.getVmAssignment 1
    (serve_all [(SampleMore.no_address, Sample.alice, Start);
                (Sample.world, Sample.alice, Verify (Some 1));
                (SampleMore.snapshot_fails, Db.mkUser 2 "bob" Db.student,
                 Start);
                (Sample.world, Sample.alice, Next)] Sample.started)
  = Some (Db.mkVmAssignment 1 101 "student-alice-1" (Some "10.0.0.5")
            "clean_start").
Proof.
  apply assignment_is_permanent. vm_compute. reflexivity.
Defined.

End Changes.

(** ** Started students have a VM *)

Section StartedAssigned.
Import App AppMore.

Lemma change_started_assigned sid d d' :
  student_change sid d d' -> started_assigned d -> started_assigned d'.
Proof.
  intros Hchange Hinv other.
  destruct Hchange as [|q a _ Ha|q v name ip _ Hnone|qid p out err o].
  - apply Hinv.
  - destruct (decide (other = sid)) as [->|Hne]; [by exists a|].
    unfold Db.getProgress, Db.updateProgress. cbn.
    rewrite lookup_insert_ne by done. apply Hinv.
  - destruct (decide (other = sid)) as [->|Hne].
    + intros _. eexists.
      exact (getVmAssignment_created sid v name ip "clean_start" d Hnone).
    + unfold Db.getProgress, Db.updateProgress. cbn.
      rewrite lookup_insert_ne by done. intros Hst.
      destruct (Hinv other Hst) as [a Ha]. exists a.
      unfold Db.getVmAssignment. cbn. by apply find_app_some.
  - apply Hinv.
Qed.

Lemma login_keeps_sessions name sess d :
  let d' := db (post_auth_login name sess (fresh d)).2 in
  Db.progress d' = Db.progress d /\
  Db.vm_assignments d' = Db.vm_assignments d.
Proof.
  unfold post_auth_login, login_body, fresh.
  destruct (negb (Js.truthy name)); [done|].
  cbn [db log]. unfold Db.getOrCreateUser.
  by destruct (find _ (Db.users d)).
Qed.

Lemma reachable_started_assigned d : reachable d -> started_assigned d.
Proof.
  induction 1 as [qs|d name sess _ IH|d w u _ IH|d w u qid _ IH|d w u _ IH
                 |d i q _ IH _ _].
  - intros sid. unfold Db.getProgress. cbn. by rewrite lookup_empty.
  - destruct (login_keeps_sessions name sess d) as [Hp Hv].
    intros sid. unfold Db.getProgress, Db.getVmAssignment.
    rewrite Hp, Hv. apply IH.
  - exact (change_started_assigned _ _ _ (serve_change w u Start d) IH).
  - exact (change_started_assigned _ _ _ (serve_change w u (Verify qid) d) IH).
  - exact (change_started_assigned _ _ _ (serve_change w u Next d) IH).
  - exact IH.
Qed.

(** X12.  In every database that sequential requests can reach, a student
    who has started has an assignment.  So the branch of next() that
    answers 500 "VM 未分配" without calling anything is never taken
    there. *)
Theorem started_student_has_vm d :
  reachable d ->
  started_assigned d /\
  forall w u,
    student_next w u (fresh d) <> (RespError 500 "VM 未分配", fresh d).
Proof.
  intros Hreach. pose proof (reachable_started_assigned d Hreach) as Hinv.
  split; [exact Hinv|]. intros w u.
  set (sid := Db.user_id u). set (p := Db.getProgress sid d).
  destruct (Db.started p) eqn:Hst;
    [|by rewrite (next_not_started w u d Hst)].
  destruct (next_question (Db.getQuestions true d) (Db.current_qid p))
    as [nxt|] eqn:Hnext;
    [|by rewrite (next_done w u d Hst Hnext)].
  destruct (decide (Db.getQuestionStatus sid (Db.current_qid p) d
                    = Db.status_passed)) as [Hpass|Hpass];
    [|by rewrite (next_not_passed w u d nxt Hst Hnext Hpass)].
  destruct (Hinv sid Hst) as [a Hass].
  destruct (next_body_run w sid d nxt a Hst Hnext Hpass Hass)
    as (out & _ & _ & Hok & Hfail).
  unfold student_next, handle. fold sid.
  destruct (rollbackToSnapshot w (Db.vmid a) (Db.snapshot_name a))
    as [[]|e] eqn:Hrb.
  - by rewrite (Hok eq_refl).
  - rewrite (Hfail e eq_refl). unfold fresh. intros [=].
Qed.

Lemma started_student_has_vm_witness :
  started_assigned Sample.verified /\
  forall w u,
    student_next w u (fresh Sample.verified)
    <> (RespError 500 "VM 未分配", fresh Sample.verified).
Proof.
  apply started_student_has_vm.
  apply reach_verify, reach_start, reach_initial.
Defined.

(** X13.  start() resets Progress but not the attempts.  When a student
    who has an assignment starts again, Progress goes back to the first
    enabled question, and every question's status stays what it was.  So
    if the first question had been passed before, a next() right after the
    restart is let through to the rollback without a new verify. *)
Theorem restart_keeps_passed w w' u d a first second rest :
  let sid := Db.user_id u in
  Db.getVmAssignment sid d = Some a ->
  Db.getQuestions true d = first :: second :: rest ->
  Db.getQuestionStatus sid (Some (Db.q_id first)) d = Db.status_passed ->
  let d' := serve w u Start d in
  Db.getProgress sid d' = Db.mkProgress (Some (Db.q_id first)) true /\
  (forall other qid,
     Db.getQuestionStatus other qid d' = Db.getQuestionStatus other qid d) /\
  exists evs,
    log (student_next w' u (fresh d')).2
    = Queued [RollbackToSnapshot (Db.vmid a) (Db.snapshot_name a)] :: evs.
Proof.
  intros sid Hass Hqs Hpass d'.
  assert (d' = Db.updateProgress sid (Db.q_id first) true d) as Hd'.
  { subst d'. unfold serve, student_start, handle, start_body, fresh.
    fold sid. rewrite bind_run. unfold read at 1. cbn [db]. rewrite Hass.
    by destruct (start_progress_run w sid (Some a) d [] first (second :: rest)
                   Hqs) as (out & _ & _ & ->). }
  assert (Db.getProgress sid d' = Db.mkProgress (Some (Db.q_id first)) true)
    as Hp.
  { rewrite Hd'. unfold Db.getProgress, Db.updateProgress. cbn.
    by rewrite lookup_insert_eq. }
  split; [exact Hp|]. split; [by rewrite Hd'|].
  assert (Db.started (Db.getProgress sid d') = true) as Hst
    by (by rewrite Hp).
  assert (next_question (Db.getQuestions true d')
            (Db.current_qid (Db.getProgress sid d')) = Some second) as Hnext.
  { rewrite Hp, Hd'. cbn [Db.current_qid].
    change (Db.getQuestions true (Db.updateProgress _ _ _ d))
      with (Db.getQuestions true d).
    rewrite Hqs.
    exact (next_question_after [] first (second :: rest) (Forall_nil_2 _)). }
  assert (Db.getQuestionStatus sid (Db.current_qid (Db.getProgress sid d')) d'
          = Db.status_passed) as Hpass'.
  { rewrite Hp. cbn [Db.current_qid]. by rewrite Hd'. }
  assert (Db.getVmAssignment sid d' = Some a) as Hass' by (by rewrite Hd').
  destruct (next_body_run w' sid d' second a Hst Hnext Hpass' Hass')
    as (out & _ & _ & Hok & Hfail).
  unfold student_next, handle. fold sid.
  destruct (rollbackToSnapshot w' (Db.vmid a) (Db.snapshot_name a))
    as [[]|e] eqn:Hrb.
  - rewrite (Hok eq_refl). by eexists.
  - rewrite (Hfail e eq_refl). by eexists.
Qed.

Lemma restart_keeps_passed_witness :
  let d' := serve Sample.world Sample.alice Start Sample.verified in
  Db.getProgress 1 d' = Db.mkProgress (Some 1) true /\
  (forall other qid,
     Db.getQuestionStatus other qid d'
     = Db.getQuestionStatus other qid Sample.verified) /\
  exists evs,
    log (student_next Sample.world Sample.alice (fresh d')).2
    = Queued [RollbackToSnapshot 101 "clean_start"] :: evs.
Proof.
  apply (restart_keeps_passed Sample.world Sample.world Sample.alice
           Sample.verified
           (Db.mkVmAssignment 1 101 "student-alice-1" (Some "10.0.0.5")
              "clean_start")
           Sample.E1 Sample.E2 []);
    vm_compute; reflexivity.
Defined.

End StartedAssigned.

(** ** More on waitForTask *)

Section WaitForTaskMore.
Import Pve.
Implicit Types w : TaskWorld.








End WaitForTaskMore.

(** ** The client of the control plane (src/pve.js) *)

Section Client.
Import PveClient.

Lemma client_bind_run {A B : Type} (m : M A) (f : A -> M B) l :
  (m ≫= f) l =
  match m l with
  | (Return a, l') => f a l'
  | (Throw e, l') => (Throw e, l')
  end.
Proof. reflexivity. Qed.

Lemma client_ret_run {A : Type} (a : A) l :
  (mret a : M A) l = (Return a, l).
Proof. reflexivity. Qed.

Lemma getPVETicket_token c w l :
  USE_PVE_TOKEN c = true -> getPVETicket c w l = (Return None, l).
Proof. intros Htok. unfold getPVETicket. by rewrite Htok. Qed.

Lemma getPVETicket_no_password c w l :
  USE_PVE_TOKEN c = false -> password c = "" ->
  getPVETicket c w l = (Throw password_unset, l).
Proof. intros Htok Hpw. unfold getPVETicket. by rewrite Htok, Hpw. Qed.

(** With a password, the one request and what becomes of its answer. *)
Lemma getPVETicket_password c w l :
  USE_PVE_TOKEN c = false -> password c <> "" ->
  getPVETicket c w l =
  (match axios w (length l) (ticket_request c) with
   | Return body =>
       if truthy_data (data body) then Return (Some (ticket_of (data body)))
       else Throw "PVE 認證失敗: 無法獲取 PVE Ticket"
   | Throw error => Throw ("PVE 認證失敗: " +:+ message error)
   end, l ++ [Http (ticket_request c)]).
Proof.
  intros Htok Hpw. unfold getPVETicket. rewrite Htok.
  destruct (password c) as [|ch pw] eqn:Hp; [done|]. cbn [Js.truthy negb].
  unfold try_catch. rewrite client_bind_run. unfold send at 1.
  destruct (axios w (length l) (ticket_request c)) as [body|error]; [|done].
  by destruct (truthy_data (data body)).
Qed.

(** X17.  checkPVEConnection never throws.  In token mode it reports ok
    without sending anything, so it says nothing about the control plane.
    Without a token and without a password it reports the missing password
    and sends nothing.  Otherwise it sends the one ticket request and
    reports ok exactly when the reply holds a truthy [data]; every other
    message starts with "PVE 認證失敗: ", also the one for a reply without
    data. *)
Theorem checkPVEConnection_cases c w l :
  exists ok msg l',
    checkPVEConnection c w l = (Return (ok, msg), l') /\
    (USE_PVE_TOKEN c = true ->
     ok = true /\ msg = "PVE 連線正常" /\ l' = l) /\
    (USE_PVE_TOKEN c = false -> password c = "" ->
     ok = false /\ msg = password_unset /\ l' = l) /\
    (USE_PVE_TOKEN c = false -> password c <> "" ->
     l' = l ++ [Http (ticket_request c)] /\
     (ok = true <->
      exists body, axios w (length l) (ticket_request c) = Return body /\
                   truthy_data (data body) = true) /\
     (ok = false -> Js.startsWith "PVE 認證失敗: " msg = true) /\
     (forall body, axios w (length l) (ticket_request c) = Return body ->
                   truthy_data (data body) = false ->
                   msg = "PVE 認證失敗: 無法獲取 PVE Ticket")).
Proof.
  unfold checkPVEConnection, try_catch. rewrite client_bind_run.
  destruct (USE_PVE_TOKEN c) eqn:Htok.
  - rewrite (getPVETicket_token c w l Htok). by eexists _, _, _.
  - destruct (decide (password c = "")) as [Hpw|Hpw].
    + rewrite (getPVETicket_no_password c w l Htok Hpw). by eexists _, _, _.
    + rewrite (getPVETicket_password c w l Htok Hpw).
      destruct (axios w (length l) (ticket_request c)) as [body|error].
      * destruct (truthy_data (data body)) eqn:Hd.
        -- eexists _, _, _. split; [done|]. split; [done|]. split; [done|].
           intros _ _. split; [done|]. split; [|split; [done|]].
           ++ split; [|done]. intros _. by exists body.
           ++ intros body' [= <-]. congruence.
        -- eexists _, _, _. split; [done|]. split; [done|]. split; [done|].
           intros _ _. split; [done|]. split; [|split].
           ++ split; [done|]. intros (body' & [= <-] & Hd'). congruence.
           ++ intros _. vm_compute. reflexivity.
           ++ done.
      * eexists _, _, _. split; [done|]. split; [done|]. split; [done|].
        intros _ _. split; [done|]. split; [|split].
        -- split; [done|]. by intros (body' & [=] & _).
        -- intros _. apply prefix_append.
        -- done.
Qed.

(** *** Token mode *)

Lemma token_only_ret {A : Type} c (a : A) : token_only c (mret a).
Proof. by intros l Hl. Qed.

Lemma token_only_throw {A : Type} c e : token_only c (throw e : M A).
Proof. by intros l Hl. Qed.

Lemma token_only_bind {A B : Type} c (m : M A) (f : A -> M B) :
  token_only c m -> (forall a, token_only c (f a)) -> token_only c (m ≫= f).
Proof.
  intros Hm Hf l Hl. rewrite client_bind_run. specialize (Hm l Hl).
  destruct (m l) as [[a|e] l']; [by apply Hf|done].
Qed.

Lemma token_only_try_catch {A : Type} c (m : M A) (h : string -> M A) :
  token_only c m -> (forall e, token_only c (h e)) ->
  token_only c (try_catch m h).
Proof.
  intros Hm Hh l Hl. unfold try_catch. specialize (Hm l Hl).
  destruct (m l) as [[a|e] l']; [done|by apply Hh].
Qed.

Lemma token_only_getPVETicket c w :
  USE_PVE_TOKEN c = true -> token_only c (getPVETicket c w).
Proof. intros Htok l Hl. by rewrite (getPVETicket_token c w l Htok). Qed.

Lemma token_only_pveRequest c w m p d t :
  USE_PVE_TOKEN c = true -> p <> ticket_path ->
  token_only c (pveRequest c w m p d t).
Proof.
  intros Htok Hp l Hl. unfold pveRequest. rewrite Htok.
  assert (Forall (token_event c)
            (l ++ [Http (mkHttpRequest m p (ApiToken (tokenId c) (tokenSecret c)) d)]))
    as Hl'.
  { apply Forall_app. split; [done|]. by repeat constructor. }
  rewrite client_bind_run. unfold mret at 1, M_ret at 1.
  rewrite client_bind_run. unfold send at 1.
  by destruct (axios w (length l) _).
Qed.

Lemma token_only_read_data c body : token_only c (read_data body).
Proof. destruct body; [apply token_only_throw|apply token_only_ret]. Qed.

Lemma token_only_sleep c ms : token_only c (sleep ms).
Proof.
  intros l Hl. unfold sleep. cbn [snd].
  apply Forall_app. split; [done|]. by repeat constructor.
Qed.

Lemma nodes_path_not_ticket rest :
  "/api2/json/nodes/" +:+ rest <> ticket_path.
Proof.
  intros Heq. pose proof (prefix_append "/api2/json/nodes/" rest) as Hpre.
  rewrite Heq in Hpre. vm_compute in Hpre. discriminate.
Qed.

Lemma token_only_loop c w taskId t timeout startTime fuel :
  USE_PVE_TOKEN c = true ->
  token_only c (waitForTask_loop c w taskId t timeout startTime fuel).
Proof.
  intros Htok. induction fuel as [|fuel IH]; intros l Hl; [done|].
  cbn [waitForTask_loop].
  destruct (now w l - startTime <? timeout)%Z; [|done].
  revert l Hl. apply token_only_bind.
  { apply token_only_pveRequest; [done|]. apply nodes_path_not_ticket. }
  intros status. apply token_only_bind; [apply token_only_read_data|].
  intros [[|s|o|shown truthy]|]; try apply token_only_throw.
  - case_bool_decide; [done|].
    apply token_only_bind; [apply token_only_sleep|by intros []].
  - case_bool_decide;
      [|apply token_only_bind; [apply token_only_sleep|by intros []]].
    case_bool_decide; [apply token_only_ret|apply token_only_throw].
  - case_bool_decide; [done|].
    apply token_only_bind; [apply token_only_sleep|by intros []].
Qed.

Lemma token_only_waitForTask c w taskId t :
  USE_PVE_TOKEN c = true -> token_only c (waitForTask c w taskId t).
Proof.
  intros Htok l Hl. unfold waitForTask. by apply token_only_loop.
Qed.

Lemma qemu_path_not_ticket c v rest : qemu_path c v rest <> ticket_path.
Proof. apply nodes_path_not_ticket. Qed.

Lemma nextid_path_not_ticket : nextid_path <> ticket_path.
Proof. vm_compute. discriminate. Qed.

Lemma token_only_getNextVMID c w :
  USE_PVE_TOKEN c = true -> token_only c (getNextVMID c w).
Proof.
  intros Htok. unfold getNextVMID.
  apply token_only_bind; [by apply token_only_getPVETicket|]. intros t.
  apply token_only_bind;
    [apply token_only_pveRequest; [done|apply nextid_path_not_ticket]|].
  intros body. apply token_only_bind; [apply token_only_read_data|].
  intros d. apply token_only_ret.
Qed.

Lemma token_only_task c w m p d :
  USE_PVE_TOKEN c = true -> p <> ticket_path ->
  forall {A : Type} (k : option Data -> A),
    token_only c
      (t ← getPVETicket c w;
       result ← pveRequest c w m p d t;
       taskId ← read_data result;
       _ ← waitForTask c w taskId t;
       mret (k taskId)).
Proof.
  intros Htok Hp A k.
  apply token_only_bind; [by apply token_only_getPVETicket|]. intros t.
  apply token_only_bind; [by apply token_only_pveRequest|]. intros result.
  apply token_only_bind; [apply token_only_read_data|]. intros taskId.
  apply token_only_bind; [by apply token_only_waitForTask|]. intros _.
  apply token_only_ret.
Qed.

Lemma token_only_stopVM c w v :
  USE_PVE_TOKEN c = true -> token_only c (stopVM c w v).
Proof.
  intros Htok.
  exact (token_only_task c w POST _ EmptyObject Htok
           (qemu_path_not_ticket c _ _) (fun taskId => (v, taskId))).
Qed.

Lemma token_only_getVMStatus c w v :
  USE_PVE_TOKEN c = true -> token_only c (getVMStatus c w v).
Proof.
  intros Htok. unfold getVMStatus.
  apply token_only_bind; [by apply token_only_getPVETicket|]. intros t.
  apply token_only_bind;
    [apply token_only_pveRequest; [done|apply qemu_path_not_ticket]|].
  intros body. apply token_only_read_data.
Qed.

(** X18.  In token mode no operation asks for a ticket.  When a token id
    and secret are configured, every request that any exported operation
    sends, the status requests of waitForTask among them, carries the API
    token, and none goes to the ticket endpoint: the password, if there
    is one, is never sent. *)
Theorem token_mode_never_asks_for_ticket c w op l :
  USE_PVE_TOKEN c = true ->
  Forall (token_event c) l ->
  Forall (token_event c) (perform c w op l).2.
Proof.
  intros Htok. revert l. change (token_only c (perform c w op)).
  destruct op as [vmid vmName|v n|v n|v|v|v|v|v| |]; unfold perform;
    (apply token_only_bind; [|intros ?; apply token_only_ret]).
  - unfold cloneVM.
    apply token_only_bind; [by apply token_only_getPVETicket|]. intros t.
    apply token_only_bind.
    { destruct (id_given vmid);
        [apply token_only_ret|by apply token_only_getNextVMID]. }
    intros newVmid.
    apply token_only_bind;
      [apply token_only_pveRequest; [done|apply qemu_path_not_ticket]|].
    intros result.
    apply token_only_bind; [apply token_only_read_data|]. intros taskId.
    apply token_only_bind; [by apply token_only_waitForTask|]. intros _.
    apply token_only_ret.
  - exact (token_only_task c w POST _ _ Htok (qemu_path_not_ticket c _ _)
             (fun taskId => (n, taskId))).
  - exact (token_only_task c w POST _ _ Htok (qemu_path_not_ticket c _ _)
             (fun taskId => (n, taskId))).
  - exact (token_only_task c w POST _ _ Htok (qemu_path_not_ticket c _ _)
             (fun taskId => (v, taskId))).
  - by apply token_only_stopVM.
  - unfold destroyVM.
    apply token_only_bind; [by apply token_only_getPVETicket|]. intros t.
    apply token_only_bind.
    { apply token_only_try_catch; [|intros e; apply token_only_ret].
      apply token_only_bind; [by apply token_only_stopVM|].
      intros ?. apply token_only_ret. }
    intros _.
    apply token_only_bind;
      [apply token_only_pveRequest; [done|apply qemu_path_not_ticket]|].
    intros _. apply token_only_ret.
  - by apply token_only_getVMStatus.
  - intros l Hl. unfold getVMIP.
    pose proof (token_only_getVMStatus c w v Htok l Hl) as H.
    by destruct (getVMStatus c w v l) as [[d|e] l'].
  - unfold checkPVEConnection.
    apply token_only_try_catch; [|intros e; apply token_only_ret].
    apply token_only_bind; [by apply token_only_getPVETicket|].
    intros ?. apply token_only_ret.
  - by apply token_only_getNextVMID.
Qed.

Lemma token_mode_never_asks_for_ticket_witness :
  let tok := ApiToken "trainer@pve!meow" "5f1c0c9e" in
  let log := (perform SampleClient.with_token SampleClient.answers
                (OpCloneVM None (Some "student-alice-1")) []).2 in
  log = [ Http (mkHttpRequest GET "/api2/json/cluster/nextid" tok NoData);
          Http (mkHttpRequest POST "/api2/json/nodes/pve/qemu/100/clone" tok
                  (CloneData (Some 101%Z) "student-alice-1" "local-lvm" 0));
          Http (mkHttpRequest GET
                  "/api2/json/nodes/pve/tasks/UPID:pve:0001:task/status"
                  tok NoData) ] /\
  Forall (token_event SampleClient.with_token) log.
Proof.
  split; [vm_compute; reflexivity|].
  apply token_mode_never_asks_for_ticket; [vm_compute; reflexivity|].
  constructor.
Defined.

(** *** What the operations fail with *)

Lemma getPVETicket_some c w l t l' :
  USE_PVE_TOKEN c = false ->
  getPVETicket c w l = (Return t, l') -> exists tk, t = Some tk.
Proof.
  intros Htok. destruct (decide (password c = "")) as [Hpw|Hpw].
  - by rewrite (getPVETicket_no_password c w l Htok Hpw).
  - rewrite (getPVETicket_password c w l Htok Hpw).
    destruct (axios w _ _) as [body|error]; [|done].
    destruct (truthy_data (data body)); [|done].
    intros [= <- _]. by eexists.
Qed.


















(** X20.  No ticket, no request.  Every exported operation begins with
    getPVETicket.  If that fails (no password configured, the ticket
    request refused, a reply without data), the operation sends nothing
    further, and, unless it is one of the two that swallow errors, it
    throws that very error. *)
Theorem no_ticket_no_request c w op l e l1 :
  getPVETicket c w l = (Throw e, l1) ->
  (perform c w op l).2 = l1 /\
  (swallows op = false -> (perform c w op l).1 = Throw e).
Proof.
  intros Hticket.
  destruct op as [vmid vmName|v n|v n|v|v|v|v|v| |]; unfold perform;
    rewrite client_bind_run.
  - unfold cloneVM. by rewrite client_bind_run, Hticket.
  - unfold createSnapshot. by rewrite client_bind_run, Hticket.
  - unfold rollbackToSnapshot. by rewrite client_bind_run, Hticket.
  - unfold startVM. by rewrite client_bind_run, Hticket.
  - unfold stopVM. by rewrite client_bind_run, Hticket.
  - unfold destroyVM. by rewrite client_bind_run, Hticket.
  - unfold getVMStatus. by rewrite client_bind_run, Hticket.
  - unfold getVMIP, getVMStatus. by rewrite client_bind_run, Hticket.
  - unfold checkPVEConnection, try_catch.
    by rewrite client_bind_run, Hticket.
  - unfold getNextVMID. by rewrite client_bind_run, Hticket.
Qed.

Lemma no_ticket_no_request_witness :
  (perform SampleClient.with_password SampleClient.refuses
     (OpStartVM 105) []).2
  = [Http (ticket_request SampleClient.with_password)] /\
  (swallows (OpStartVM 105) = false ->
   (perform SampleClient.with_password SampleClient.refuses
      (OpStartVM 105) []).1
   = Throw "PVE 認證失敗: Request failed with status code 401").
Proof.
  apply no_ticket_no_request. vm_compute. reflexivity.
Defined.

(** *** The log only grows, and the clock with it *)

Lemma extends_ret {A : Type} (a : A) : extends (mret a : M A).
Proof. intros l. exists []. cbn. by rewrite app_nil_r. Qed.

Lemma extends_throw {A : Type} e : extends (throw e : M A).
Proof. intros l. exists []. cbn. by rewrite app_nil_r. Qed.

Lemma extends_bind {A B : Type} (m : M A) (f : A -> M B) :
  extends m -> (forall a, extends (f a)) -> extends (m ≫= f).
Proof.
  intros Hm Hf l. rewrite client_bind_run. destruct (Hm l) as [evs Hevs].
  destruct (m l) as [[a|e] l1]; cbn [snd] in Hevs; subst l1.
  - destruct (Hf a (l ++ evs)) as [evs' ->]. exists (evs ++ evs').
    by rewrite app_assoc.
  - by exists evs.
Qed.

Lemma extends_try_catch {A : Type} (m : M A) (h : string -> M A) :
  extends m -> (forall e, extends (h e)) -> extends (try_catch m h).
Proof.
  intros Hm Hh l. unfold try_catch. destruct (Hm l) as [evs Hevs].
  destruct (m l) as [[a|e] l1]; cbn [snd] in Hevs; subst l1.
  - by exists evs.
  - destruct (Hh e (l ++ evs)) as [evs' ->]. exists (evs ++ evs').
    by rewrite app_assoc.
Qed.

Lemma extends_read_data body : extends (read_data body).
Proof. destruct body; [apply extends_throw|apply extends_ret]. Qed.

Lemma extends_send w r : extends (send w r).
Proof. intros l. by exists [Http r]. Qed.

Lemma extends_getPVETicket c w : extends (getPVETicket c w).
Proof.
  unfold getPVETicket. destruct (USE_PVE_TOKEN c); [apply extends_ret|].
  destruct (negb _); [apply extends_throw|].
  apply extends_try_catch; [|intros e; apply extends_throw].
  apply extends_bind; [apply extends_send|]. intros [body|error].
  - destruct (truthy_data _); [apply extends_ret|apply extends_throw].
  - apply extends_throw.
Qed.

Lemma extends_pveRequest c w m p d t : extends (pveRequest c w m p d t).
Proof.
  unfold pveRequest. apply extends_bind.
  - destruct (USE_PVE_TOKEN c); [apply extends_ret|].
    apply extends_bind.
    + destruct t; [apply extends_ret|apply extends_getPVETicket].
    + intros [tk|]; [apply extends_ret|apply extends_throw].
  - intros a. apply extends_bind; [apply extends_send|].
    intros [body|error]; [apply extends_ret|apply extends_throw].
Qed.

Lemma elapsed_app w k l l' :
  elapsed w k (l ++ l') = (elapsed w k l + elapsed w (k + length l) l')%Z.
Proof.
  revert k. induction l as [|e l IH]; intros k.
  - cbn. by rewrite Nat.add_0_r.
  - cbn [app elapsed length]. rewrite IH.
    replace (S k + length l) with (k + S (length l)) by lia. lia.
Qed.

Lemma elapsed_nonneg w k l : (0 <= elapsed w k l)%Z.
Proof.
  revert k. induction l as [|e l IH]; intros k; [done|].
  cbn [elapsed]. specialize (IH (S k)). destruct e; lia.
Qed.

(** After a request and a sleep of 2000 ms the clock is at least 2000 ms
    further. *)
Lemma now_after_sleep w l evs :
  (now w l + 2000 <= now w ((l ++ evs) ++ [Timer 2000]))%Z.
Proof.
  unfold now. rewrite !elapsed_app. cbn [elapsed].
  pose proof (elapsed_nonneg w (0 + length l) evs). lia.
Qed.

(** Fuel beyond what the budget asks for changes nothing: the loop ends
    at a loop test that finds the budget spent, if not earlier. *)
Lemma waitForTask_loop_fuel c w taskId t timeout startTime fuel n l :
  (timeout - (now w l - startTime) <= 2000 * (Z.of_nat fuel - 1))%Z ->
  waitForTask_loop c w taskId t timeout startTime (fuel + n) l
  = waitForTask_loop c w taskId t timeout startTime fuel l.
Proof.
  revert l. induction fuel as [|fuel IH]; intros l Hbudget.
  - destruct n as [|n]; [done|]. cbn [Nat.add waitForTask_loop].
    destruct (Z.ltb_spec (now w l - startTime) timeout); [lia|done].
  - change (S fuel + n) with (S (fuel + n)). cbn [waitForTask_loop].
    destruct (now w l - startTime <? timeout)%Z; [|done].
    rewrite !client_bind_run.
    destruct (extends_pveRequest c w GET (task_path c taskId) NoData t l)
      as [evs Hevs].
    destruct (pveRequest c w GET (task_path c taskId) NoData t l)
      as [[status|e] l1]; [|done].
    cbn [snd] in Hevs. subst l1. rewrite !client_bind_run.
    destruct status as [|[[|s|o|shown truthy]|]]; try done;
      unfold read_data; rewrite !client_ret_run;
      (case_bool_decide; [done|]); rewrite !client_bind_run;
      unfold sleep; apply IH;
      pose proof (now_after_sleep w l evs); lia.
Qed.

(** [waitForTask] has all the fuel it can use. *)
Lemma waitForTask_fuel c w taskId t n l :
  waitForTask_loop c w taskId t Pve.default_timeout (now w l)
    (Pve.enough_fuel Pve.default_timeout + n) l
  = waitForTask c w taskId t l.
Proof.
  unfold waitForTask. apply waitForTask_loop_fuel.
  replace (Pve.enough_fuel Pve.default_timeout) with 152 by reflexivity.
  unfold Pve.default_timeout. lia.
Qed.

Lemma extends_loop c w taskId t timeout startTime fuel :
  extends (waitForTask_loop c w taskId t timeout startTime fuel).
Proof.
  induction fuel as [|fuel IH]; intros l.
  { exists []. cbn. by rewrite app_nil_r. }
  cbn [waitForTask_loop].
  destruct (now w l - startTime <? timeout)%Z;
    [|exists []; cbn; by rewrite app_nil_r].
  revert l. apply extends_bind; [apply extends_pveRequest|].
  intros status. apply extends_bind; [apply extends_read_data|].
  intros [[|s|o|shown truthy]|]; try apply extends_throw.
  - case_bool_decide; [done|].
    apply extends_bind; [by intros l; exists [Timer 2000%N]|by intros []].
  - case_bool_decide;
      [|apply extends_bind;
        [by intros l; exists [Timer 2000%N]|by intros []]].
    case_bool_decide; [apply extends_ret|apply extends_throw].
  - case_bool_decide; [done|].
    apply extends_bind; [by intros l; exists [Timer 2000%N]|by intros []].
Qed.

Lemma extends_waitForTask c w taskId t : extends (waitForTask c w taskId t).
Proof. intros l. unfold waitForTask. apply extends_loop. Qed.

(** *** The polling loop and its requests *)

(** With a token, or with a ticket at hand, a request is one call of
    axios. *)
Lemma pveRequest_sends c w t :
  USE_PVE_TOKEN c = true \/ is_Some t ->
  exists a,
    (USE_PVE_TOKEN c = true /\ a = ApiToken (tokenId c) (tokenSecret c) \/
     exists tk, t = Some tk /\ a = Cookie tk) /\
    forall m p d l,
      pveRequest c w m p d t l =
      (match axios w (length l) (mkHttpRequest m p a d) with
       | Return body => Return body
       | Throw error => Throw ("PVE API 錯誤: " +:+ error_text error)
       end, l ++ [Http (mkHttpRequest m p a d)]).
Proof.
  intros Hmode. destruct (USE_PVE_TOKEN c) eqn:Htok.
  - eexists. split; [by left|]. intros m p d l.
    unfold pveRequest. rewrite Htok.
    rewrite client_bind_run. unfold mret at 1, M_ret at 1.
    rewrite client_bind_run. unfold send at 1.
    by destruct (axios w (length l) _).
  - destruct Hmode as [|[tk ->]]; [done|].
    exists (Cookie tk). split; [right; by exists tk|]. intros m p d l.
    unfold pveRequest. rewrite Htok.
    rewrite client_bind_run, client_bind_run.
    unfold mret at 1, M_ret at 1. unfold mret at 1, M_ret at 1.
    rewrite client_bind_run. unfold send at 1.
    by destruct (axios w (length l) _).
Qed.

Lemma now_after_request w l r :
  now w (l ++ [Http r]) = (now w l + Z.of_N (took w (length l)))%Z.
Proof. unfold now. rewrite elapsed_app. cbn [elapsed Nat.add]. lia. Qed.

Lemma now_after_timer w l ms :
  now w (l ++ [Timer ms])
  = (now w l + Z.of_N (took w (length l)) + Z.of_N ms)%Z.
Proof. unfold now. rewrite elapsed_app. cbn [elapsed Nat.add]. lia. Qed.

Lemma stopped_status o :
  String.eqb (default "" o) "stopped" = bool_decide (o = Some "stopped").
Proof.
  destruct o as [s|]; cbn [default].
  - unfold id. destruct (String.eqb_spec s "stopped") as [->|Hne].
    + by rewrite bool_decide_eq_true_2.
    + rewrite bool_decide_eq_false_2; [done|]. by intros [= ->].
  - by rewrite bool_decide_eq_false_2.
Qed.

(** The loop of the client is the loop of [Pve] on the control plane its
    requests see: same result, at the same time. *)
Lemma loop_polls c w taskId t a n timeout startTime :
  (forall m p d l,
      pveRequest c w m p d t l =
      (match axios w (length l) (mkHttpRequest m p a d) with
       | Return body => Return body
       | Throw error => Throw ("PVE API 錯誤: " +:+ error_text error)
       end, l ++ [Http (mkHttpRequest m p a d)])) ->
  forall fuel k l r t1,
    length l = n + 2 * k ->
    Pve.waitForTask_loop (plane c w taskId a n) startTime timeout fuel k
      (now w l) = Some (r, t1) ->
    (waitForTask_loop c w taskId t timeout startTime fuel l).1 = settled r /\
    now w (waitForTask_loop c w taskId t timeout startTime fuel l).2 = t1.
Proof.
  intros Hreq. induction fuel as [|fuel IH]; intros k l r t1 Hlen; [done|].
  cbn [Pve.waitForTask_loop waitForTask_loop]. unfold Pve.turn.
  destruct (now w l - startTime <? timeout)%Z; [|by intros [= <- <-]].
  rewrite client_bind_run, Hreq. fold (status_request c taskId a).
  cbn [plane Pve.request Pve.overrun]. rewrite Hlen.
  pose proof (now_after_request w l (status_request c taskId a)) as Hnow.
  rewrite Hlen in Hnow.
  destruct (axios w (n + 2 * k) (status_request c taskId a))
    as [[|[[|s|o|shown truthy]|]]|error]; cbn [reply_of];
    rewrite ?client_bind_run; unfold read_data, throw;
    rewrite ?client_ret_run;
    try (intros [= <- <-]; cbn [fst snd settled Pve.message
                                 Pve.unreadable_message];
         by rewrite Hnow).
  all: cbn [Pve.status Pve.exitstatus]; rewrite stopped_status.
  all: case_bool_decide as Hstopped;
    [try done; case_bool_decide; intros [= <- <-];
     rewrite ?client_ret_run; cbn [fst snd settled Pve.message];
     (split; [done|by rewrite Hnow])|].
  all: rewrite client_bind_run; unfold sleep; cbv beta iota;
    pose proof (now_after_timer w (l ++ [Http (status_request c taskId a)])
                  2000) as Hnow';
    rewrite length_app, Hlen in Hnow'; cbn [length] in Hnow';
    intros Hloop; apply (IH (S k));
      [rewrite !length_app; cbn [length]; lia|];
    rewrite Hnow', Hnow; unfold Pve.poll_interval in Hloop;
    replace (now w l + Z.of_N (took w (n + 2 * k))
             + Z.of_N (took w (n + 2 * k + 1)) + Z.of_N 2000)%Z
      with (now w l + Z.of_N (took w (n + 2 * k)) + 2000
            + Z.of_N (took w (n + 2 * k + 1)))%Z by lia;
    exact Hloop.
Qed.

(** [waitForTask], as the operations call it, is the polling call of
    [Pve] on the control plane its requests see. *)
Lemma waitForTask_polls c w taskId t l :
  USE_PVE_TOKEN c = true \/ is_Some t ->
  exists a r t1,
    (USE_PVE_TOKEN c = true /\ a = ApiToken (tokenId c) (tokenSecret c) \/
     exists tk, t = Some tk /\ a = Cookie tk) /\
    Pve.waitForTask (plane c w taskId a (length l)) Pve.default_timeout
      (Pve.enough_fuel Pve.default_timeout) (now w l) = Some (r, t1) /\
    (waitForTask c w taskId t l).1 = settled r /\
    now w (waitForTask c w taskId t l).2 = t1.
Proof.
  intros Hmode. destruct (pveRequest_sends c w t Hmode) as (a & Ha & Hreq).
  exists a.
  destruct (Pve.waitForTask (plane c w taskId a (length l))
              Pve.default_timeout (Pve.enough_fuel Pve.default_timeout)
              (now w l)) as [[r t1]|] eqn:Hw.
  - exists r, t1. split; [exact Ha|]. split; [done|].
    unfold waitForTask.
    apply (loop_polls c w taskId t a (length l) _ _ Hreq _ 0); [lia|].
    exact Hw.
  - apply waitForTask_pending_iff in Hw as (k & _ & _ & Hreq').
    discriminate Hreq'.
Qed.

(** *** destroyVM and cloneVM *)

(** X21.  destroyVM deletes whatever stopVM does.  Once destroyVM has its
    ticket, the DELETE request is sent after stopVM has run, whether
    stopVM succeeded, failed at its request or failed waiting; it carries
    the API token or the cookie of destroyVM's own ticket.  Nothing
    follows it: the deletion task is not waited for, and destroyVM
    resolves as soon as the request is accepted. *)
Theorem destroyVM_deletes_whatever_stop_does c w v l t l1 :
  getPVETicket c w l = (Return t, l1) ->
  let l2 := (stopVM c w v l1).2 in
  exists a,
    let del := mkHttpRequest DELETE (qemu_path c (Js.show v) "") a NoData in
    (a = ApiToken (tokenId c) (tokenSecret c) \/
     exists tk, t = Some tk /\ a = Cookie tk) /\
    destroyVM c w v l =
    (match axios w (length l2) del with
     | Return _ => Return (v, true)
     | Throw error => Throw ("PVE API 錯誤: " +:+ error_text error)
     end, l2 ++ [Http del]).
Proof.
  intros Hticket l2.
  assert (exists a,
            (a = ApiToken (tokenId c) (tokenSecret c) \/
             exists tk, t = Some tk /\ a = Cookie tk) /\
            forall m p d l0,
              pveRequest c w m p d t l0 =
              (match axios w (length l0) (mkHttpRequest m p a d) with
               | Return body => Return body
               | Throw error => Throw ("PVE API 錯誤: " +:+ error_text error)
               end, l0 ++ [Http (mkHttpRequest m p a d)])) as (a & Ha & Hreq).
  { destruct (USE_PVE_TOKEN c) eqn:Htok.
    - eexists. split; [by left|]. intros m p d l0.
      unfold pveRequest. rewrite Htok.
      rewrite client_bind_run. unfold mret at 1, M_ret at 1.
      rewrite client_bind_run. unfold send at 1.
      by destruct (axios w (length l0) _).
    - destruct (getPVETicket_some c w l t l1 Htok Hticket) as [tk ->].
      exists (Cookie tk). split; [right; by exists tk|]. intros m p d l0.
      unfold pveRequest. rewrite Htok.
      rewrite client_bind_run, client_bind_run.
      unfold mret at 1, M_ret at 1. unfold mret at 1, M_ret at 1.
      rewrite client_bind_run. unfold send at 1.
      by destruct (axios w (length l0) _). }
  exists a. split; [exact Ha|].
  unfold destroyVM. rewrite client_bind_run, Hticket.
  rewrite client_bind_run. unfold try_catch at 1.
  rewrite client_bind_run. subst l2.
  destruct (stopVM c w v l1) as [[r|e] l2]; cbn [snd];
    unfold mret at 1, M_ret at 1;
    rewrite client_bind_run, Hreq;
    by destruct (axios w (length l2) _).
Qed.

Lemma destroyVM_deletes_whatever_stop_does_witness :
  exists a,
    let del := mkHttpRequest DELETE "/api2/json/nodes/pve/qemu/105" a NoData in
    (a = ApiToken "trainer@pve!meow" "5f1c0c9e" \/
     exists tk, None = Some tk /\ a = Cookie tk) /\
    destroyVM SampleClient.with_token SampleClient.refuses 105 [] =
    (Return (105%N, true),
     [Http (mkHttpRequest POST "/api2/json/nodes/pve/qemu/105/status/stop"
              (ApiToken "trainer@pve!meow" "5f1c0c9e") EmptyObject);
      Http del]).
Proof.
  destruct (destroyVM_deletes_whatever_stop_does SampleClient.with_token
              SampleClient.refuses 105 [] None [] eq_refl)
    as (a & [->|(tk & [=] & _)] & Hrun).
  eexists. split; [by left|]. rewrite Hrun. vm_compute. reflexivity.
Defined.

(** *** parseInt within the safe integers *)

Lemma skip_length n s : String.length (Js.skip n s) <= String.length s.
Proof.
  revert s. induction n as [|n IH]; intros [|ch s]; cbn; try lia.
  specialize (IH s). lia.
Qed.

Lemma strip_one_length seqs s s' :
  Js.strip_one seqs s = Some s' -> String.length s' <= String.length s.
Proof.
  induction seqs as [|p seqs IH]; [done|]. cbn [Js.strip_one].
  destruct (String.prefix p s); [|exact IH].
  intros [= <-]. apply skip_length.
Qed.

Lemma strip_length seqs fuel s :
  String.length (Js.strip seqs fuel s) <= String.length s.
Proof.
  revert s. induction fuel as [|fuel IH]; intros s; [done|].
  cbn [Js.strip]. destruct (Js.strip_one seqs s) as [s'|] eqn:Hone; [|done].
  pose proof (strip_one_length seqs s s' Hone). specialize (IH s'). lia.
Qed.

Lemma digit_range ch v : digit ch = Some v -> (0 <= v <= 9)%Z.
Proof.
  unfold digit. destruct (_ && _) eqn:Hch; [|done].
  apply andb_prop in Hch as [Hlo Hhi].
  apply Nat.leb_le in Hlo, Hhi. intros [= <-]. lia.
Qed.

Lemma digits_range s k acc z :
  (0 <= default 0 acc < 10 ^ Z.of_nat k)%Z ->
  digits acc s = Some z ->
  (0 <= z < 10 ^ Z.of_nat (k + String.length s))%Z.
Proof.
  revert k acc. induction s as [|ch s IH]; intros k acc Hacc.
  - cbn [digits String.length]. intros ->. by rewrite Nat.add_0_r.
  - cbn [digits String.length].
    destruct (digit ch) as [v|] eqn:Hv.
    + intros Hz. apply digit_range in Hv.
      replace (k + S (String.length s)) with (S k + String.length s) by lia.
      apply (IH (S k) (Some (10 * default 0 acc + v)%Z)); [|exact Hz].
      set (a := default 0%Z acc) in *.
      change (0 <= 10 * a + v < 10 ^ Z.of_nat (S k))%Z.
      rewrite Nat2Z.inj_succ, Z.pow_succ_r by lia. lia.
    + intros ->. change (0 <= z < 10 ^ Z.of_nat k)%Z in Hacc.
      assert (10 ^ Z.of_nat k <= 10 ^ Z.of_nat (k + S (String.length s)))%Z
        by (apply Z.pow_le_mono_r; lia).
      lia.
Qed.

(** What [parseInt] makes of at most fifteen bytes is a safe integer. *)
Lemma parseInt_safe s z :
  String.length s <= 15 -> parseInt s = Some z -> safe_integer z.
Proof.
  intros Hlen. unfold parseInt, Js.trimStart.
  pose proof (strip_length Js.white_space (String.length s) s) as Hstrip.
  set (r := Js.strip Js.white_space (String.length s) s) in *.
  assert (forall r' z', String.length r' <= 15 ->
                        digits None r' = Some z' -> safe_integer z'
                        /\ safe_integer (- z')) as Hdigits.
  { intros r' z' Hr' Hz'.
    apply (digits_range r' 0) in Hz'; [|done].
    assert (10 ^ Z.of_nat (0 + String.length r') <= 10 ^ 15)%Z
      by (apply Z.pow_le_mono_r; lia).
    assert (10 ^ 15 < 2 ^ 53)%Z by done.
    unfold safe_integer. lia. }
  assert (forall r', String.length r' <= 15 ->
                     Z.opp <$> digits None r' = Some z -> safe_integer z)
    as Hneg.
  { intros r' Hr'. destruct (digits None r') as [z'|] eqn:Hz'; [|done].
    intros [= <-]. by apply (Hdigits r' z'). }
  assert (forall r', String.length r' <= 15 ->
                     digits None r' = Some z -> safe_integer z) as Hpos.
  { intros r' Hr' Hz. by apply (Hdigits r' z). }
  destruct r as [|ch r']; [by apply Hpos; cbn; lia|].
  cbn [String.length] in Hstrip.
  destruct ch as [[] [] [] [] [] [] [] []];
    try (apply Hpos; cbn [String.length]; lia);
    try (apply Hneg; lia); try (apply Hpos; lia).
Qed.

(** X22.  Which id cloneVM clones to.  In token mode the first request of
    cloneVM(vmid, name) is the clone itself when vmid is a non-zero safe
    integer, with that id.  When vmid is missing or 0, the first request
    asks for the next free id.  A reply whose body is null ends the
    operation there, as a failed request does.  Otherwise the clone
    follows, with whatever parseInt makes of the data of the reply,
    without a check: when the data, rendered as a string, takes at most
    fifteen bytes, the number its leading digits denote, which is a safe
    integer, and the id NaN when it holds no number.  The name is the one
    given, or student-vm-<id> when it is missing or empty. *)
Theorem cloneVM_chooses_id c w vmid vmName l :
  USE_PVE_TOKEN c = true ->
  let tok := ApiToken (tokenId c) (tokenSecret c) in
  let clone newVmid :=
    mkHttpRequest POST (qemu_path c (Js.show (templateVmid c)) "/clone") tok
      (CloneData newVmid
         (Js.or_else vmName ("student-vm-" +:+ show_number newVmid))
         (storage c) 0) in
  let nextid := mkHttpRequest GET nextid_path tok NoData in
  (forall z,
     vmid = Some z -> z <> 0%Z -> safe_integer z ->
     exists rest,
       (cloneVM c w vmid vmName l).2 = l ++ Http (clone vmid) :: rest)
  /\
  (id_given vmid = false ->
   exists rest,
     (cloneVM c w vmid vmName l).2 = l ++ Http nextid :: rest /\
     match axios w (length l) nextid with
     | Return (mkBody d) =>
         within_parseInt d ->
         (forall z, parseInt_data d = Some z -> safe_integer z) /\
         exists rest',
           rest = Http (clone (parseInt_data d)) :: rest'
     | Return JsonNull =>
         rest = [] /\
         (cloneVM c w vmid vmName l).1
         = Throw "Cannot read properties of null (reading 'data')"
     | Throw error =>
         rest = [] /\
         (cloneVM c w vmid vmName l).1
         = Throw ("PVE API 錯誤: " +:+ error_text error)
     end).
Proof.
  intros Htok tok clone nextid.
  assert (forall m p d t l0,
            pveRequest c w m p d t l0 =
            (match axios w (length l0) (mkHttpRequest m p tok d) with
             | Return body => Return body
             | Throw error => Throw ("PVE API 錯誤: " +:+ error_text error)
             end, l0 ++ [Http (mkHttpRequest m p tok d)])) as Hreq.
  { intros m p d t l0. unfold pveRequest. rewrite Htok.
    rewrite client_bind_run. unfold mret at 1, M_ret at 1.
    rewrite client_bind_run. unfold send at 1.
    by destruct (axios w (length l0) _). }
  assert (forall newVmid l0,
            exists rest,
              ((result ← pveRequest c w POST
                           (qemu_path c (Js.show (templateVmid c)) "/clone")
                           (CloneData newVmid
                              (Js.or_else vmName
                                 ("student-vm-" +:+ show_number newVmid))
                              (storage c) 0) None;
                taskId ← read_data result;
                _ ← waitForTask c w taskId None;
                mret (newVmid, taskId)) l0).2
              = l0 ++ Http (clone newVmid) :: rest) as Hclone.
  { intros newVmid l0. rewrite client_bind_run, Hreq. fold (clone newVmid).
    destruct (axios w (length l0) (clone newVmid)) as [[|taskId]|error];
      [by exists []| |by exists []].
    rewrite client_bind_run. unfold read_data. rewrite client_ret_run.
    rewrite client_bind_run.
    destruct (extends_waitForTask c w taskId None
                (l0 ++ [Http (clone newVmid)])) as [evs Hevs].
    exists evs.
    destruct (waitForTask c w taskId None _) as [[b|e1] l1];
      cbn [snd] in Hevs |- *; subst l1; by rewrite <- app_assoc. }
  split.
  - intros z -> Hz _.
    assert (id_given (Some z) = true) as Hid
      by (cbn; by apply negb_true_iff, Z.eqb_neq).
    unfold cloneVM. rewrite client_bind_run, (getPVETicket_token c w l Htok).
    rewrite client_bind_run, Hid. unfold mret at 1, M_ret at 1.
    apply Hclone.
  - intros Hid.
    unfold cloneVM. rewrite client_bind_run, (getPVETicket_token c w l Htok).
    assert (getNextVMID c w l =
            (match axios w (length l) nextid with
             | Return JsonNull =>
                 Throw "Cannot read properties of null (reading 'data')"
             | Return (mkBody d) => Return (parseInt_data d)
             | Throw error => Throw ("PVE API 錯誤: " +:+ error_text error)
             end, l ++ [Http nextid])) as Hnext.
    { unfold getNextVMID.
      rewrite client_bind_run, (getPVETicket_token c w l Htok).
      rewrite client_bind_run, Hreq. fold nextid.
      by destruct (axios w (length l) nextid) as [[|d]|error]. }
    rewrite client_bind_run, Hid, Hnext.
    destruct (axios w (length l) nextid) as [[|d]|error].
    + exists []. repeat split; reflexivity.
    + destruct (Hclone (parseInt_data d) (l ++ [Http nextid]))
        as [rest' Hrest'].
      rewrite Hrest'. rewrite <- app_assoc. cbn [app].
      eexists. split; [reflexivity|]. intros Hd. split; [|by exists rest'].
      intros z. by apply parseInt_safe.
    + exists []. repeat split; reflexivity.
Qed.

Lemma cloneVM_chooses_id_witness :
  (exists rest,
     (cloneVM SampleClient.with_token SampleClient.answers (Some 105%Z)
        (Some "lab") []).2
     = Http (mkHttpRequest POST "/api2/json/nodes/pve/qemu/100/clone"
               (ApiToken "trainer@pve!meow" "5f1c0c9e")
               (CloneData (Some 105%Z) "lab" "local-lvm" 0)) :: rest)
  /\
  (exists rest,
     (cloneVM SampleClient.with_token SampleClient.answers (Some 0%Z) None
        []).2
     = Http (mkHttpRequest GET nextid_path
               (ApiToken "trainer@pve!meow" "5f1c0c9e") NoData)
       :: Http (mkHttpRequest POST "/api2/json/nodes/pve/qemu/100/clone"
                  (ApiToken "trainer@pve!meow" "5f1c0c9e")
                  (CloneData (Some 101%Z) "student-vm-101" "local-lvm" 0))
       :: rest).
Proof.
  split.
  - destruct (cloneVM_chooses_id SampleClient.with_token SampleClient.answers
                (Some 105%Z) (Some "lab") [] eq_refl) as [Hgiven _].
    apply (Hgiven 105%Z); [reflexivity|lia|].
    unfold safe_integer. vm_compute. reflexivity.
  - destruct (cloneVM_chooses_id SampleClient.with_token SampleClient.answers
                (Some 0%Z) None [] eq_refl) as [_ Hfalsy].
    destruct (Hfalsy eq_refl) as (rest & Hlog & Hrest).
    change (axios SampleClient.answers (length []) _)
      with (Return (mkBody (Some (DString "101"))) : Outcome AxiosError Body)
      in Hrest.
    cbv beta iota in Hrest.
    destruct Hrest as [_ [rest' ->]]; [vm_compute; lia|].
    exists rest'. rewrite Hlog. reflexivity.
Defined.

End Client.

(** ** chunkText (src/rag.js) *)

Section ChunkText.
Import Rag.

Lemma gathered_lines s : gathered (Shell.lines s) = Js.nl +:+ s.
Proof.
  induction s as [|c s IH]; [done|].
  rewrite lines_cons. destruct (Ascii.eqb_spec c Js.LF) as [->|Hc].
  - cbn [gathered]. by rewrite IH, append_nil_l.
  - destruct (Shell.lines s) as [|l ls] eqn:Hl;
      [by destruct (lines_nonempty s)|].
    cbn [gathered] in *. unfold Js.nl in *.
    rewrite !append_cons, !append_nil_l in *.
    injection IH as IH. by rewrite IH.
Qed.

Lemma trim_after_nl s : Js.trim (Js.nl +:+ s) = Js.trim s.
Proof.
  unfold Js.nl. rewrite append_cons, append_nil_l.
  unfold Js.trim. f_equal. unfold Js.trimStart.
  cbn [String.length Js.strip].
  assert (Js.strip_one Js.white_space (String Js.LF s) = Some s) as Hone
    by (by destruct s).
  by rewrite Hone.
Qed.

Lemma units_length_append a b :
  Js.length (a +:+ b) = Js.length a + Js.length b.
Proof.
  induction a as [|ch a IH]; [done|].
  rewrite append_cons. cbn [Js.length]. rewrite IH. lia.
Qed.

(** As long as everything fits, the loop only gathers. *)
Lemma chunk_loop_gathers chunkSize ls cur :
  Js.length (cur +:+ gathered ls) <= S chunkSize ->
  foldl (chunk_step chunkSize) ([], cur) ls = ([], cur +:+ gathered ls).
Proof.
  revert cur. induction ls as [|l ls IH]; intros cur Hlen.
  - cbn. by rewrite append_empty_r.
  - cbn [foldl gathered] in *. unfold chunk_step at 2.
    assert (Js.length (cur +:+ l) <= chunkSize) as Hfit.
    { rewrite !units_length_append in Hlen. rewrite units_length_append.
      change (Js.length Js.nl) with 1 in Hlen. lia. }
    rewrite (proj2 (Nat.ltb_ge _ _) Hfit). cbn [andb].
    rewrite IH; [by rewrite !append_assoc|].
    rewrite !units_length_append in Hlen |- *. lia.
Qed.

(** What the function does with what the loop has left. *)
Lemma chunkText_gathered text chunkSize :
  foldl (chunk_step chunkSize) ([], "") (Shell.lines text)
  = ([], Js.nl +:+ text) ->
  chunkText text chunkSize =
  if (0 <? Js.length (Js.trim text))%nat then [Js.trim text] else [].
Proof.
  intros Hloop. unfold chunkText. rewrite Hloop, trim_after_nl.
  by destruct (0 <? Js.length (Js.trim text))%nat.
Qed.

(** X23.  A text that fits is kept whole.  A text of at most chunkSize
    UTF-16 code units comes back as a single chunk, the trimmed text,
    with its line breaks; a text of white space only (Unicode white space
    and line terminators, as trim() has it) gives no chunk. *)
Theorem chunkText_short_text text chunkSize :
  Js.length text <= chunkSize ->
  chunkText text chunkSize =
  if (0 <? Js.length (Js.trim text))%nat then [Js.trim text] else [].
Proof.
  intros Hlen. apply chunkText_gathered.
  rewrite chunk_loop_gathers; rewrite append_nil_l, gathered_lines.
  - done.
  - rewrite units_length_append. change (Js.length Js.nl) with 1. lia.
Qed.

Lemma chunkText_short_text_witness :
  chunkText (Js.bytes [227;128;128;230;168;153;233;161;140;227;128;128]) 4
  = [Js.bytes [230;168;153;233;161;140]].
Proof.
  rewrite chunkText_short_text; [|vm_compute; lia].
  vm_compute. reflexivity.
Defined.

(** X24.  A line is never split.  A text without a line break comes back
    as one chunk whatever the chunk size: the size is no bound on the
    length of a chunk. *)
Theorem chunkText_never_splits_a_line text chunkSize :
  Shell.no_LF text ->
  chunkText text chunkSize =
  if (0 <? Js.length (Js.trim text))%nat then [Js.trim text] else [].
Proof.
  intros Hline. apply chunkText_gathered.
  rewrite (lines_no_LF text Hline). cbn [foldl]. unfold chunk_step.
  cbn [Js.length Nat.ltb Nat.leb andb]. rewrite Bool.andb_false_r.
  by rewrite append_nil_l.
Qed.

Lemma chunkText_never_splits_a_line_witness :
  chunkText "a line of thirty-one characters" 8
  = ["a line of thirty-one characters"].
Proof.
  rewrite chunkText_never_splits_a_line.
  - vm_compute. reflexivity.
  - vm_compute. intros H. decompose [or] H; discriminate || done.
Defined.

Lemma chunk_loop_count chunkSize ls st :
  length (foldl (chunk_step chunkSize) st ls).1 <= length st.1 + length ls.
Proof.
  revert st. induction ls as [|l ls IH]; intros [chunks cur]; cbn; [lia|].
  etrans; [apply IH|]. unfold chunk_step.
  destruct (_ && _); cbn; rewrite ?length_app; cbn; lia.
Qed.

(** X25.  No more chunks than lines.  The number of chunks is at most the
    number of lines of the text. *)
Theorem chunkText_at_most_one_chunk_per_line text chunkSize :
  length (chunkText text chunkSize) <= length (Shell.lines text).
Proof.
  unfold chunkText.
  destruct (Shell.lines text) as [|l ls] eqn:Hl;
    [by destruct (lines_nonempty text)|].
  cbn [foldl]. unfold chunk_step at 2.
  cbn [Js.length Nat.ltb Nat.leb andb]. rewrite Bool.andb_false_r.
  pose proof (chunk_loop_count chunkSize ls ([], "" +:+ Js.nl +:+ l)) as Hn.
  destruct (foldl _ _ ls) as [chunks cur]. cbn [fst length] in Hn |- *.
  destruct (Js.length (Js.trim cur));
    rewrite ?length_app; cbn [length]; lia.
Qed.

(** X26.  A chunk can be empty.  Only the last chunk is checked for being
    empty.  A text that begins with an empty line followed by a line of
    at least chunkSize UTF-16 code units, not empty and with no white
    space at its ends, gives the empty string as its first chunk. *)
Theorem chunkText_empty_chunk line chunkSize :
  Shell.no_LF line ->
  chunkSize <= Js.length line ->
  Js.trim line = line -> 0 < Js.length line ->
  chunkText (Js.nl +:+ line) chunkSize = [""; line].
Proof.
  intros Hline Hlong Htrim Hne. unfold chunkText.
  replace (Js.nl +:+ line) with ("" +:+ Js.nl +:+ line)
    by (by rewrite append_nil_l).
  rewrite lines_append, (lines_no_LF line Hline).
  change (Shell.lines "") with [""]. cbn [app foldl].
  unfold chunk_step at 2.
  cbn [Js.length Nat.ltb Nat.leb andb]. rewrite Bool.andb_false_r.
  unfold chunk_step. rewrite !append_nil_l, append_empty_r.
  rewrite units_length_append. change (Js.length Js.nl) with 1.
  assert ((chunkSize <? 1 + Js.length line)%nat = true)
    as -> by (apply Nat.ltb_lt; lia).
  change (0 <? 1)%nat with true. cbn [andb].
  rewrite Htrim. change (Js.trim Js.nl) with "".
  destruct (Js.length line); [lia|done].
Qed.

Lemma chunkText_empty_chunk_witness :
  chunkText (Js.nl +:+ Js.bytes [230;168;153;233;161;140]) 2
  = [""; Js.bytes [230;168;153;233;161;140]].
Proof.
  apply chunkText_empty_chunk.
  - vm_compute. intros H. decompose [or] H; discriminate || done.
  - vm_compute. lia.
  - vm_compute. reflexivity.
  - vm_compute. lia.
Defined.

End ChunkText.

(** ** The listings *)

Section Listings.
Import App AppMore.

Lemma status_after_attempt sid qid p out err o d qid' :
  Db.getQuestionStatus sid qid' (Db.recordAttempt sid qid p out err o d)
  = if bool_decide (qid' = qid) then status_of_attempt p
    else Db.getQuestionStatus sid qid' d.
Proof.
  unfold Db.getQuestionStatus, Db.attempts_of, Db.recordAttempt.
  cbn [Db.attempts Db.set_attempts]. rewrite List.filter_app.
  cbn [List.filter Db.attempt_student Db.attempt_question].
  rewrite Nat.eqb_refl. cbn [andb].
  case_bool_decide as Hq.
  - rewrite bool_decide_eq_true_2 by done. by rewrite last_snoc.
  - rewrite bool_decide_eq_false_2 by done. by rewrite app_nil_r.
Qed.

Lemma verify_answer_attempt w u qid d p out s' :
  student_verify w u qid (fresh d) = (RespVerify p out, s') ->
  exists so se o,
    db s' = Db.recordAttempt (Db.user_id u) qid p so se o d.
Proof.
  rewrite student_verify_run. cbn zeta.
  destruct (Db.getQuestion qid d) as [q|]; [|done].
  destruct (conn_for w (Db.user_id u) d) as [c|].
  - destruct (outcome_of (check_run w c q) d) as [r|msg]; [|done].
    intros [= <- _ <-]. by eexists _, _, _.
  - intros [= <- _ <-]. by eexists _, _, _.
Qed.

(** X27.  The listing after a verify.  When verify(q) has answered with
    a verdict, passed or not, the student's listing shows that verdict as
    the status of q, whatever the status was before (a pass is undone by
    a later failure), and is otherwise as it was: same rows, same order,
    same other statuses, same current question. *)
Theorem listing_after_verify w u qid d p out s' :
  student_verify w u qid (fresh d) = (RespVerify p out, s') ->
  student_questions u (db s') =
  (map (fun r =>
          if bool_decide (Some (row_id r) = qid)
          then mkQuestionRow (row_id r) (row_title r) (row_fault_id r)
                 (row_check_id r) (status_of_attempt p)
          else r)
     (student_questions u d).1,
   (student_questions u d).2).
Proof.
  intros Hv. destruct (verify_answer_attempt w u qid d p out s' Hv)
    as (so & se & o & ->).
  unfold student_questions. cbn [fst snd].
  change (Db.getQuestions true (Db.recordAttempt _ _ _ _ _ _ d))
    with (Db.getQuestions true d).
  change (Db.getProgress (Db.user_id u) (Db.recordAttempt _ _ _ _ _ _ d))
    with (Db.getProgress (Db.user_id u) d).
  f_equal. rewrite map_map. apply map_ext. intros q. cbn [row_id].
  rewrite status_after_attempt. by case_bool_decide.
Qed.

Lemma listing_after_verify_witness :
  student_questions Sample.alice Sample.verified =
  ([mkQuestionRow 1 "E1" (Some "f1") (Some "c1") Db.status_passed;
    mkQuestionRow 2 "E2" (Some "f2") (Some "c2") Db.status_untried],
   Some 1).
Proof.
  unfold Sample.verified.
  rewrite (listing_after_verify Sample.world Sample.alice (Some 1)
             Sample.started true
             (match (student_verify Sample.world Sample.alice (Some 1)
                       (fresh Sample.started)).1 with
              | RespVerify _ o => o
              | _ => ""
              end)
             (student_verify Sample.world Sample.alice (Some 1)
                (fresh Sample.started)).2).
  - vm_compute. reflexivity.
  - vm_compute. reflexivity.
Defined.

(** X28.  Who reads the teacher's listing.  Without a session the
    teacher's listing answers 401.  In every database that sequential
    requests can reach, the session opened by a login under a name that
    contains "teacher" is served every stored question, disabled ones and
    scripts included; the session of any other name is answered 403, and
    is the only kind the student's listing is served to. *)
Theorem teacher_listing_guarded :
  (forall d, get_teacher_questions None d = inl (RespError 401 "未登入")) /\
  (forall d name sess,
     reachable d -> name <> "" ->
     let session := (post_auth_login (Some name) sess (fresh d)).1.2 in
     let d' := db (post_auth_login (Some name) sess (fresh d)).2 in
     (Js.includes "teacher" name = true ->
      get_teacher_questions session d' = inr (Db.questions d) /\
      get_student_questions session d' = inl (RespError 403 "權限不足")) /\
     (Js.includes "teacher" name = false ->
      get_teacher_questions session d' = inl (RespError 403 "權限不足") /\
      exists u, session = Some u /\
                get_student_questions session d'
                = inr (student_questions u d'))).
Proof.
  split; [done|].
  intros d name sess Hreach Hname session d'.
  destruct (login_session d name sess Hreach Hname) as (u & Hsess & Hu & Hrole).
  fold session in Hsess. rewrite Hsess. unfold role_of in Hrole.
  assert (Db.questions d' = Db.questions d) as Hq.
  { subst d'. unfold post_auth_login, login_body, fresh.
    destruct name as [|ch name]; [done|]. cbn [Js.truthy negb Js.or_else].
    cbn [db log]. unfold Db.getOrCreateUser.
    by destruct (find _ (Db.users d)). }
  split; intros Hinc; rewrite Hinc in Hrole.
  - unfold get_teacher_questions, get_student_questions, guarded_read,
      requireAuth, requireRole.
    rewrite Hrole. cbn. by rewrite Hq.
  - unfold get_teacher_questions, get_student_questions, guarded_read,
      requireAuth, requireRole.
    rewrite Hrole. cbn. split; [done|]. by exists u.
Qed.

Lemma teacher_listing_guarded_witness :
  get_teacher_questions
    (post_auth_login (Some "teacher_bob") None (fresh Sample.installed)).1.2
    (db (post_auth_login (Some "teacher_bob") None
           (fresh Sample.installed)).2)
  = inr [Sample.E1; Sample.E2].
Proof.
  destruct teacher_listing_guarded as [_ Hlogin].
  destruct (Hlogin Sample.installed "teacher_bob" None (reach_initial _)
              ltac:(done)) as [Hteacher _].
  exact (proj1 (Hteacher eq_refl)).
Defined.

End Listings.

(** ** The vector store (src/rag.js) *)

Section VectorStore.
Import Rag.
Context {E Meta : Type}.

Lemma push_chunks_effect (o : Oracle E) (meta : Meta) chunks
    (vs : VectorStore E Meta) :
  exists docs embs,
    documents (foldl (push_chunk o meta) vs chunks) = documents vs ++ docs /\
    embeddings (foldl (push_chunk o meta) vs chunks) = embeddings vs ++ embs /\
    map content docs = chunks /\
    Forall (fun doc => metadata doc = meta) docs /\
    length embs = length chunks.
Proof.
  revert vs. induction chunks as [|chunk chunks IH]; intros vs.
  - exists [], []. cbn [foldl]. by rewrite !app_nil_r.
  - cbn [foldl].
    destruct (IH (push_chunk o meta vs chunk))
      as (docs & embs & Hd & He & Hc & Hm & Hl).
    cbn [push_chunk documents embeddings] in Hd, He.
    rewrite <- app_assoc in Hd, He. cbn [app] in Hd, He.
    eexists (_ :: docs), (_ :: embs).
    split; [exact Hd|]. split; [exact He|].
    cbn [map content length]. rewrite Hc, Hl.
    split; [done|]. split; [|done]. by constructor.
Qed.

(** X29.  The store stays aligned.  addToVectorStore appends one document
    and one embedding per chunk of the text, in the order of the chunks
    and with the metadata given, and touches nothing that was stored
    before.  If documents and embeddings were equally many they still
    are; chunksAdded is the number of chunks and totalChunks the new
    number of documents. *)
Theorem addToVectorStore_appends_chunks (o : Oracle E) text (meta : Meta)
    (vs : VectorStore E Meta) :
  length (documents vs) = length (embeddings vs) ->
  let r := addToVectorStore o text meta vs in
  exists docs embs,
    documents r.2 = documents vs ++ docs /\
    embeddings r.2 = embeddings vs ++ embs /\
    map content docs = chunkText text default_chunkSize /\
    Forall (fun doc => metadata doc = meta) docs /\
    length (documents r.2) = length (embeddings r.2) /\
    r.1.1 = length docs /\
    r.1.2 = length (documents vs) + r.1.1.
Proof.
  intros Haligned r. subst r. unfold addToVectorStore. cbn [fst snd].
  destruct (push_chunks_effect o meta (chunkText text default_chunkSize) vs)
    as (docs & embs & Hd & He & Hc & Hm & Hl).
  exists docs, embs. rewrite Hd, He, !length_app.
  assert (length docs = length (chunkText text default_chunkSize)) as Hn
    by (by rewrite <- Hc, length_map).
  repeat split; try done; lia.
Qed.

End VectorStore.

Lemma addToVectorStore_appends_chunks_witness :
  let r := Rag.addToVectorStore
             (Rag.mkOracle (fun n _ => [Z.of_nat n]) (fun _ => 1766000000000%N))
             "restart nginx" "notes.md" (Rag.mkVectorStore [] []) in
  exists docs embs,
    Rag.documents r.2 = [] ++ docs /\
    Rag.embeddings r.2 = [] ++ embs /\
    map Rag.content docs = Rag.chunkText "restart nginx" Rag.default_chunkSize /\
    Forall (fun doc => Rag.metadata doc = "notes.md") docs /\
    length (Rag.documents r.2) = length (Rag.embeddings r.2) /\
    r.1.1 = length docs /\
    r.1.2 = 0 + r.1.1.
Proof.
  apply (addToVectorStore_appends_chunks
           (Rag.mkOracle (fun n _ => [Z.of_nat n]) (fun _ => 1766000000000%N))
           "restart nginx" "notes.md" (Rag.mkVectorStore [] [])).
  reflexivity.
Defined.
